(** * A 2D geometry kernel: points, rectangles, circles, segments, polygons

    Shallow embedding of the geometry classes of [src/types.d.ts]
    ([Point], [Rectangle], [Circle], [Line], [Polygon]), of [clamp] from
    [src/lib/math/utils.ts] and of the undo/redo store of
    [src/stores/history.store.ts], with the properties the specification
    states about them and further properties read off the code.

    Numbers.  A TypeScript [number] is an IEEE 754 double.  Module [Double]
    embeds over primitive binary64 floats the methods whose results depend on
    how the arithmetic rounds: segment intersection, the circumcircle, the
    overlap of rectangles, area, centroid, convex hull, vertex access by
    index, and the two [normalize] methods.  Every operation there rounds as
    the source's does, in the source's order, and NaN, the infinities and the
    two zeros are there.  The modules [Point] to [Polygon] that come first
    read a [number] as a real number; what is stated over them rests on the
    branch structure of the code, on its comparisons and on its own order of
    operations.

    Objects.  The value-level part of the development represents an object
    by the values of its fields; a method that mutates its receiver is a
    function returning the receiver's new fields.  Questions of object
    identity and sharing are treated separately in module [Store], where
    points live in an explicit store and are held through references. *)

From Stdlib Require Import Floats QArith.
From Stdlib Require Import String Reals Lra Lia Psatz List Bool Arith ZArith.
From Stdlib Require Import Sorted Permutation.
Import ListNotations.

Local Open Scope R_scope.
Set Warnings "-inexact-float".

(** ** Comparisons and completions *)

(** Tolerance used by the kernel's epsilon tests. *)
Definition EPS : R := 1e-10.

(** The comparison operators of the source, as booleans. *)
Definition Rltb (a b : R) : bool := if Rlt_dec a b then true else false.
Definition Rleb (a b : R) : bool := if Rle_dec a b then true else false.
Definition Rgtb (a b : R) : bool := Rltb b a.
Definition Rgeb (a b : R) : bool := Rleb b a.
(** [a === b] on numbers. *)
Definition Reqb (a b : R) : bool := if Req_dec_T a b then true else false.

(** Whole numbers among the numbers: the floor, the ceiling, truncation
    toward zero (how [splice] reads its index), and the test for a whole
    number. *)
Definition floor (r : R) : Z := Int_part r.
Definition ceil (r : R) : Z := (- floor (- r))%Z.
Definition trunc (r : R) : Z := if Rltb r 0 then ceil r else floor r.
Definition is_whole (r : R) : bool := Reqb r (IZR (floor r)).

(** A call either returns a value or throws an error with a message. *)
Inductive result (A : Type) : Type :=
| Ok (a : A)
| Error (msg : string).
Arguments Ok {A} a.
Arguments Error {A} msg.

(** How a receiver-mutating method completes: it returns [this], or throws. *)
Inductive completion : Type :=
| ReturnsThis
| Throws (msg : string).

(** ** Point *)

Module Point.

Record t : Type := mk { x : R; y : R }.

Definition zero : t := mk 0 0.

Definition set_x (this : t) (v : R) : t := mk v (y this).
Definition set_y (this : t) (v : R) : t := mk (x this) v.

(** Instance methods: the result is the receiver after the call. *)
Definition add (this point : t) : t :=
  let this := set_x this (x this + x point) in
  set_y this (y this + y point).

(** [divide]: the completion and the receiver after the call. *)
Definition divide (this : t) (scalar : R) : completion * t :=
  if Reqb scalar 0 then (Throws "Division by zero", this)
  else
    let this := set_x this (x this / scalar) in
    let this := set_y this (y this / scalar) in
    (ReturnsThis, this).

Definition clone (this : t) : t := mk (x this) (y this).

Definition equals (this point : t) (tolerance : R) : bool :=
  Rltb (Rabs (x this - x point)) tolerance &&
  Rltb (Rabs (y this - y point)) tolerance.

(** Static methods. *)
Definition divide_static (point : t) (scalar : R) : result t :=
  if Reqb scalar 0 then Error "Division by zero"
  else Ok (mk (x point / scalar) (y point / scalar)).

Definition distance (p1 p2 : t) : R :=
  let dx := x p2 - x p1 in
  let dy := y p2 - y p1 in
  sqrt (dx * dx + dy * dy).

Definition distanceTo (this point : t) : R := distance this point.

Definition lerp (p1 p2 : t) (s : R) : t :=
  mk (x p1 + (x p2 - x p1) * s) (y p1 + (y p2 - y p1) * s).

(** More instance methods; the result is the receiver after the call. *)
Definition subtract (this point : t) : t :=
  let this := set_x this (x this - x point) in
  set_y this (y this - y point).

Definition multiply (this : t) (scalar : R) : t :=
  let this := set_x this (x this * scalar) in
  set_y this (y this * scalar).

Definition length (this : t) : R := sqrt (x this * x this + y this * y this).

(** [normalize]: returns [this] untouched at length 0, and the outcome of
    [this.divide(length)] otherwise. *)
Definition normalize (this : t) : completion * t :=
  let length := length this in
  if Reqb length 0 then (ReturnsThis, this) else divide this length.

(** More static methods. *)
Definition add_static (p1 p2 : t) : t := mk (x p1 + x p2) (y p1 + y p2).

Definition multiply_static (point : t) (scalar : R) : t :=
  mk (x point * scalar) (y point * scalar).

End Point.

(** ** Rectangle *)

Module Rectangle.

Record t : Type := mk { x : R; y : R; width : R; height : R }.

Definition right (this : t) : R := x this + width this.
Definition bottom (this : t) : R := y this + height this.

(** Non-negative width and height. *)
Definition normalized (r : t) : Prop := 0 <= width r /\ 0 <= height r.

(** [new Rectangle()]: every argument defaults to 0. *)
Definition empty : t := mk 0 0 0 0.

Definition topLeft (this : t) : Point.t := Point.mk (x this) (y this).
Definition bottomRight (this : t) : Point.t := Point.mk (right this) (bottom this).

(** [contains(arg)] dispatches on [arg instanceof Point]. *)
Definition contains (this : t) (arg : Point.t + t) : bool :=
  match arg with
  | inl arg =>
      Rgeb (Point.x arg) (x this) && Rleb (Point.x arg) (right this) &&
      Rgeb (Point.y arg) (y this) && Rleb (Point.y arg) (bottom this)
  | inr arg =>
      Rgeb (x arg) (x this) && Rleb (right arg) (right this) &&
      Rgeb (y arg) (y this) && Rleb (bottom arg) (bottom this)
  end.

End Rectangle.

(** ** Circle *)

Module Circle.

Record t : Type := mk { center : Point.t; radius : R }.

Definition contains (this : t) (point : Point.t) : bool :=
  Rleb (Point.distanceTo (center this) point) (radius this).

(** [intersects(arg)] dispatches on [arg instanceof Circle]. *)
Definition intersects (this : t) (arg : t + Rectangle.t) : bool :=
  match arg with
  | inl arg =>
      let distance := Point.distanceTo (center this) (center arg) in
      Rleb distance (radius this + radius arg)
  | inr arg =>
      let closestX :=
        Rmax (Rectangle.x arg)
             (Rmin (Point.x (center this)) (Rectangle.right arg)) in
      let closestY :=
        Rmax (Rectangle.y arg)
             (Rmin (Point.y (center this)) (Rectangle.bottom arg)) in
      let distanceToClosestPoint :=
        Point.distanceTo (center this) (Point.mk closestX closestY) in
      Rleb distanceToClosestPoint (radius this)
  end.

Definition pointAt (this : t) (angle : R) : Point.t :=
  Point.mk (Point.x (center this) + cos angle * radius this)
           (Point.y (center this) + sin angle * radius this).

End Circle.

(** ** Line (segment) *)

Module Line.

Record t : Type := mk { start : Point.t; end_ : Point.t }.

(** The quantities [intersects] computes in its locals [denominator],
    [s] and [t]: the determinant of the 2x2 system and the two solved
    segment parameters. *)
Definition denominator (this line : t) : R :=
  let s1_x := Point.x (end_ this) - Point.x (start this) in
  let s1_y := Point.y (end_ this) - Point.y (start this) in
  let s2_x := Point.x (end_ line) - Point.x (start line) in
  let s2_y := Point.y (end_ line) - Point.y (start line) in
  - s2_x * s1_y + s1_x * s2_y.

Definition intersects (this line : t) : option Point.t :=
  let p0 := start this in
  let p1 := end_ this in
  let p2 := start line in
  let p3 := end_ line in
  let s1_x := Point.x p1 - Point.x p0 in
  let s1_y := Point.y p1 - Point.y p0 in
  let s2_x := Point.x p3 - Point.x p2 in
  let s2_y := Point.y p3 - Point.y p2 in
  let denominator := - s2_x * s1_y + s1_x * s2_y in
  if Rltb (Rabs denominator) EPS then None
  else
    let s :=
      (- s1_y * (Point.x p0 - Point.x p2) + s1_x * (Point.y p0 - Point.y p2))
      / denominator in
    let t :=
      (s2_x * (Point.y p0 - Point.y p2) - s2_y * (Point.x p0 - Point.x p2))
      / denominator in
    if Rgeb s 0 && Rleb s 1 && Rgeb t 0 && Rleb t 1
    then Some (Point.mk (Point.x p0 + t * s1_x) (Point.y p0 + t * s1_y))
    else None.

(** [pointAt t] is [start + t * (end - start)]. *)
Definition pointAt (this : t) (s : R) : Point.t :=
  Point.lerp (start this) (end_ this) s.

Definition distanceToPoint (this : t) (point : Point.t) : R :=
  let l2 := Point.distanceTo (start this) (end_ this) ^ 2 in
  if Reqb l2 0 then Point.distanceTo point (start this)
  else
    let t :=
      ((Point.x point - Point.x (start this)) *
       (Point.x (end_ this) - Point.x (start this)) +
       (Point.y point - Point.y (start this)) *
       (Point.y (end_ this) - Point.y (start this))) / l2 in
    let tClamped := Rmax 0 (Rmin 1 t) in
    let projection := pointAt this tClamped in
    Point.distanceTo point projection.

End Line.

(** ** Numeric helpers ([lib/math/utils.ts]) *)

Module Utils.

Definition clamp (value min max : R) : R := Rmin (Rmax value min) max.

End Utils.

(** ** Polygon *)

Module Polygon.

Record t : Type := mk { vertices : list Point.t }.

(** [vs[i]]; every index the code uses is in range. *)
Definition at_ (vs : list Point.t) (i : nat) : Point.t := nth i vs Point.zero.

Definition new_ (vertices : list Point.t) : t := mk (map Point.clone vertices).

Definition vertexCount (this : t) : nat := length (vertices this).

Definition reverse (this : t) : t := mk (rev (vertices this)).

Definition isClosed (this : t) : bool :=
  let vs := vertices this in
  (2 <? length vs)%nat && Point.equals (at_ vs 0) (at_ vs (length vs - 1)) EPS.

Definition close (this : t) : t :=
  let vs := vertices this in
  if (2 <? length vs)%nat && negb (isClosed this)
  then mk (vs ++ [Point.clone (at_ vs 0)])
  else this.

(** Even-odd ray casting; [j] trails [i], starting at [n - 1]. *)
Definition contains (this : t) (point : Point.t) : bool :=
  let vs := vertices this in
  if (length vs <? 3)%nat then false
  else
    let n := length vs in
    fst (fold_left
           (fun '(inside, j) i =>
              let vi := at_ vs i in
              let vj := at_ vs j in
              let intersect :=
                negb (Bool.eqb (Rgtb (Point.y vi) (Point.y point))
                               (Rgtb (Point.y vj) (Point.y point))) &&
                Rltb (Point.x point)
                     ((Point.x vj - Point.x vi) * (Point.y point - Point.y vi)
                      / (Point.y vj - Point.y vi) + Point.x vi) in
              ((if intersect then negb inside else inside), i))
           (seq 0 n) (false, (n - 1)%nat)).

Definition getEdges (this : t) : list Line.t :=
  let vs := vertices this in
  if (length vs <? 2)%nat then []
  else
    let n := length vs in
    let limit := if isClosed this && (1 <? n)%nat then (n - 1)%nat else n in
    map (fun i => Line.mk (at_ vs i) (at_ vs ((i + 1) mod n)%nat)) (seq 0 limit).

(** Truthiness of the value returned by [Line.intersects]. *)
Definition truthy (r : option Point.t) : bool :=
  match r with Some _ => true | None => false end.

Definition intersects (this polygon : t) : bool :=
  if (length (vertices this) =? 0)%nat || (length (vertices polygon) =? 0)%nat
  then false
  else
    let edges1 := getEdges this in
    let edges2 := getEdges polygon in
    if existsb
         (fun edge1 =>
            existsb (fun edge2 => truthy (Line.intersects edge1 edge2)) edges2)
         edges1
    then true
    else if (0 <? length (vertices this))%nat &&
            contains polygon (at_ (vertices this) 0)
    then true
    else if (0 <? length (vertices polygon))%nat &&
            contains this (at_ (vertices polygon) 0)
    then true
    else false.

(** Vertex access by index.  [vs[index]] is an element of the array when
    [index] is a whole number in range, and [undefined] for every other
    number. *)
Definition element (vs : list Point.t) (index : R) : option Point.t :=
  if is_whole index && Rgeb index 0
  then nth_error vs (Z.to_nat (floor index))
  else None.

Definition in_range (index : R) (vs : list Point.t) : bool :=
  Rgeb index 0 && Rltb index (INR (length vs)).

(** [getVertex]; calling [clone] on [undefined] throws. *)
Definition getVertex (this : t) (index : R) : result (option Point.t) :=
  if Rltb index 0 || Rgeb index (INR (length (vertices this)))
  then Ok None
  else
    match element (vertices this) index with
    | Some v => Ok (Some (Point.clone v))
    | None => Error "Cannot read properties of undefined (reading 'clone')"
    end.

(** [splice(index, 1)] at an index in range. *)
Definition splice1 (vs : list Point.t) (i : nat) : list Point.t :=
  firstn i vs ++ skipn (S i) vs.

Definition removeVertex (this : t) (index : R) : t :=
  if in_range index (vertices this)
  then mk (splice1 (vertices this) (Z.to_nat (trunc index)))
  else this.

(** [vs[i] = p] at an index in range. *)
Definition assign (vs : list Point.t) (i : nat) (p : Point.t) : list Point.t :=
  firstn i vs ++ p :: skipn (S i) vs.

(** [setVertex]; assigning at a number that is not a whole number creates a
    property of the array object that is none of its elements, and the
    vertex list stays as it is. *)
Definition setVertex (this : t) (index : R) (point : Point.t) : t :=
  if in_range index (vertices this)
  then
    if is_whole index
    then mk (assign (vertices this) (Z.to_nat (floor index)) (Point.clone point))
    else this
  else this.

(** [regular]; the loop [for (i = 0; i < sides; i++)] runs for the whole
    numbers below [sides]. *)
Definition regular (center : Point.t) (radius : R) (sides : R) : result t :=
  if Rltb sides 3 then Error "Polygon must have at least 3 sides"
  else
    let angleStep := 2 * PI / sides in
    let vertices :=
      map (fun i =>
             let angle := INR i * angleStep in
             let x := Point.x center + radius * cos angle in
             let y := Point.y center + radius * sin angle in
             Point.mk x y)
          (seq 0 (Z.to_nat (ceil sides))) in
    let poly := new_ vertices in
    Ok (close poly).

(** *** Further methods *)

Definition boundingBox (this : t) : Rectangle.t :=
  let vs := vertices this in
  if (length vs =? 0)%nat then Rectangle.empty
  else
    let '(minX, maxX, minY, maxY) :=
      fold_left
        (fun '(minX, maxX, minY, maxY) i =>
           let v := at_ vs i in
           (Rmin minX (Point.x v), Rmax maxX (Point.x v),
            Rmin minY (Point.y v), Rmax maxY (Point.y v)))
        (seq 1 (length vs - 1))
        (Point.x (at_ vs 0), Point.x (at_ vs 0),
         Point.y (at_ vs 0), Point.y (at_ vs 0)) in
    Rectangle.mk minX minY (maxX - minX) (maxY - minY).

(** [simplify]; [tolerance] defaults to 1e-10.  The array [simplified] grows
    at its end; [prev] is its last element. *)
Definition simplify (this : t) (tolerance : R) : t :=
  let vs := vertices this in
  if (length vs <=? 2)%nat then this
  else
    let simplified := [Point.clone (at_ vs 0)] in
    let '(effectiveVertices, wasClosedDuplicate) :=
      if isClosed this && (1 <? length vs)%nat
      then (removelast vs, true)
      else (vs, false) in
    let simplified :=
      fold_left
        (fun simplified i =>
           let prev := at_ simplified (length simplified - 1) in
           let curr := at_ effectiveVertices i in
           let next := at_ effectiveVertices (i + 1) in
           let line := Line.mk prev next in
           let distance := Line.distanceToPoint line curr in
           if Rgtb distance tolerance
           then simplified ++ [Point.clone curr]
           else simplified)
        (seq 1 (length effectiveVertices - 1 - 1)) simplified in
    let simplified :=
      if (1 <? length effectiveVertices)%nat
      then simplified ++
           [Point.clone (at_ effectiveVertices (length effectiveVertices - 1))]
      else simplified in
    let simplified :=
      if wasClosedDuplicate && (1 <? length simplified)%nat &&
         negb (Point.equals (at_ simplified 0)
                            (at_ simplified (length simplified - 1)) EPS)
      then simplified ++ [Point.clone (at_ simplified 0)]
      else simplified in
    mk simplified.

(** Static constructors. *)
Definition rectangle (x y width height : R) : t :=
  let poly :=
    new_ [Point.mk x y; Point.mk (x + width) y;
          Point.mk (x + width) (y + height); Point.mk x (y + height)] in
  close poly.

Definition fromRectangle (rect : Rectangle.t) : t :=
  rectangle (Rectangle.x rect) (Rectangle.y rect)
            (Rectangle.width rect) (Rectangle.height rect).

(** [fromCircle]; [segments] defaults to 32. *)
Definition fromCircle (circle : Circle.t) (segments : R) : result t :=
  if Rltb segments 3
  then Error "Circle approximation must have at least 3 segments"
  else
    let angleStep := 2 * PI / segments in
    let vertices :=
      map (fun i =>
             let angle := INR i * angleStep in
             Circle.pointAt circle angle)
          (seq 0 (Z.to_nat (ceil segments))) in
    let poly := new_ vertices in
    Ok (close poly).

End Polygon.

(** ** Objects in a store: identity and sharing *)

(** Whether two holders of a [Point] share one object cannot be seen on
    values.  Here every [Point] object lives in a store and is held through
    a reference; [new Point(..)] allocates, a mutating method writes. *)
Module Store.

(** A reference to a [Point] object: its allocation index. *)
Definition ref : Type := nat.

(** The [Point] objects allocated so far. *)
Definition store : Type := list Point.t.

Definition valid (h : store) (r : ref) : Prop := (r < length h)%nat.

Definition read (h : store) (r : ref) : Point.t := nth r h Point.zero.

(** Overwrite the fields of the object at [r]. *)
Definition write (h : store) (r : ref) (p : Point.t) : store :=
  if (r <? length h)%nat then firstn r h ++ p :: skipn (S r) h else h.

(** [new Point(x, y)]. *)
Definition alloc (h : store) (p : Point.t) : ref * store :=
  (length h, h ++ [p]).

(** [this.clone()]: a new object with the same coordinates. *)
Definition Point_clone (h : store) (this : ref) : ref * store :=
  alloc h (Point.mk (Point.x (read h this)) (Point.y (read h this))).

(** [this.add(point)]: mutates the object [this] refers to. *)
Definition Point_add (h : store) (this point : ref) : store :=
  write h this (Point.add (read h this) (read h point)).

(** *** Polygon: an array of references *)

Record Polygon : Type := mkPolygon { vertices : list ref }.

(** [vertices.map((v) => v.clone())]. *)
Fixpoint clone_all (h : store) (vs : list ref) : list ref * store :=
  match vs with
  | [] => ([], h)
  | v :: vs' =>
      let '(r, h1) := Point_clone h v in
      let '(rs, h2) := clone_all h1 vs' in
      (r :: rs, h2)
  end.

Definition Polygon_new (h : store) (vertices : list ref) : Polygon * store :=
  let '(rs, h') := clone_all h vertices in (mkPolygon rs, h').

Definition addVertex (h : store) (this : Polygon) (point : ref)
  : Polygon * store :=
  let '(r, h') := Point_clone h point in
  (mkPolygon (vertices this ++ [r]), h').

(** The position at which [splice(index, 0, item)] inserts: the index is
    truncated, a negative index counts from the end, and the position is
    clamped to the array. *)
Definition splice_start (len : nat) (index : R) : nat :=
  let relativeStart := trunc index in
  if (relativeStart <? 0)%Z then Z.to_nat (Z.max (Z.of_nat len + relativeStart) 0)
  else Nat.min (Z.to_nat relativeStart) len.

Definition insertVertex (h : store) (this : Polygon) (index : R) (point : ref)
  : Polygon * store :=
  let '(r, h') := Point_clone h point in
  let i := splice_start (length (vertices this)) index in
  (mkPolygon (firstn i (vertices this) ++ r :: skipn i (vertices this)), h').

Definition setVertex (h : store) (this : Polygon) (index : R) (point : ref)
  : Polygon * store :=
  if Rgeb index 0 && Rltb index (INR (length (vertices this))) then
    let '(r, h') := Point_clone h point in
    if is_whole index then
      let i := Z.to_nat (floor index) in
      (mkPolygon (firstn i (vertices this) ++ r :: skipn (S i) (vertices this)),
       h')
    else (this, h')
  else (this, h).

(** The coordinates of the polygon's vertices in a store. *)
Definition vertex_values (h : store) (this : Polygon) : list Point.t :=
  map (read h) (vertices this).

(** *** Circle and Line: fields holding references *)

Record Circle : Type := mkCircle { center : ref; radius : R }.

(** [constructor(center, radius) { this.center = center; ... }]. *)
Definition Circle_new (h : store) (center : ref) (radius : R)
  : Circle * store :=
  (mkCircle center radius, h).

(** [clone() { return new Circle(this.center.clone(), this.radius) }]. *)
Definition Circle_clone (h : store) (this : Circle) : Circle * store :=
  let '(c, h1) := Point_clone h (center this) in
  Circle_new h1 c (radius this).

Record Line : Type := mkLine { start : ref; end_ : ref }.

(** [constructor(start, end) { this.start = start; this.end = end }]. *)
Definition Line_new (h : store) (start end_ : ref) : Line * store :=
  (mkLine start end_, h).

(** [clone() { return new Line(this.start.clone(), this.end.clone()) }]. *)
Definition Line_clone (h : store) (this : Line) : Line * store :=
  let '(s, h1) := Point_clone h (start this) in
  let '(e, h2) := Point_clone h1 (end_ this) in
  Line_new h2 s e.

(** [static fromAngle(start, angle, length) {
       const end = new Point(start.x + Math.cos(angle) * length,
                             start.y + Math.sin(angle) * length)
       return new Line(start.clone(), end) }]. *)
Definition Line_fromAngle (h : store) (start : ref) (angle length : R)
  : Line * store :=
  let '(e, h1) :=
    alloc h (Point.mk (Point.x (read h start) + cos angle * length)
                      (Point.y (read h start) + sin angle * length)) in
  let '(s, h2) := Point_clone h1 start in
  Line_new h2 s e.

(** [this.normalize()], on the object itself. *)
Definition Point_normalize (h : store) (this : ref) : completion * store :=
  let '(c, p) := Point.normalize (read h this) in (c, write h this p).

(** [static fromPointAndDirection(point, direction, length) {
       const end = Point.add(
         point, Vector.multiply(direction.clone().normalize(), length))
       return new Line(point.clone(), end) }]; an error thrown by
    [normalize] leaves the call. *)
Definition Line_fromPointAndDirection (h : store) (point direction : ref)
           (length : R) : result (Line * store) :=
  let '(d, h1) := Point_clone h direction in
  match Point_normalize h1 d with
  | (Throws msg, _) => Error msg
  | (ReturnsThis, h2) =>
      let '(m, h3) := alloc h2 (Point.multiply_static (read h2 d) length) in
      let '(e, h4) := alloc h3 (Point.add_static (read h3 point) (read h3 m)) in
      let '(s, h5) := Point_clone h4 point in
      Ok (Line_new h5 s e)
  end.

(** *** Line: methods that mutate the end points *)

(** [this.subtract(point)] and [this.multiply(scalar)]. *)
Definition Point_subtract (h : store) (this point : ref) : store :=
  write h this (Point.subtract (read h this) (read h point)).

Definition Point_multiply (h : store) (this : ref) (scalar : R) : store :=
  write h this (Point.multiply (read h this) scalar).

(** [scale(factor, origin) {
       this.start.subtract(origin).multiply(factor).add(origin)
       this.end.subtract(origin).multiply(factor).add(origin) }]. *)
Definition Line_scale (h : store) (this : Line) (factor : R) (origin : ref)
  : store :=
  let h := Point_subtract h (start this) origin in
  let h := Point_multiply h (start this) factor in
  let h := Point_add h (start this) origin in
  let h := Point_subtract h (end_ this) origin in
  let h := Point_multiply h (end_ this) factor in
  Point_add h (end_ this) origin.

(** *** Rectangle: numbers only; its point accessors allocate *)

(** [topLeft() { return new Point(this.x, this.y) }]. *)
Definition Rectangle_topLeft (h : store) (this : Rectangle.t) : ref * store :=
  alloc h (Point.mk (Rectangle.x this) (Rectangle.y this)).

(** [topRight() { return new Point(this.right, this.y) }]. *)
Definition Rectangle_topRight (h : store) (this : Rectangle.t) : ref * store :=
  alloc h (Point.mk (Rectangle.right this) (Rectangle.y this)).

(** [bottomLeft() { return new Point(this.x, this.bottom) }]. *)
Definition Rectangle_bottomLeft (h : store) (this : Rectangle.t)
  : ref * store :=
  alloc h (Point.mk (Rectangle.x this) (Rectangle.bottom this)).

(** [bottomRight() { return new Point(this.right, this.bottom) }]. *)
Definition Rectangle_bottomRight (h : store) (this : Rectangle.t)
  : ref * store :=
  alloc h (Point.mk (Rectangle.right this) (Rectangle.bottom this)).

(** [center() { return new Point(this.centerX, this.centerY) }]. *)
Definition Rectangle_center (h : store) (this : Rectangle.t) : ref * store :=
  alloc h (Point.mk (Rectangle.x this + Rectangle.width this / 2)
                    (Rectangle.y this + Rectangle.height this / 2)).

(** The point accessors of [Rectangle]. *)
Definition Rectangle_accessors
  : list (store -> Rectangle.t -> ref * store) :=
  [Rectangle_topLeft; Rectangle_topRight; Rectangle_bottomLeft;
   Rectangle_bottomRight; Rectangle_center].

(** [r'] refers to a new object, and the objects of [h] are as they
    were. *)
Definition fresh_object (h h' : store) (r' : ref) : Prop :=
  ~ valid h r' /\ valid h' r' /\
  (forall r, valid h r -> valid h' r /\ read h' r = read h r).

(** A shape built from a caller's point is unaffected by later mutation of
    that point: the property, for [Circle]. *)
Definition Circle_unaliased : Prop :=
  forall (h : store) (p : ref) (radius : R) (q : Point.t),
    valid h p ->
    let '(c, h1) := Circle_new h p radius in
    read (write h1 p q) (center c) = read h1 (center c).

(** [r'] refers to a new object carrying the coordinates of [point], and
    the objects of [h] are as they were. *)
Definition independent_copy (h h' : store) (point r' : ref) : Prop :=
  ~ valid h r' /\ valid h' r' /\
  read h' r' = read h point /\
  (forall r, valid h r -> valid h' r /\ read h' r = read h r).

End Store.

(** ** The undo/redo store ([stores/history.store.ts]) *)

(** A command is a pair of effects on the application; the application's
    state is a value of type [World], and an effect is a function on it. *)
Module History.
Section WithWorld.
Variable World : Type.

Record Command : Type := mkCommand {
  execute : World -> World;
  undo_effect : World -> World
}.

Record State : Type := mkState {
  history : list Command;
  historyIndex : Z;
  canUndo : bool;
  canRedo : bool
}.

Definition initial : State := mkState [] (-1) false false.

(** [history.slice(0, end)]: a negative [end] counts from the end of the
    array, and the bound is clamped to the array. *)
Definition slice0 (l : list Command) (end_ : Z) : list Command :=
  let len := Z.of_nat (length l) in
  let final := if (end_ <? 0)%Z then Z.max (len + end_) 0 else Z.min end_ len in
  firstn (Z.to_nat final) l.

(** [history[i]]: [undefined] outside the array. *)
Definition item (l : list Command) (i : Z) : option Command :=
  if (i <? 0)%Z then None else nth_error l (Z.to_nat i).

Definition executeCommand (s : State) (w : World) (command : Command)
  : State * World :=
  let history := history s in
  let historyIndex := historyIndex s in
  let newHistory :=
    if (historyIndex <? Z.of_nat (length history) - 1)%Z
    then slice0 history (historyIndex + 1)
    else history in
  let w := execute command w in
  let updatedHistory := newHistory ++ [command] in
  let updatedIndex := (Z.of_nat (length updatedHistory) - 1)%Z in
  (mkState updatedHistory updatedIndex true
           (updatedIndex <? Z.of_nat (length updatedHistory) - 2)%Z,
   w).

(** [undo] and [redo] call a method of [history[..]], which throws when the
    element is [undefined]. *)
Definition undo (s : State) (w : World) : result (State * World) :=
  let history := history s in
  let historyIndex := historyIndex s in
  if (historyIndex >=? 0)%Z then
    match item history historyIndex with
    | None => Error "Cannot read properties of undefined (reading 'undo')"
    | Some command =>
        let w := undo_effect command w in
        Ok (mkState history (historyIndex - 1) (historyIndex >? 0)%Z true, w)
    end
  else Ok (s, w).

Definition redo (s : State) (w : World) : result (State * World) :=
  let history := history s in
  let historyIndex := historyIndex s in
  if (historyIndex + 1 <? Z.of_nat (length history))%Z then
    match item history (historyIndex + 1) with
    | None => Error "Cannot read properties of undefined (reading 'execute')"
    | Some command =>
        let w := execute command w in
        Ok (mkState history (historyIndex + 1) true
                    (historyIndex <? Z.of_nat (length history) - 2)%Z,
            w)
    end
  else Ok (s, w).

(** The calls a client can make, and a run of them. *)
Inductive action : Type :=
| ExecuteCommand (command : Command)
| Undo
| Redo.

Definition step (sw : State * World) (a : action) : result (State * World) :=
  match a with
  | ExecuteCommand command => Ok (executeCommand (fst sw) (snd sw) command)
  | Undo => undo (fst sw) (snd sw)
  | Redo => redo (fst sw) (snd sw)
  end.

Fixpoint run (sw : State * World) (actions : list action)
  : result (State * World) :=
  match actions with
  | [] => Ok sw
  | a :: rest =>
      match step sw a with
      | Error msg => Error msg
      | Ok sw' => run sw' rest
      end
  end.

(** The commands in effect: those up to [historyIndex]. *)
Definition applied (s : State) : list Command :=
  firstn (Z.to_nat (historyIndex s + 1)) (history s).

(** The index is within [-1, length), and the two flags say whether [undo]
    and [redo] have something to act on. *)
Definition consistent (s : State) : Prop :=
  (-1 <= historyIndex s < Z.of_nat (length (history s)))%Z /\
  canUndo s = (0 <=? historyIndex s)%Z /\
  canRedo s = (historyIndex s + 1 <? Z.of_nat (length (history s)))%Z.

(** The world obtained by executing commands in order. *)
Definition replay (w0 : World) (cs : list Command) : World :=
  fold_left (fun w c => execute c w) cs w0.

(** A command whose [undo] reverts its [execute]. *)
Definition reversible (c : Command) : Prop :=
  forall w, undo_effect c (execute c w) = w.

End WithWorld.
Arguments mkCommand {World} execute undo_effect.
Arguments execute {World} c w.
Arguments undo_effect {World} c w.
Arguments mkState {World} history historyIndex canUndo canRedo.
Arguments history {World} s.
Arguments historyIndex {World} s.
Arguments canUndo {World} s.
Arguments canRedo {World} s.
Arguments initial {World}.
Arguments executeCommand {World} s w command.
Arguments undo {World} s w.
Arguments redo {World} s w.
Arguments ExecuteCommand {World} command.
Arguments Undo {World}.
Arguments Redo {World}.
Arguments step {World} sw a.
Arguments run {World} sw actions.
Arguments applied {World} s.
Arguments consistent {World} s.
Arguments replay {World} w0 cs.
Arguments reversible {World} c.
End History.

(** * The kernel on IEEE 754 doubles *)

(** A TypeScript [number] is an IEEE 754 binary64 value.  Module [Double]
    embeds, on Rocq's primitive floats, the methods whose specification speaks
    of computed values.  The primitive floats are the same format with the
    same operations: [+ - * /] and the square root round to nearest, ties to
    even; a comparison with NaN is false; there are two zeros, equal under
    [===], and two infinities.  A decimal literal denotes the nearest double,
    as in JavaScript. *)
Module Double.

#[local] Set Warnings "-inexact-float".
Local Open Scope float_scope.

(** Tolerance used by the kernel's epsilon tests. *)
Definition EPS : float := 1e-10.

(** [a > b] and [a >= b]. *)
Definition gtb (a b : float) : bool := b <? a.
Definition geb (a b : float) : bool := b <=? a.

(** [Math.max] and [Math.min] of two numbers: NaN if either is NaN, and
    [-0] counts as below [+0]. *)
Definition Math_max (a b : float) : float :=
  if is_nan a || is_nan b then nan
  else if a <? b then b
  else if b <? a then a
  else if is_zero a && get_sign a then b
  else a.

Definition Math_min (a b : float) : float :=
  if is_nan a || is_nan b then nan
  else if a <? b then a
  else if b <? a then b
  else if is_zero a && negb (get_sign a) then b
  else a.

(** [Math.PI]. *)
Definition Math_PI : float := 3.141592653589793.

(** An array length, or a loop counter, as a number; array lengths are below
    2^32, where the conversion is exact. *)
Definition of_nat (n : nat) : float := of_uint63 (Uint63Axioms.of_Z (Z.of_nat n)).

(** The whole number a number is, if it is one; [-0] is the whole number 0. *)
Definition whole (v : float) : option Z :=
  match Prim2SF v with
  | S754_zero _ => Some 0%Z
  | S754_finite s m e =>
      let magnitude :=
        if (0 <=? e)%Z then Some (Zpos m * 2 ^ e)%Z
        else if (Zpos m mod 2 ^ (- e) =? 0)%Z then Some (Zpos m / 2 ^ (- e))%Z
        else None in
      match magnitude with
      | Some z => Some (if s then (- z)%Z else z)
      | None => None
      end
  | S754_infinity _ => None
  | S754_nan => None
  end.

(** A number that is not negative, truncated to a whole number (how [splice]
    reads its index). *)
Definition trunc (v : float) : Z :=
  match Prim2SF v with
  | S754_finite false m e =>
      if (0 <=? e)%Z then (Zpos m * 2 ^ e)%Z else (Zpos m / 2 ^ (- e))%Z
  | _ => 0%Z
  end.

(** The least whole number that is not below a positive number: how often
    the body of [for (let i = 0; i < v; i++)] runs.  It does not run for a
    bound that is NaN or not positive. *)
Definition ceil (v : float) : Z :=
  match Prim2SF v with
  | S754_finite false m e =>
      if (0 <=? e)%Z then (Zpos m * 2 ^ e)%Z
      else ((Zpos m + 2 ^ (- e) - 1) / 2 ^ (- e))%Z
  | _ => 0%Z
  end.

(** The greatest length of an array: the [push] that would pass it throws
    a [RangeError]. *)
Definition MAX_LENGTH : float := 4294967295.

(** ** Point *)

Module Point.

Record t : Type := mk { x : float; y : float }.

Definition zero : t := mk 0 0.

Definition set_x (this : t) (v : float) : t := mk v (y this).
Definition set_y (this : t) (v : float) : t := mk (x this) v.

(** Instance methods: the result is the receiver after the call. *)
Definition add (this point : t) : t :=
  let this := set_x this (x this + x point) in
  set_y this (y this + y point).

(** [divide]: the completion and the receiver after the call. *)
Definition divide (this : t) (scalar : float) : completion * t :=
  if scalar =? 0 then (Throws "Division by zero", this)
  else
    let this := set_x this (x this / scalar) in
    let this := set_y this (y this / scalar) in
    (ReturnsThis, this).

Definition length (this : t) : float :=
  PrimFloat.sqrt (x this * x this + y this * y this).

Definition normalize (this : t) : completion * t :=
  let length := length this in
  if length =? 0 then (ReturnsThis, this) else divide this length.

Definition clone (this : t) : t := mk (x this) (y this).

(** [tolerance] defaults to 1e-10. *)
Definition equals (this point : t) (tolerance : float) : bool :=
  (abs (x this - x point) <? tolerance) &&
  (abs (y this - y point) <? tolerance).

(** Static methods. *)
Definition divide_static (point : t) (scalar : float) : result t :=
  if scalar =? 0 then Error "Division by zero"
  else Ok (mk (x point / scalar) (y point / scalar)).

Definition distance (p1 p2 : t) : float :=
  let dx := x p2 - x p1 in
  let dy := y p2 - y p1 in
  PrimFloat.sqrt (dx * dx + dy * dy).

Definition distanceTo (this point : t) : float := distance this point.

End Point.

(** ** Rectangle *)

Module Rectangle.

Record t : Type := mk { x : float; y : float; width : float; height : float }.

Definition left (this : t) : float := x this.
Definition right (this : t) : float := x this + width this.
Definition top (this : t) : float := y this.
Definition bottom (this : t) : float := y this + height this.

Definition set_x (this : t) (v : float) : t :=
  mk v (y this) (width this) (height this).
Definition set_y (this : t) (v : float) : t :=
  mk (x this) v (width this) (height this).
Definition set_width (this : t) (v : float) : t :=
  mk (x this) (y this) v (height this).
Definition set_height (this : t) (v : float) : t :=
  mk (x this) (y this) (width this) v.

(** [normalize] mutates its receiver: the result is the receiver after the
    call. *)
Definition normalize (this : t) : t :=
  let this :=
    if width this <? 0 then
      let this := set_x this (x this + width this) in
      set_width this (- width this)
    else this in
  if height this <? 0 then
    let this := set_y this (y this + height this) in
    set_height this (- height this)
  else this.

Definition intersects (this rect : t) : bool :=
  negb (gtb (x rect) (right this) ||
        (right rect <? x this) ||
        gtb (y rect) (bottom this) ||
        (bottom rect <? y this)).

Definition intersection (this rect : t) : option t :=
  if negb (intersects this rect) then None
  else
    let x' := Math_max (x this) (x rect) in
    let y' := Math_max (y this) (y rect) in
    let right' := Math_min (right this) (right rect) in
    let bottom' := Math_min (bottom this) (bottom rect) in
    Some (mk x' y' (right' - x') (bottom' - y')).

End Rectangle.

(** ** Circle *)

Module Circle.

Record t : Type := mk { center : Point.t; radius : float }.

(** The quantity [fromThreePoints] computes in its local [D]. *)
Definition det (p1 p2 p3 : Point.t) : float :=
  2 * (Point.x p1 * (Point.y p2 - Point.y p3) +
       Point.x p2 * (Point.y p3 - Point.y p1) +
       Point.x p3 * (Point.y p1 - Point.y p2)).

Definition fromThreePoints (p1 p2 p3 : Point.t) : option t :=
  let D :=
    2 * (Point.x p1 * (Point.y p2 - Point.y p3) +
         Point.x p2 * (Point.y p3 - Point.y p1) +
         Point.x p3 * (Point.y p1 - Point.y p2)) in
  if abs D <? 1e-10 then None
  else
    let p1Sq := Point.x p1 * Point.x p1 + Point.y p1 * Point.y p1 in
    let p2Sq := Point.x p2 * Point.x p2 + Point.y p2 * Point.y p2 in
    let p3Sq := Point.x p3 * Point.x p3 + Point.y p3 * Point.y p3 in
    let centerX :=
      (p1Sq * (Point.y p2 - Point.y p3) +
       p2Sq * (Point.y p3 - Point.y p1) +
       p3Sq * (Point.y p1 - Point.y p2)) / D in
    let centerY :=
      (p1Sq * (Point.x p3 - Point.x p2) +
       p2Sq * (Point.x p1 - Point.x p3) +
       p3Sq * (Point.x p2 - Point.x p1)) / D in
    let center := Point.mk centerX centerY in
    let radius := Point.distanceTo center p1 in
    Some (mk center radius).

End Circle.

(** ** Line (segment) *)

Module Line.

Record t : Type := mk { start : Point.t; end_ : Point.t }.

(** The quantities [intersects] computes in its locals [denominator],
    [s] and [t]: the determinant of the 2x2 system and the two solved
    segment parameters. *)
Definition denominator (this line : t) : float :=
  let s1_x := Point.x (end_ this) - Point.x (start this) in
  let s1_y := Point.y (end_ this) - Point.y (start this) in
  let s2_x := Point.x (end_ line) - Point.x (start line) in
  let s2_y := Point.y (end_ line) - Point.y (start line) in
  (- s2_x) * s1_y + s1_x * s2_y.

Definition param_s (this line : t) : float :=
  let p0 := start this in
  let p2 := start line in
  let s1_x := Point.x (end_ this) - Point.x p0 in
  let s1_y := Point.y (end_ this) - Point.y p0 in
  ((- s1_y) * (Point.x p0 - Point.x p2) + s1_x * (Point.y p0 - Point.y p2))
  / denominator this line.

Definition param_t (this line : t) : float :=
  let p0 := start this in
  let p2 := start line in
  let s2_x := Point.x (end_ line) - Point.x p2 in
  let s2_y := Point.y (end_ line) - Point.y p2 in
  (s2_x * (Point.y p0 - Point.y p2) - s2_y * (Point.x p0 - Point.x p2))
  / denominator this line.

Definition intersects (this line : t) : option Point.t :=
  let p0 := start this in
  let p1 := end_ this in
  let p2 := start line in
  let p3 := end_ line in
  let s1_x := Point.x p1 - Point.x p0 in
  let s1_y := Point.y p1 - Point.y p0 in
  let s2_x := Point.x p3 - Point.x p2 in
  let s2_y := Point.y p3 - Point.y p2 in
  let denominator := (- s2_x) * s1_y + s1_x * s2_y in
  if abs denominator <? 1e-10 then None
  else
    let s :=
      ((- s1_y) * (Point.x p0 - Point.x p2) + s1_x * (Point.y p0 - Point.y p2))
      / denominator in
    let t :=
      (s2_x * (Point.y p0 - Point.y p2) - s2_y * (Point.x p0 - Point.x p2))
      / denominator in
    if geb s 0 && (s <=? 1) && geb t 0 && (t <=? 1)
    then Some (Point.mk (Point.x p0 + t * s1_x) (Point.y p0 + t * s1_y))
    else None.

End Line.

(** ** Array.prototype.sort *)

(** [sort] with a comparator, as a stable insertion sort: an element goes
    before the first element it compares below.  Every stable sort gives
    this order for a comparator that orders the elements consistently.  A
    comparator result that is NaN counts as 0. *)
Section Sort.
Variable A : Type.
Variable compareFn : A -> A -> float.

Fixpoint insert (a : A) (l : list A) : list A :=
  match l with
  | [] => [a]
  | b :: l' => if compareFn a b <? 0 then a :: b :: l' else b :: insert a l'
  end.

Definition sort (l : list A) : list A :=
  fold_left (fun acc a => insert a acc) l [].
End Sort.
Arguments insert {A} compareFn a l.
Arguments sort {A} compareFn l.

(** ** Polygon *)

Module Polygon.

Record t : Type := mk { vertices : list Point.t }.

(** [vs[i]]; every index the code uses is in range. *)
Definition at_ (vs : list Point.t) (i : nat) : Point.t := nth i vs Point.zero.

Definition new_ (vertices : list Point.t) : t := mk (map Point.clone vertices).

Definition vertexCount (this : t) : nat := length (vertices this).

Definition reverse (this : t) : t := mk (rev (vertices this)).

Definition isClosed (this : t) : bool :=
  let vs := vertices this in
  (2 <? length vs)%nat &&
  Point.equals (at_ vs 0) (at_ vs (length vs - 1)) 1e-10.

Definition close (this : t) : t :=
  let vs := vertices this in
  if (2 <? length vs)%nat && negb (isClosed this)
  then mk (vs ++ [Point.clone (at_ vs 0)])
  else this.

(** The accumulator [area] at the end of the loop of [area()]. *)
Definition shoelace (vs : list Point.t) : float :=
  let n := length vs in
  fold_left
    (fun area i =>
       let j := ((i + 1) mod n)%nat in
       let area := area + Point.x (at_ vs i) * Point.y (at_ vs j) in
       area - Point.x (at_ vs j) * Point.y (at_ vs i))
    (seq 0 n) 0.

Definition area (this : t) : float :=
  if (length (vertices this) <? 3)%nat then 0
  else abs (shoelace (vertices this)) / 2.

(** The three accumulators [cx], [cy], [signedArea] at the end of the loop
    of [centroid()]. *)
Definition centroid_loop (vs : list Point.t) : float * float * float :=
  let n := length vs in
  fold_left
    (fun '(cx, cy, signedArea) i =>
       let p1 := at_ vs i in
       let p2 := at_ vs ((i + 1) mod n)%nat in
       let crossProductTerm :=
         Point.x p1 * Point.y p2 - Point.x p2 * Point.y p1 in
       let signedArea := signedArea + crossProductTerm in
       let cx := cx + (Point.x p1 + Point.x p2) * crossProductTerm in
       let cy := cy + (Point.y p1 + Point.y p2) * crossProductTerm in
       (cx, cy, signedArea))
    (seq 0 n) (0, 0, 0).

Definition centroid (this : t) : result Point.t :=
  let vs := vertices this in
  if (length vs =? 0)%nat then Ok Point.zero
  else if (length vs <? 3)%nat then
    let '(sumX, sumY) :=
      fold_left (fun '(sumX, sumY) v => (sumX + Point.x v, sumY + Point.y v))
                vs (0, 0) in
    Ok (Point.mk (sumX / of_nat (length vs))
                 (sumY / of_nat (length vs)))
  else
    let '(cx, cy, signedArea) := centroid_loop vs in
    if abs signedArea <? 1e-10 then
      let sum :=
        fold_left (fun acc v => Point.add acc (Point.clone v)) vs Point.zero in
      Point.divide_static sum (of_nat (length vs))
    else
      let signedArea := signedArea / 2 in
      let cx := cx / (6 * signedArea) in
      let cy := cy / (6 * signedArea) in
      Ok (Point.mk cx cy).

(** Vertex access by index.  [vs[index]] is an element of the array when
    [index] is a whole number in range, and [undefined] for every other
    number, NaN included. *)
Definition element (vs : list Point.t) (index : float) : option Point.t :=
  match whole index with
  | Some z => if (0 <=? z)%Z then nth_error vs (Z.to_nat z) else None
  | None => None
  end.

(** [getVertex]; calling [clone] on [undefined] throws. *)
Definition getVertex (this : t) (index : float) : result (option Point.t) :=
  if (index <? 0) || geb index (of_nat (length (vertices this)))
  then Ok None
  else
    match element (vertices this) index with
    | Some v => Ok (Some (Point.clone v))
    | None => Error "Cannot read properties of undefined (reading 'clone')"
    end.

(** [splice(index, 1)] at an index in range. *)
Definition splice1 (vs : list Point.t) (i : nat) : list Point.t :=
  firstn i vs ++ skipn (S i) vs.

Definition removeVertex (this : t) (index : float) : t :=
  if geb index 0 && (index <? of_nat (length (vertices this)))
  then mk (splice1 (vertices this) (Z.to_nat (trunc index)))
  else this.

(** [vs[i] = p] at an index in range. *)
Definition assign (vs : list Point.t) (i : nat) (p : Point.t) : list Point.t :=
  firstn i vs ++ p :: skipn (S i) vs.

(** [setVertex]; assigning at a number that is not a whole number creates a
    property of the array object that is none of its elements, and the
    vertex list stays as it is. *)
Definition setVertex (this : t) (index : float) (point : Point.t) : t :=
  if geb index 0 && (index <? of_nat (length (vertices this)))
  then
    match whole index with
    | Some z => mk (assign (vertices this) (Z.to_nat z) (Point.clone point))
    | None => this
    end
  else this.

(** [regular], for the [Math.cos] and [Math.sin] of the platform.  The loop
    [for (let i = 0; i < sides; i++)] pushes one vertex for each whole number
    below [sides]; with more sides than an array can hold, a [push] throws. *)
Section Trigonometry.
Variables Math_cos Math_sin : float -> float.

Definition regular (center : Point.t) (radius sides : float) : result t :=
  if sides <? 3 then Error "Polygon must have at least 3 sides"
  else if MAX_LENGTH <? sides then Error "Invalid array length"
  else
    let angleStep := (2 * Math_PI) / sides in
    let vertices :=
      map (fun i =>
             let angle := of_nat i * angleStep in
             let x := Point.x center + radius * Math_cos angle in
             let y := Point.y center + radius * Math_sin angle in
             Point.mk x y)
          (seq 0 (Z.to_nat (ceil sides))) in
    let poly := new_ vertices in
    if (Z.of_nat (length vertices) =? 4294967295)%Z && negb (isClosed poly)
    then Error "Invalid array length"
    else Ok (close poly).
End Trigonometry.

(** *** Convex hull *)

Definition crossProduct (o a b : Point.t) : float :=
  (Point.x a - Point.x o) * (Point.y b - Point.y o) -
  (Point.y a - Point.y o) * (Point.x b - Point.x o).

(** The comparator handed to [sort]. *)
Definition compareFn (a b : Point.t) : float :=
  if Point.x a =? Point.x b then Point.y a - Point.y b
  else Point.x a - Point.x b.

(** The inner [while] loop: pop while the hull has two points and the last
    two make no left turn with [p].  Each iteration pops, so the number of
    iterations is bounded by the length of the hull, which is the fuel
    given by [hull_push]. *)
Fixpoint hull_while (fuel : nat) (hull : list Point.t) (p : Point.t)
  : list Point.t :=
  match fuel with
  | O => hull
  | S fuel' =>
      if (2 <=? length hull)%nat &&
         (crossProduct (at_ hull (length hull - 2))
                       (at_ hull (length hull - 1)) p <=? 0)
      then hull_while fuel' (removelast hull) p
      else hull
  end.

(** One iteration of the outer [for] loop. *)
Definition hull_push (hull : list Point.t) (p : Point.t) : list Point.t :=
  hull_while (length hull) hull p ++ [p].

Definition convexHull (points : list Point.t) : t :=
  if (length points <? 3)%nat then new_ points
  else
    let sortedPoints := sort compareFn (map Point.clone points) in
    let lowerHull := fold_left hull_push sortedPoints [] in
    let upperHull := fold_left hull_push (rev sortedPoints) [] in
    let lowerHull := removelast lowerHull in
    let upperHull := removelast upperHull in
    let hullVertices := lowerHull ++ upperHull in
    new_ hullVertices.

End Polygon.

End Double.

(** * Vocabulary of the specification *)

(** ** Intersection of polygons *)

Definition first_vertex (this : Polygon.t) : Point.t :=
  Polygon.at_ (Polygon.vertices this) 0.

(** Some edge of [p] intersects some edge of [q], in the sense of
    [Line.intersects]. *)
Definition edges_cross (p q : Polygon.t) : Prop :=
  exists e1 e2,
    In e1 (Polygon.getEdges p) /\ In e2 (Polygon.getEdges q) /\
    Line.intersects e1 e2 <> None.

(** [p] contains some vertex of [q], in the sense of [Polygon.contains]. *)
Definition contains_a_vertex_of (p q : Polygon.t) : Prop :=
  exists v, In v (Polygon.vertices q) /\ Polygon.contains p v = true.

(** The characterisation of [intersects] by any vertex of the other polygon. *)
Definition intersects_iff_any_vertex : Prop :=
  forall p q : Polygon.t,
    Polygon.vertices p <> [] -> Polygon.vertices q <> [] ->
    (Polygon.intersects p q = true <->
     edges_cross p q \/ contains_a_vertex_of p q \/ contains_a_vertex_of q p).

(** ** Concrete inputs *)

(** A triangle and a two-point polygon lying across its left edge; the
    second is 2e-11 long. *)
Definition tri : Polygon.t :=
  Polygon.mk [Point.mk 0 0; Point.mk 1 0; Point.mk 0 1].

Definition sliver : Polygon.t :=
  Polygon.mk [Point.mk (-1e-11) (1 / 2); Point.mk 1e-11 (1 / 2)].

(** ** Vertices of the polygons built by the static constructors *)

(** The points at the multiples of the angle step on the circle around
    [center], one for each whole number below [sides]. *)
Definition regular_vertices (center : Point.t) (radius sides : R)
  : list Point.t :=
  map (fun i =>
         Point.mk (Point.x center + radius * cos (INR i * (2 * PI / sides)))
                  (Point.y center + radius * sin (INR i * (2 * PI / sides))))
      (seq 0 (Z.to_nat (ceil sides))).

(** The corners of a rectangle, from [(x, y)] by way of [(x + width, y)]. *)
Definition corners (x y width height : R) : list Point.t :=
  [Point.mk x y; Point.mk (x + width) y;
   Point.mk (x + width) (y + height); Point.mk x (y + height)].

(** ** Loops of the polygon methods *)

(** The four running bounds [minX], [maxX], [minY], [maxY] of
    [boundingBox], extended by one vertex. *)
Definition bounds_step (acc : R * R * R * R) (v : Point.t) : R * R * R * R :=
  let '(minX, maxX, minY, maxY) := acc in
  (Rmin minX (Point.x v), Rmax maxX (Point.x v),
   Rmin minY (Point.y v), Rmax maxY (Point.y v)).

(** One iteration of the loop of [simplify]: the vertex at [i] is kept when
    it is farther than the tolerance from the segment between the last
    vertex kept and the vertex after it. *)
Definition simplify_step (effectiveVertices : list Point.t) (tolerance : R)
           (simplified : list Point.t) (i : nat) : list Point.t :=
  let prev := Polygon.at_ simplified (length simplified - 1) in
  let curr := Polygon.at_ effectiveVertices i in
  let next := Polygon.at_ effectiveVertices (i + 1) in
  let line := Line.mk prev next in
  let distance := Line.distanceToPoint line curr in
  if Rgtb distance tolerance
  then simplified ++ [Point.clone curr]
  else simplified.

(** ** Runs of the undo/redo store *)

(** An action whose command, if it carries one, is reversible. *)
Definition reversible_action {World : Type} (a : History.action World) : Prop :=
  match a with
  | History.ExecuteCommand command => History.reversible command
  | History.Undo => True
  | History.Redo => True
  end.

(** A counter as the application state, and the command that increments it. *)
Definition increment : History.Command nat := History.mkCommand S Nat.pred.

(** ** Doubles as exact numbers *)

(** The rational number a finite double is (0 for the others). *)
Definition exact (v : float) : Q :=
  match Prim2SF v with
  | S754_finite s m e =>
      ((if s then (-1) else 1) * inject_Z (Zpos m) * Qpower 2 e)%Q
  | _ => 0%Q
  end.

(** The cross product of [a - o] and [b - o], without rounding: positive for
    a left turn from [o -> a] to [o -> b], 0 for three points on a line. *)
Definition exact_cross (o a b : Double.Point.t) : Q :=
  ((exact (Double.Point.x a) - exact (Double.Point.x o)) *
   (exact (Double.Point.y b) - exact (Double.Point.y o)) -
   (exact (Double.Point.y a) - exact (Double.Point.y o)) *
   (exact (Double.Point.x b) - exact (Double.Point.x o)))%Q.

Definition collinear (a b c : Double.Point.t) : Prop :=
  (exact_cross a b c == 0)%Q.

(** [p] lies on the segment, strictly between its end points. *)
Definition strictly_inside (p : Double.Point.t) (l : Double.Line.t) : Prop :=
  collinear (Double.Line.start l) (Double.Line.end_ l) p /\
  (exact (Double.Point.x (Double.Line.start l)) < exact (Double.Point.x p)
   < exact (Double.Point.x (Double.Line.end_ l)))%Q.

(** ** Segment intersection on doubles *)

Definition in_unit_interval (u : float) : bool :=
  (0 <=? u)%float && (u <=? 1)%float.

(** The point [start + t * (end - start)] of a segment. *)
Definition segment_point (a : Double.Line.t) (t : float) : Double.Point.t :=
  Double.Point.mk
    (Double.Point.x (Double.Line.start a)
     + t * (Double.Point.x (Double.Line.end_ a)
            - Double.Point.x (Double.Line.start a)))%float
    (Double.Point.y (Double.Line.start a)
     + t * (Double.Point.y (Double.Line.end_ a)
            - Double.Point.y (Double.Line.start a)))%float.

(** Overlapping collinear segments: the four end points on one line, an end
    point of each strictly inside the other. *)
Definition overlapping_collinear (a b : Double.Line.t) : Prop :=
  collinear (Double.Line.start a) (Double.Line.end_ a) (Double.Line.start b) /\
  strictly_inside (Double.Line.end_ b) a /\
  strictly_inside (Double.Line.start a) b.

(** The statement that overlapping collinear segments always report no
    intersection. *)
Definition overlap_reports_none : Prop :=
  forall a b : Double.Line.t,
    overlapping_collinear a b -> Double.Line.intersects a b = None.

(** Two segments on the line y = 3x, the first from (0.75, 2.25) far out, the
    second from the origin to (1, 3). *)
Definition long_segment : Double.Line.t :=
  Double.Line.mk (Double.Point.mk 0.75 2.25)
                 (Double.Point.mk 9007199254740996 27021597764222988).

Definition short_segment : Double.Line.t :=
  Double.Line.mk (Double.Point.mk 0 0) (Double.Point.mk 1 3).

(** ** Circumcircle on doubles *)

(** The centre [fromThreePoints] computes. *)
Definition circumcentre (p1 p2 p3 : Double.Point.t) : Double.Point.t :=
  let p1Sq := (Double.Point.x p1 * Double.Point.x p1
               + Double.Point.y p1 * Double.Point.y p1)%float in
  let p2Sq := (Double.Point.x p2 * Double.Point.x p2
               + Double.Point.y p2 * Double.Point.y p2)%float in
  let p3Sq := (Double.Point.x p3 * Double.Point.x p3
               + Double.Point.y p3 * Double.Point.y p3)%float in
  Double.Point.mk
    ((p1Sq * (Double.Point.y p2 - Double.Point.y p3) +
      p2Sq * (Double.Point.y p3 - Double.Point.y p1) +
      p3Sq * (Double.Point.y p1 - Double.Point.y p2))
     / Double.Circle.det p1 p2 p3)%float
    ((p1Sq * (Double.Point.x p3 - Double.Point.x p2) +
      p2Sq * (Double.Point.x p1 - Double.Point.x p3) +
      p3Sq * (Double.Point.x p2 - Double.Point.x p1))
     / Double.Circle.det p1 p2 p3)%float.

(** The statement that the centre of a circle returned is at one distance,
    as computed by [Point.distance], from the three points. *)
Definition centre_equidistant : Prop :=
  forall (p1 p2 p3 : Double.Point.t) (c : Double.Circle.t),
    Double.Circle.fromThreePoints p1 p2 p3 = Some c ->
    Double.Point.distance (Double.Circle.center c) p1
    = Double.Point.distance (Double.Circle.center c) p2 /\
    Double.Point.distance (Double.Circle.center c) p1
    = Double.Point.distance (Double.Circle.center c) p3.

(** The square of the distance between two points, without rounding. *)
Definition exact_sq_distance (p q : Double.Point.t) : Q :=
  ((exact (Double.Point.x q) - exact (Double.Point.x p)) *
   (exact (Double.Point.x q) - exact (Double.Point.x p)) +
   (exact (Double.Point.y q) - exact (Double.Point.y p)) *
   (exact (Double.Point.y q) - exact (Double.Point.y p)))%Q.

(** The statement that three points on one line give no circle. *)
Definition collinear_gives_none : Prop :=
  forall p1 p2 p3 : Double.Point.t,
    collinear p1 p2 p3 -> Double.Circle.fromThreePoints p1 p2 p3 = None.

(** Three points on the line y = 7x. *)
Definition on_a_line : list Double.Point.t :=
  [Double.Point.mk 83.82893627031376 586.8025538921963;
   Double.Point.mk 1.4570755730119842 10.19952901108389;
   Double.Point.mk 512.0204379142715 3584.1430653999005].

(** ** Rectangles on doubles *)

(** Non-negative width and height. *)
Definition normalized (r : Double.Rectangle.t) : Prop :=
  (0 <=? Double.Rectangle.width r)%float = true /\
  (0 <=? Double.Rectangle.height r)%float = true.

(** Strict separation along an axis, on the computed edges. *)
Definition separated_x (a b : Double.Rectangle.t) : bool :=
  (Double.Rectangle.right a <? Double.Rectangle.left b)%float ||
  (Double.Rectangle.right b <? Double.Rectangle.left a)%float.

Definition separated_y (a b : Double.Rectangle.t) : bool :=
  (Double.Rectangle.bottom a <? Double.Rectangle.top b)%float ||
  (Double.Rectangle.bottom b <? Double.Rectangle.top a)%float.

(** The statement that the right and bottom edges of the overlap of two
    normalized rectangles are the lesser of the two right and bottom edges. *)
Definition overlap_edges_are_minima : Prop :=
  forall (a b r : Double.Rectangle.t),
    normalized a -> normalized b ->
    Double.Rectangle.intersection a b = Some r ->
    Double.Rectangle.right r
    = Double.Math_min (Double.Rectangle.right a) (Double.Rectangle.right b) /\
    Double.Rectangle.bottom r
    = Double.Math_min (Double.Rectangle.bottom a) (Double.Rectangle.bottom b).

(** The right edge of a rectangle without rounding. *)
Definition exact_right (r : Double.Rectangle.t) : Q :=
  (exact (Double.Rectangle.x r) + exact (Double.Rectangle.width r))%Q.

(** The statement that rectangles strictly separated along the x-axis do not
    intersect. *)
Definition separated_do_not_intersect : Prop :=
  forall a b : Double.Rectangle.t,
    normalized a -> normalized b ->
    (exact_right a < exact (Double.Rectangle.x b))%Q ->
    Double.Rectangle.intersects a b = false.

(** ** Sums around the vertex cycle, on doubles *)

(** A running value carried along the edges [p -> q] of an open path, taken
    in order. *)
Fixpoint along_edges {A : Type}
         (step : A -> Double.Point.t -> Double.Point.t -> A)
         (acc : A) (vs : list Double.Point.t) : A :=
  match vs with
  | p :: (q :: _) as tl => along_edges step (step acc p q) tl
  | _ => acc
  end.

(** The same around the vertex cycle, the last edge going from the last
    vertex back to the first. *)
Definition around_cycle {A : Type}
           (step : A -> Double.Point.t -> Double.Point.t -> A)
           (acc : A) (vs : list Double.Point.t) : A :=
  match vs with
  | [] => acc
  | p :: _ => along_edges step acc (vs ++ [p])
  end.

(** The shoelace sum as it is accumulated: each edge adds [x_i * y_{i+1}],
    then takes away [x_{i+1} * y_i]. *)
Definition shoelace_sum (vs : list Double.Point.t) : float :=
  around_cycle
    (fun acc p q =>
       acc + Double.Point.x p * Double.Point.y q
       - Double.Point.x q * Double.Point.y p)%float
    0%float vs.

(** The statement that the area does not depend on the winding. *)
Definition area_ignores_winding : Prop :=
  forall this : Double.Polygon.t,
    Double.Polygon.area (Double.Polygon.reverse this) = Double.Polygon.area this.

(** The values of [Math.cos] and [Math.sin] at the multiples of a quarter
    turn, each the double nearest to the cosine or sine of its argument. *)
Definition quarter_turns (Math_cos Math_sin : float -> float) : Prop :=
  Math_cos 0%float = 1%float /\
  Math_sin 0%float = 0%float /\
  Math_cos 1.5707963267948966%float = 6.123233995736766e-17%float /\
  Math_sin 1.5707963267948966%float = 1%float /\
  Math_cos 3.141592653589793%float = (-1)%float /\
  Math_sin 3.141592653589793%float = 1.2246467991473532e-16%float /\
  Math_cos 4.71238898038469%float = (-1.8369701987210297e-16)%float /\
  Math_sin 4.71238898038469%float = (-1)%float.

(** A cosine and a sine that are given at the multiples of a quarter turn
    only. *)
Definition cos_quarters (a : float) : float :=
  if (a =? 0)%float then 1%float
  else if (a =? 1.5707963267948966)%float then 6.123233995736766e-17%float
  else if (a =? 3.141592653589793)%float then (-1)%float
  else if (a =? 4.71238898038469)%float then (-1.8369701987210297e-16)%float
  else nan.

Definition sin_quarters (a : float) : float :=
  if (a =? 0)%float then 0%float
  else if (a =? 1.5707963267948966)%float then 1%float
  else if (a =? 3.141592653589793)%float then 1.2246467991473532e-16%float
  else if (a =? 4.71238898038469)%float then (-1)%float
  else nan.

(** The vertices of [Polygon.regular((0,0), 1, 4)]: four points next to the
    axes, and the first one again, appended by [close()]. *)
Definition unit_diamond : list Double.Point.t :=
  [Double.Point.mk 1 0;
   Double.Point.mk 6.123233995736766e-17 1;
   Double.Point.mk (-1) 1.2246467991473532e-16;
   Double.Point.mk (-1.8369701987210297e-16) (-1);
   Double.Point.mk 1 0].

(** A triangle whose area depends on its winding. *)
Definition lopsided : Double.Polygon.t :=
  Double.Polygon.mk
    [Double.Point.mk 0 0.1; Double.Point.mk 0.1 0.1; Double.Point.mk 0.2 1].

(** ** Centroids on doubles *)

(** The term one edge [p -> q] contributes to the signed sum. *)
Definition cross2 (p q : Double.Point.t) : float :=
  (Double.Point.x p * Double.Point.y q
   - Double.Point.x q * Double.Point.y p)%float.

(** The sum of a term [g p q] over the edges [p -> q] around the cycle,
    accumulated from 0 in the order of the edges. *)
Definition edge_sum (g : Double.Point.t -> Double.Point.t -> float)
           (vs : list Double.Point.t) : float :=
  around_cycle (fun acc p q => acc + g p q)%float 0%float vs.

(** The shoelace signed sum of [centroid()]. *)
Definition cross_sum (vs : list Double.Point.t) : float := edge_sum cross2 vs.

(** The sum of a coordinate over the vertices, accumulated from 0 in the
    order of the vertices. *)
Definition sum_of (f : Double.Point.t -> float) (vs : list Double.Point.t)
  : float :=
  fold_left (fun acc v => acc + f v)%float vs 0%float.

(** The arithmetic mean of the vertices; for no vertices it is 0/0. *)
Definition arithmetic_mean (vs : list Double.Point.t) : Double.Point.t :=
  Double.Point.mk
    (sum_of Double.Point.x vs / Double.of_nat (length vs))%float
    (sum_of Double.Point.y vs / Double.of_nat (length vs))%float.

(** The term of the edge [p -> q] in the centroid sums. *)
Definition weighted (f : Double.Point.t -> float) (p q : Double.Point.t)
  : float :=
  ((f p + f q) * cross2 p q)%float.

(** The centroid weighted by signed area. *)
Definition area_weighted_centroid (vs : list Double.Point.t) : Double.Point.t :=
  let signedArea := (cross_sum vs / 2)%float in
  Double.Point.mk
    (edge_sum (weighted Double.Point.x) vs / (6 * signedArea))%float
    (edge_sum (weighted Double.Point.y) vs / (6 * signedArea))%float.

(** The statement of the fallback to the mean, for every polygon with fewer
    than 3 vertices or a signed sum below the tolerance. *)
Definition centroid_falls_back_to_mean : Prop :=
  forall this : Double.Polygon.t,
    (length (Double.Polygon.vertices this) < 3)%nat \/
    (abs (cross_sum (Double.Polygon.vertices this)) <? Double.EPS)%float = true ->
    Double.Polygon.centroid this
    = Ok (arithmetic_mean (Double.Polygon.vertices this)).

(** The statement of the fallback to the mean for vertices on one line. *)
Definition collinear_centroid_is_mean : Prop :=
  forall p1 p2 p3 : Double.Point.t,
    collinear p1 p2 p3 ->
    Double.Polygon.centroid (Double.Polygon.mk [p1; p2; p3])
    = Ok (arithmetic_mean [p1; p2; p3]).

(** Three points of the line y = x + 1. *)
Definition on_a_diagonal : list Double.Point.t :=
  [Double.Point.mk 1920.3 1921.3;
   Double.Point.mk 1080.7 1081.7;
   Double.Point.mk 1280.1 1281.1].

(** ** The monotone chain on doubles *)

(** The order the comparator of [convexHull] puts on two points, [a] before
    [b]: [a] compares below [b], or [b] does not compare below [a]. *)
Definition not_after (a b : Double.Point.t) : Prop :=
  (Double.Polygon.compareFn a b <? 0)%float = true \/
  (Double.Polygon.compareFn b a <? 0)%float = false.

(** Pop the last chain point while the last two chain points make no left
    turn with the candidate [p].  The chain is held as a stack, its last
    point first. *)
Fixpoint chain_pop (stack : list Double.Point.t) (p : Double.Point.t)
  : list Double.Point.t :=
  match stack with
  | b :: (a :: _) as rest =>
      if (Double.Polygon.crossProduct a b p <=? 0)%float
      then chain_pop rest p else stack
  | _ => stack
  end.

Definition chain_step (stack : list Double.Point.t) (p : Double.Point.t)
  : list Double.Point.t :=
  p :: chain_pop stack p.

(** The chain built from the points taken in the given order. *)
Definition chain (pts : list Double.Point.t) : list Double.Point.t :=
  rev (fold_left chain_step pts []).

(** Andrew's monotone chain: the lower chain from the sorted points, the
    upper chain from the sorted points in reverse, concatenated without the
    last point of each. *)
Definition monotone_chain (pts : list Double.Point.t) : list Double.Point.t :=
  let sorted := Double.sort Double.Polygon.compareFn pts in
  removelast (chain sorted) ++ removelast (chain (rev sorted)).

(** A left turn at [b] on the way from [a] to [c], as the code tests it: the
    computed cross product is not [<= 0]. *)
Definition turns_left (a b c : Double.Point.t) : Prop :=
  (Double.Polygon.crossProduct a b c <=? 0)%float = false.

(** [P a b c] holds of every three successive points of the path. *)
Fixpoint on_triples (P : Double.Point.t -> Double.Point.t -> Double.Point.t -> Prop)
         (vs : list Double.Point.t) : Prop :=
  match vs with
  | a :: tl =>
      match tl with
      | b :: c :: _ => P a b c /\ on_triples P tl
      | _ => True
      end
  | [] => True
  end.

(** The same on a stack, read from its top. *)
Definition stack_turns (st : list Double.Point.t) : Prop :=
  on_triples (fun c b a => turns_left a b c) st.

(** Counter-clockwise order of the vertices of a convex polygon: a left
    turn, without rounding, at every vertex of the cycle. *)
Definition counter_clockwise (vs : list Double.Point.t) : Prop :=
  forall i : nat,
    (i < length vs)%nat ->
    (0 < exact_cross (Double.Polygon.at_ vs i)
                     (Double.Polygon.at_ vs ((i + 1) mod length vs))
                     (Double.Polygon.at_ vs ((i + 2) mod length vs)))%Q.

(** The statement that a hull of 3 or more vertices is ordered
    counter-clockwise. *)
Definition hull_is_counter_clockwise : Prop :=
  forall points : list Double.Point.t,
    (3 <= length (Double.Polygon.vertices (Double.Polygon.convexHull points)))%nat ->
    counter_clockwise (Double.Polygon.vertices (Double.Polygon.convexHull points)).

Definition five_points : list Double.Point.t :=
  [Double.Point.mk 0 0; Double.Point.mk 1 1; Double.Point.mk 0 1;
   Double.Point.mk 1 0; Double.Point.mk 0.5 0.5].

(** Two points of the diagonal and a third point close to it. *)
Definition near_diagonal : list Double.Point.t :=
  [Double.Point.mk 12 12; Double.Point.mk 24 24;
   Double.Point.mk 0.5000000000000053 0.5000000000000046].

(** * Properties *)

(** ** Comparisons *)

Lemma Rltb_true (a b : R) : Rltb a b = true <-> a < b.
Proof. unfold Rltb; destruct (Rlt_dec a b); split; intros; congruence || lra. Qed.

Lemma Rltb_false (a b : R) : Rltb a b = false <-> ~ a < b.
Proof. unfold Rltb; destruct (Rlt_dec a b); split; intros; congruence || tauto. Qed.

Lemma Rleb_true (a b : R) : Rleb a b = true <-> a <= b.
Proof. unfold Rleb; destruct (Rle_dec a b); split; intros; congruence || lra. Qed.

Lemma Rleb_false (a b : R) : Rleb a b = false <-> ~ a <= b.
Proof. unfold Rleb; destruct (Rle_dec a b); split; intros; congruence || tauto. Qed.

Lemma Rgtb_true (a b : R) : Rgtb a b = true <-> a > b.
Proof. unfold Rgtb; rewrite Rltb_true; lra. Qed.

Lemma Rgeb_true (a b : R) : Rgeb a b = true <-> a >= b.
Proof. unfold Rgeb; rewrite Rleb_true; lra. Qed.

Lemma Reqb_true (a b : R) : Reqb a b = true <-> a = b.
Proof. unfold Reqb; destruct (Req_dec_T a b); split; intros; congruence. Qed.

Lemma Reqb_false (a b : R) : Reqb a b = false <-> a <> b.
Proof. unfold Reqb; destruct (Req_dec_T a b); split; intros; congruence. Qed.

Lemma floor_IZR (z : Z) : floor (IZR z) = z.
Proof. unfold floor. symmetry. apply Int_part_spec. lra. Qed.

Lemma EPS_pos : 0 < EPS.
Proof. unfold EPS; lra. Qed.

Lemma Rgtb_false (a b : R) : Rgtb a b = false <-> ~ a > b.
Proof. unfold Rgtb; rewrite Rltb_false; lra. Qed.

(** Settle an inequality between concrete numbers, absolute values
    included. *)
Ltac R_side :=
  unfold EPS, Rabs in *;
  repeat match goal with
    | |- context [Rcase_abs ?a] => destruct (Rcase_abs a)
    end;
  lra.

(** Replace a comparison of concrete numbers by its truth value. *)
Ltac eval_with c lem_true lem_false :=
  first [ replace c with true by (symmetry; apply lem_true; R_side)
        | replace c with false by (symmetry; apply lem_false; R_side) ].

Ltac eval_gt :=
  repeat match goal with
    | |- context [Rgtb ?a ?b] => eval_with (Rgtb a b) Rgtb_true Rgtb_false
    end.

Ltac eval_lt :=
  repeat match goal with
    | |- context [Rltb ?a ?b] => eval_with (Rltb a b) Rltb_true Rltb_false
    end.

Lemma clone_eq (p : Point.t) : Point.clone p = p.
Proof. destruct p; reflexivity. Qed.

Lemma map_clone (l : list Point.t) : map Point.clone l = l.
Proof. induction l as [|p l IH]; simpl; [|rewrite clone_eq, IH]; reflexivity. Qed.

(** ** Comparisons of doubles *)

Lemma SFcompare_antisym (x y : spec_float) :
  SFcompare y x =
  match SFcompare x y with Some c => Some (CompOpp c) | None => None end.
Proof.
  destruct x as [sx|sx| |sx mx ex], y as [sy|sy| |sy my ey]; simpl;
    try reflexivity;
    try (destruct sx; reflexivity); try (destruct sy; reflexivity);
    try (destruct sx, sy; reflexivity).
  assert (H : Pos.compare_cont Eq my mx = CompOpp (Pos.compare_cont Eq mx my))
    by (rewrite Pos.compare_cont_antisym; reflexivity).
  destruct sx, sy; try reflexivity;
    rewrite (Z.compare_antisym ex ey), H;
    destruct (ex ?= ey)%Z; simpl; try reflexivity;
    rewrite CompOpp_involutive; reflexivity.
Qed.

Lemma ltb_leb_false (x y : float) :
  (x <? y)%float = true -> (y <=? x)%float = false.
Proof.
  rewrite ltb_spec, leb_spec. unfold SFltb, SFleb.
  rewrite (SFcompare_antisym (Prim2SF x) (Prim2SF y)).
  destruct (SFcompare (Prim2SF x) (Prim2SF y)) as [[| |]|];
    simpl; congruence.
Qed.

Lemma leb_ltb_false (x y : float) :
  (x <=? y)%float = true -> (y <? x)%float = false.
Proof.
  rewrite ltb_spec, leb_spec. unfold SFltb, SFleb.
  rewrite (SFcompare_antisym (Prim2SF x) (Prim2SF y)).
  destruct (SFcompare (Prim2SF x) (Prim2SF y)) as [[| |]|];
    simpl; congruence.
Qed.

Lemma SFcompare_refl (x : spec_float) :
  SFcompare x x = Some Eq \/ SFcompare x x = None.
Proof.
  destruct x as [s|s| |s m e]; simpl; auto.
  - destruct s; auto.
  - left. destruct s; rewrite Z.compare_refl;
      change (Pos.compare_cont Eq m m) with (m ?= m)%positive;
      rewrite Pos.compare_refl; reflexivity.
Qed.

Lemma ltb_irrefl (x : float) : (x <? x)%float = false.
Proof.
  rewrite ltb_spec. unfold SFltb.
  destruct (SFcompare_refl (Prim2SF x)) as [E|E]; rewrite E; reflexivity.
Qed.

Lemma SFcompare_nan_r (x : spec_float) : SFcompare x S754_nan = None.
Proof. destruct x; reflexivity. Qed.

Lemma Prim2SF_nan : Prim2SF nan = S754_nan.
Proof. reflexivity. Qed.

Lemma leb_nan_r (x : float) : (x <=? nan)%float = false.
Proof. rewrite leb_spec, Prim2SF_nan. unfold SFleb. rewrite SFcompare_nan_r. reflexivity. Qed.

(** ** Array lengths as doubles *)

Lemma digits2_pos_lower (p : positive) :
  (2 ^ (Zpos (digits2_pos p) - 1) <= Zpos p)%Z.
Proof.
  induction p as [p IH|p IH|]; cbn [digits2_pos].
  - rewrite Pos2Z.inj_succ. replace (Z.succ (Zpos (digits2_pos p)) - 1)%Z
      with (Z.succ (Zpos (digits2_pos p) - 1))%Z by lia.
    rewrite Z.pow_succ_r by lia. lia.
  - rewrite Pos2Z.inj_succ. replace (Z.succ (Zpos (digits2_pos p)) - 1)%Z
      with (Z.succ (Zpos (digits2_pos p) - 1))%Z by lia.
    rewrite Z.pow_succ_r by lia. lia.
  - simpl. lia.
Qed.

Lemma digits2_pos_iter (p k : positive) :
  digits2_pos (Pos.iter xO p k) = (digits2_pos p + k)%positive.
Proof.
  induction k as [|k IH] using Pos.peano_ind.
  - simpl. lia.
  - rewrite Pos.iter_succ. cbn [digits2_pos]. rewrite IH. lia.
Qed.

Lemma binary_round_aux_exact (sx : bool) (mz : positive) (ez : Z) :
  Zpos (digits2_pos mz) = 53%Z -> (-1074 <= ez <= 971)%Z ->
  binary_round_aux prec emax sx (Zpos mz) ez loc_Exact = S754_finite sx mz ez.
Proof.
  intros Hd He.
  unfold binary_round_aux, shr_fexp, fexp, Zdigits2, SpecFloat.emin, prec, emax.
  rewrite Hd.
  replace (Z.max (53 + ez - 53) (3 - 1024 - 53) - ez)%Z with 0%Z by lia.
  cbn [shr shr_record_of_loc shr_m loc_of_shr_record round_nearest_even Zdigits2].
  rewrite Hd.
  replace (Z.max (53 + ez - 53) (3 - 1024 - 53) - ez)%Z with 0%Z by lia.
  cbn [shr shr_record_of_loc shr_m].
  replace (ez <=? 1024 - 53)%Z with true by (symmetry; apply Z.leb_le; lia).
  reflexivity.
Qed.

Lemma binary_normalize_small (p : positive) :
  (Zpos p < 2 ^ 53)%Z ->
  exists m e, binary_normalize prec emax (Zpos p) 0 false = S754_finite false m e.
Proof.
  intros Hp. cbn [binary_normalize]. unfold binary_round.
  pose proof (digits2_pos_lower p) as Hl.
  assert (Hd : (Zpos (digits2_pos p) <= 53)%Z).
  { destruct (Z_le_gt_dec (Zpos (digits2_pos p)) 53) as [H|H]; [exact H|].
    exfalso.
    assert (2 ^ 53 <= 2 ^ (Zpos (digits2_pos p) - 1))%Z
      by (apply Z.pow_le_mono_r; lia).
    lia. }
  unfold shl_align, fexp, SpecFloat.emin, prec, emax.
  replace (Z.max (Zpos (digits2_pos p) + 0 - 53) (3 - 1024 - 53) - 0)%Z
    with (Zpos (digits2_pos p) - 53)%Z by lia.
  replace (Z.max (Zpos (digits2_pos p) + 0 - 53) (3 - 1024 - 53))%Z
    with (Zpos (digits2_pos p) - 53)%Z by lia.
  destruct (Zpos (digits2_pos p) - 53)%Z as [|k|k] eqn:E.
  - exists p, 0%Z. apply (binary_round_aux_exact false p 0); lia.
  - lia.
  - exists (Pos.iter xO p k), (Z.neg k).
    apply (binary_round_aux_exact false (Pos.iter xO p k) (Z.neg k)).
    + rewrite digits2_pos_iter. lia.
    + lia.
Qed.

Lemma of_nat_nonzero (n : nat) :
  (0 < n)%nat -> (Z.of_nat n < 2 ^ 53)%Z ->
  (Double.of_nat n =? 0)%float = false.
Proof.
  intros Hn Hb. unfold Double.of_nat.
  rewrite FloatAxioms.eqb_spec, FloatAxioms.of_uint63_spec.
  rewrite Uint63.of_Z_spec.
  rewrite Z.mod_small
    by (split; [lia|]; apply Z.lt_trans with (2 ^ 53)%Z; [exact Hb|reflexivity]).
  destruct (Z.of_nat n) as [|p|p] eqn:E; try lia.
  destruct (binary_normalize_small p Hb) as [m [e H]].
  rewrite H. reflexivity.
Qed.

(** ** Point.divide *)

Section PointDivide.
Variables (p : Point.t) (s : R).

Lemma divide_zero :
  s = 0 ->
  Point.divide p s = (Throws "Division by zero", p) /\
  Point.divide_static p s = Error "Division by zero".
Proof.
  intros ->. unfold Point.divide, Point.divide_static.
  assert (E : Reqb 0 0 = true) by (apply Reqb_true; reflexivity).
  rewrite E. split; reflexivity.
Qed.

Lemma divide_nonzero :
  s <> 0 ->
  Point.divide p s = (ReturnsThis, Point.mk (Point.x p / s) (Point.y p / s)) /\
  Point.divide_static p s = Ok (Point.mk (Point.x p / s) (Point.y p / s)).
Proof.
  intros Hs. unfold Point.divide, Point.divide_static.
  apply Reqb_false in Hs. rewrite Hs. split; reflexivity.
Qed.
End PointDivide.

(** C6.  [Point.divide], as the mutating instance method and as the static
    function, throws the division-by-zero error exactly when the scalar is 0,
    and then leaves the receiver as it was; for any other scalar it yields
    the point [(p.x / s, p.y / s)] (the instance method as the new state of
    its receiver, which it returns).  So a zero divisor never produces
    coordinates at all. *)
Theorem divide_fails_exactly_on_zero (p : Point.t) (s : R) :
  (s = 0 ->
     Point.divide p s = (Throws "Division by zero", p) /\
     Point.divide_static p s = Error "Division by zero") /\
  (s <> 0 ->
     Point.divide p s = (ReturnsThis, Point.mk (Point.x p / s) (Point.y p / s)) /\
     Point.divide_static p s = Ok (Point.mk (Point.x p / s) (Point.y p / s))) /\
  ((exists msg, fst (Point.divide p s) = Throws msg) <-> s = 0) /\
  ((exists msg, Point.divide_static p s = Error msg) <-> s = 0).
Proof.
  split; [apply divide_zero|]. split; [apply divide_nonzero|].
  destruct (Req_dec_T s 0) as [E|N].
  - destruct (divide_zero p s E) as [H1 H2]. rewrite H1, H2.
    split; split; intros; try assumption; eexists; reflexivity.
  - destruct (divide_nonzero p s N) as [H1 H2]. rewrite H1, H2.
    split; split; intros H; try contradiction; destruct H as [m H]; discriminate.
Qed.

Lemma divide_fails_exactly_on_zero_witness :
  Point.divide (Point.mk 6 8) 2 = (ReturnsThis, Point.mk (6 / 2) (8 / 2)) /\
  Point.divide (Point.mk 6 8) 0 = (Throws "Division by zero", Point.mk 6 8).
Proof.
  split.
  - apply (proj1 (proj2 (divide_fails_exactly_on_zero (Point.mk 6 8) 2))). lra.
  - apply (proj1 (divide_fails_exactly_on_zero (Point.mk 6 8) 0)). reflexivity.
Defined.

(** ** Line.intersects *)

Section LineIntersects.
Variables a b : Line.t.

Lemma intersects_small_determinant :
  Rabs (Line.denominator a b) < EPS -> Line.intersects a b = None.
Proof.
  intros H. unfold Line.intersects. fold (Line.denominator a b).
  apply Rltb_true in H. unfold Line.denominator in *. rewrite H. reflexivity.
Qed.

End LineIntersects.

(** ** Folds over the indices of an array *)

Lemma fold_left_shift {A : Type} (f : A -> nat -> A) (l : list nat) (acc : A) :
  fold_left f (map S l) acc = fold_left (fun a i => f a (S i)) l acc.
Proof. revert acc. induction l as [|i l IH]; intros acc; simpl; auto. Qed.

Lemma fold_left_ext_in {A B : Type} (f g : A -> B -> A) (l : list B) :
  (forall b a, In b l -> f a b = g a b) ->
  forall acc, fold_left f l acc = fold_left g l acc.
Proof.
  induction l as [|b l IH]; intros H acc; [reflexivity|].
  simpl. rewrite H by (left; reflexivity).
  apply IH. intros b' a Hin. apply H. right. exact Hin.
Qed.

(** ** Line.intersects on doubles *)

Section DoubleLineIntersects.
Variables a b : Double.Line.t.

Lemma double_intersects_small_determinant :
  (abs (Double.Line.denominator a b) <? Double.EPS)%float = true ->
  Double.Line.intersects a b = None.
Proof.
  intros H. unfold Double.Line.intersects.
  unfold Double.Line.denominator, Double.EPS in H. rewrite H. reflexivity.
Qed.

Lemma double_intersects_inside :
  (abs (Double.Line.denominator a b) <? Double.EPS)%float = false ->
  in_unit_interval (Double.Line.param_s a b)
  && in_unit_interval (Double.Line.param_t a b) = true ->
  Double.Line.intersects a b
  = Some (segment_point a (Double.Line.param_t a b)).
Proof.
  intros H Hin. unfold Double.Line.intersects.
  unfold Double.Line.denominator, Double.EPS in H. rewrite H.
  unfold in_unit_interval, Double.Line.param_s, Double.Line.param_t,
    Double.Line.denominator in Hin.
  unfold Double.geb. rewrite <- !andb_assoc. rewrite <- !andb_assoc in Hin.
  rewrite Hin. reflexivity.
Qed.

Lemma double_intersects_outside :
  (abs (Double.Line.denominator a b) <? Double.EPS)%float = false ->
  in_unit_interval (Double.Line.param_s a b)
  && in_unit_interval (Double.Line.param_t a b) = false ->
  Double.Line.intersects a b = None.
Proof.
  intros H Hin. unfold Double.Line.intersects.
  unfold Double.Line.denominator, Double.EPS in H. rewrite H.
  unfold in_unit_interval, Double.Line.param_s, Double.Line.param_t,
    Double.Line.denominator in Hin.
  unfold Double.geb. rewrite <- !andb_assoc. rewrite <- !andb_assoc in Hin.
  rewrite Hin. reflexivity.
Qed.
End DoubleLineIntersects.

Lemma long_short_overlap : overlapping_collinear long_segment short_segment.
Proof.
  unfold overlapping_collinear, strictly_inside, collinear.
  repeat split; vm_compute; reflexivity.
Qed.




(** ** Circle.fromThreePoints on doubles *)

Section DoubleCircumcircle.
Variables p1 p2 p3 : Double.Point.t.

Lemma double_fromThreePoints_none :
  Double.Circle.fromThreePoints p1 p2 p3 = None <->
  (abs (Double.Circle.det p1 p2 p3) <? Double.EPS)%float = true.
Proof.
  unfold Double.Circle.fromThreePoints, Double.Circle.det, Double.EPS.
  destruct (abs _ <? _)%float; split; intros; congruence.
Qed.

Lemma double_fromThreePoints_some (c : Double.Circle.t) :
  Double.Circle.fromThreePoints p1 p2 p3 = Some c ->
  Double.Circle.center c = circumcentre p1 p2 p3 /\
  Double.Circle.radius c = Double.Point.distance (Double.Circle.center c) p1.
Proof.
  unfold Double.Circle.fromThreePoints.
  destruct (abs _ <? _)%float; [discriminate|].
  intros [= <-]. split; reflexivity.
Qed.
End DoubleCircumcircle.




(** ** Rectangle.intersects and Rectangle.intersection on doubles *)

Section DoubleRectangleIntersection.
Variables a b : Double.Rectangle.t.

Lemma double_intersects_separated :
  Double.Rectangle.intersects a b = negb (separated_x a b || separated_y a b).
Proof.
  unfold Double.Rectangle.intersects, separated_x, separated_y, Double.gtb,
    Double.Rectangle.left, Double.Rectangle.top.
  f_equal. rewrite !orb_assoc. reflexivity.
Qed.

Lemma double_intersection_none :
  Double.Rectangle.intersection a b = None <->
  Double.Rectangle.intersects a b = false.
Proof.
  unfold Double.Rectangle.intersection.
  destruct (Double.Rectangle.intersects a b); simpl; split; intros; congruence.
Qed.

Lemma double_intersection_some :
  Double.Rectangle.intersects a b = true ->
  exists r, Double.Rectangle.intersection a b = Some r /\
    Double.Rectangle.left r
    = Double.Math_max (Double.Rectangle.x a) (Double.Rectangle.x b) /\
    Double.Rectangle.top r
    = Double.Math_max (Double.Rectangle.y a) (Double.Rectangle.y b) /\
    Double.Rectangle.width r
    = (Double.Math_min (Double.Rectangle.right a) (Double.Rectangle.right b)
       - Double.Rectangle.left r)%float /\
    Double.Rectangle.height r
    = (Double.Math_min (Double.Rectangle.bottom a) (Double.Rectangle.bottom b)
       - Double.Rectangle.top r)%float.
Proof.
  intros H. unfold Double.Rectangle.intersection. rewrite H. simpl.
  eexists. split; [reflexivity|]. repeat split.
Qed.

End DoubleRectangleIntersection.




(** ** Loops over the edges of a polygon, on doubles *)

Lemma double_clone_eq (p : Double.Point.t) : Double.Point.clone p = p.
Proof. destruct p; reflexivity. Qed.

Lemma double_map_clone (l : list Double.Point.t) :
  map Double.Point.clone l = l.
Proof.
  induction l as [|p l IH]; simpl; [|rewrite double_clone_eq, IH]; reflexivity.
Qed.

(** A loop over the indices [i] of the array, updating a running value by the
    edge from [vs[i]] to [vs[(i + 1) % n]], carries it around the cycle. *)
Section DoubleEdgeLoop.
Context {A : Type}.
Variable step : A -> Double.Point.t -> Double.Point.t -> A.

Lemma fold_along_edges (w : list Double.Point.t) :
  forall acc : A,
    fold_left (fun a i => step a (Double.Polygon.at_ w i)
                               (Double.Polygon.at_ w (S i)))
              (seq 0 (length w - 1)) acc
    = along_edges step acc w.
Proof.
  induction w as [|p w IH]; intros acc; [reflexivity|].
  destruct w as [|q w]; [reflexivity|].
  replace (length (p :: q :: w) - 1)%nat with (S (length (q :: w) - 1))
    by (simpl; lia).
  rewrite <- cons_seq, <- seq_shift. cbn [fold_left].
  rewrite fold_left_shift.
  change (fold_left
            (fun a i => step a (Double.Polygon.at_ (q :: w) i)
                               (Double.Polygon.at_ (q :: w) (S i)))
            (seq 0 (length (q :: w) - 1))
            (step acc p q)
          = along_edges step (step acc p q) (q :: w)).
  apply IH.
Qed.

Lemma double_wrap_index (vs : list Double.Point.t) (p : Double.Point.t)
      (i : nat) :
  hd Double.Point.zero vs = p -> (i < length vs)%nat ->
  Double.Polygon.at_ (vs ++ [p]) i = Double.Polygon.at_ vs i /\
  Double.Polygon.at_ (vs ++ [p]) (S i)
  = Double.Polygon.at_ vs ((i + 1) mod length vs).
Proof.
  intros Hp Hi. unfold Double.Polygon.at_. split; [apply app_nth1; lia|].
  destruct (Nat.eq_dec (S i) (length vs)) as [E|E].
  - replace ((i + 1) mod length vs)%nat with 0%nat
      by (replace (i + 1)%nat with (length vs) by lia;
          symmetry; apply Nat.Div0.mod_same).
    rewrite app_nth2 by lia. replace (S i - length vs)%nat with 0%nat by lia.
    destruct vs; simpl in *; congruence.
  - rewrite Nat.mod_small by lia. rewrite app_nth1 by lia. f_equal. lia.
Qed.

Lemma loop_around_cycle (vs : list Double.Point.t) (acc : A) :
  fold_left (fun a i => step a (Double.Polygon.at_ vs i)
                             (Double.Polygon.at_ vs ((i + 1) mod length vs)))
            (seq 0 (length vs)) acc
  = around_cycle step acc vs.
Proof.
  destruct vs as [|p l]; [reflexivity|].
  unfold around_cycle. set (vs := p :: l).
  rewrite <- fold_along_edges.
  rewrite length_app, Nat.add_sub.
  apply fold_left_ext_in.
  intros i a Hi. apply in_seq in Hi.
  destruct (double_wrap_index vs p i eq_refl) as [E1 E2]; [lia|].
  rewrite E1, E2. reflexivity.
Qed.
End DoubleEdgeLoop.

Lemma shoelace_is_shoelace_sum (vs : list Double.Point.t) :
  Double.Polygon.shoelace vs = shoelace_sum vs.
Proof.
  unfold Double.Polygon.shoelace, shoelace_sum.
  rewrite <- loop_around_cycle. reflexivity.
Qed.

(** ** Polygon.area on doubles *)

Lemma double_area_small (this : Double.Polygon.t) :
  (length (Double.Polygon.vertices this) < 3)%nat ->
  Double.Polygon.area this = 0%float.
Proof.
  intros H. unfold Double.Polygon.area. apply Nat.ltb_lt in H. rewrite H.
  reflexivity.
Qed.

Lemma double_area_shoelace (this : Double.Polygon.t) :
  (3 <= length (Double.Polygon.vertices this))%nat ->
  Double.Polygon.area this
  = (abs (shoelace_sum (Double.Polygon.vertices this)) / 2)%float.
Proof.
  intros H. unfold Double.Polygon.area.
  replace (length (Double.Polygon.vertices this) <? 3)%nat with false
    by (symmetry; apply Nat.ltb_ge; exact H).
  rewrite shoelace_is_shoelace_sum. reflexivity.
Qed.

Lemma double_regular_4 (Math_cos Math_sin : float -> float) :
  quarter_turns Math_cos Math_sin ->
  Double.Polygon.regular Math_cos Math_sin (Double.Point.mk 0 0) 1 4
  = Ok (Double.Polygon.mk unit_diamond).
Proof.
  intros (C0 & S0 & C1 & S1 & C2 & S2 & C3 & S3).
  unfold Double.Polygon.regular.
  change (4 <? 3)%float with false.
  change (Double.MAX_LENGTH <? 4)%float with false. cbv iota.
  change (Z.to_nat (Double.ceil 4)) with 4%nat. cbv zeta.
  change (seq 0 4) with [0; 1; 2; 3]%nat. cbn [map].
  change (Double.of_nat 0 * (2 * Double.Math_PI / 4))%float with 0%float.
  change (Double.of_nat 1 * (2 * Double.Math_PI / 4))%float
    with 1.5707963267948966%float.
  change (Double.of_nat 2 * (2 * Double.Math_PI / 4))%float
    with 3.141592653589793%float.
  change (Double.of_nat 3 * (2 * Double.Math_PI / 4))%float
    with 4.71238898038469%float.
  rewrite C0, S0, C1, S1, C2, S2, C3, S3.
  vm_compute. reflexivity.
Qed.

Lemma quarter_turns_table : quarter_turns cos_quarters sin_quarters.
Proof. repeat split; vm_compute; reflexivity. Qed.




(** ** Polygon.centroid on doubles *)

Lemma double_fold_sums (vs : list Double.Point.t) :
  forall ax ay,
    fold_left (fun '(sumX, sumY) v =>
                 (sumX + Double.Point.x v, sumY + Double.Point.y v)%float)
              vs (ax, ay)
    = (fold_left (fun acc v => acc + Double.Point.x v)%float vs ax,
       fold_left (fun acc v => acc + Double.Point.y v)%float vs ay).
Proof.
  induction vs as [|v vs IH]; intros ax ay; simpl; [reflexivity|apply IH].
Qed.

Lemma double_fold_add (vs : list Double.Point.t) :
  forall acc,
    fold_left (fun acc v => Double.Point.add acc (Double.Point.clone v)) vs acc
    = Double.Point.mk
        (fold_left (fun a v => a + Double.Point.x v)%float vs
                   (Double.Point.x acc))
        (fold_left (fun a v => a + Double.Point.y v)%float vs
                   (Double.Point.y acc)).
Proof.
  induction vs as [|v vs IH]; intros acc; simpl.
  - destruct acc; reflexivity.
  - rewrite IH. reflexivity.
Qed.

Lemma along_edges_triple
      (f1 f2 f3 : float -> Double.Point.t -> Double.Point.t -> float)
      (vs : list Double.Point.t) :
  forall a b c,
    along_edges (fun '(x, y, z) p q => (f1 x p q, f2 y p q, f3 z p q))
                (a, b, c) vs
    = (along_edges f1 a vs, along_edges f2 b vs, along_edges f3 c vs).
Proof.
  induction vs as [|p vs IH]; intros a b c; [reflexivity|].
  destruct vs as [|q vs]; [reflexivity|].
  change (along_edges (fun '(x, y, z) p q => (f1 x p q, f2 y p q, f3 z p q))
                      (f1 a p q, f2 b p q, f3 c p q) (q :: vs)
          = (along_edges f1 (f1 a p q) (q :: vs),
             along_edges f2 (f2 b p q) (q :: vs),
             along_edges f3 (f3 c p q) (q :: vs))).
  apply IH.
Qed.

Lemma centroid_loop_sums (vs : list Double.Point.t) :
  Double.Polygon.centroid_loop vs
  = (edge_sum (weighted Double.Point.x) vs,
     edge_sum (weighted Double.Point.y) vs,
     cross_sum vs).
Proof.
  unfold Double.Polygon.centroid_loop, cross_sum, edge_sum.
  destruct vs as [|v0 l]; [reflexivity|].
  unfold around_cycle.
  rewrite <- (along_edges_triple
                (fun a p q => a + weighted Double.Point.x p q)%float
                (fun a p q => a + weighted Double.Point.y p q)%float
                (fun a p q => a + cross2 p q)%float).
  change (along_edges ?f ?a ((v0 :: l) ++ [v0]))
    with (around_cycle f a (v0 :: l)).
  rewrite <- loop_around_cycle.
  apply fold_left_ext_in. intros i [[cx cy] sa] _. reflexivity.
Qed.

Section DoubleCentroid.
Variable this : Double.Polygon.t.
Let vs := Double.Polygon.vertices this.

Lemma double_centroid_empty :
  vs = [] -> Double.Polygon.centroid this = Ok Double.Point.zero.
Proof. unfold vs, Double.Polygon.centroid. intros ->. reflexivity. Qed.

Lemma double_centroid_few :
  vs <> [] -> (length vs < 3)%nat ->
  Double.Polygon.centroid this = Ok (arithmetic_mean vs).
Proof.
  intros Hne H. unfold Double.Polygon.centroid. fold vs.
  replace (length vs =? 0)%nat with false
    by (symmetry; apply Nat.eqb_neq; destruct vs; [contradiction|simpl; lia]).
  replace (length vs <? 3)%nat with true by (symmetry; apply Nat.ltb_lt; exact H).
  rewrite double_fold_sums. reflexivity.
Qed.

Lemma double_centroid_flat :
  (3 <= length vs)%nat -> (Z.of_nat (length vs) < 2 ^ 32)%Z ->
  (abs (cross_sum vs) <? Double.EPS)%float = true ->
  Double.Polygon.centroid this = Ok (arithmetic_mean vs).
Proof.
  intros H3 Hb H. unfold Double.Polygon.centroid. fold vs.
  replace (length vs =? 0)%nat with false by (symmetry; apply Nat.eqb_neq; lia).
  replace (length vs <? 3)%nat with false by (symmetry; apply Nat.ltb_ge; lia).
  rewrite centroid_loop_sums. unfold Double.EPS in H. rewrite H.
  rewrite double_fold_add. unfold Double.Point.divide_static.
  rewrite of_nat_nonzero by lia. reflexivity.
Qed.

Lemma double_centroid_weighted :
  (3 <= length vs)%nat ->
  (abs (cross_sum vs) <? Double.EPS)%float = false ->
  Double.Polygon.centroid this = Ok (area_weighted_centroid vs).
Proof.
  intros H3 H. unfold Double.Polygon.centroid. fold vs.
  replace (length vs =? 0)%nat with false by (symmetry; apply Nat.eqb_neq; lia).
  replace (length vs <? 3)%nat with false by (symmetry; apply Nat.ltb_ge; lia).
  rewrite centroid_loop_sums. unfold Double.EPS in H. rewrite H. reflexivity.
Qed.
End DoubleCentroid.

(** C8, as stated, fails.  At the polygon without vertices, which has
    fewer than 3 vertices: [centroid()] returns the origin, and the mean of
    no vertices is 0/0.  And on doubles at the three points (1920.3, 1921.3),
    (1080.7, 1081.7), (1280.1, 1281.1) of the line y = x + 1: their signed sum
    is computed as 1.16e-10, above the tolerance, and the weighted formula
    gives (994.67, 996), far from their mean. *)
Lemma centroid_mean_fails_on_empty :
  ~ centroid_falls_back_to_mean /\ ~ collinear_centroid_is_mean.
Proof.
  split.
  - intros H. specialize (H (Double.Polygon.mk [])).
    assert (E : Double.Polygon.centroid (Double.Polygon.mk [])
                = Ok (arithmetic_mean [])) by (apply H; left; simpl; lia).
    apply (f_equal (fun r => match r with
                             | Ok p => Prim2SF (Double.Point.x p)
                             | Error _ => S754_nan
                             end)) in E.
    vm_compute in E. discriminate E.
  - intros H.
    assert (C : collinear (nth 0 on_a_diagonal Double.Point.zero)
                          (nth 1 on_a_diagonal Double.Point.zero)
                          (nth 2 on_a_diagonal Double.Point.zero))
      by (vm_compute; reflexivity).
    specialize (H _ _ _ C).
    apply (f_equal (fun r => match r with
                             | Ok p => Prim2SF (Double.Point.x p)
                             | Error _ => S754_nan
                             end)) in H.
    vm_compute in H. discriminate H.
Qed.

(** C8, amended.  For the polygon without vertices [centroid()] returns the
    origin.  For a polygon with 1 or 2 vertices, and for one with at least 3
    vertices whose signed sum, as computed, has magnitude below 1e-10, it
    returns the arithmetic mean of the vertices, as computed.  For every
    other polygon with at least 3 vertices it returns the signed-area
    weighted centroid, [cx] being the sum over the edges of
    [(x_i + x_{i+1}) * (x_i*y_{i+1} - x_{i+1}*y_i)] divided by 6 times the
    signed area (half the signed sum), and likewise [cy], as computed. *)
Theorem centroid_spec :
  (forall this : Double.Polygon.t,
     Double.Polygon.vertices this = [] ->
     Double.Polygon.centroid this = Ok Double.Point.zero) /\
  (forall this : Double.Polygon.t,
     Double.Polygon.vertices this <> [] ->
     (length (Double.Polygon.vertices this) < 3)%nat ->
     Double.Polygon.centroid this
     = Ok (arithmetic_mean (Double.Polygon.vertices this))) /\
  (forall this : Double.Polygon.t,
     (3 <= length (Double.Polygon.vertices this))%nat ->
     (Z.of_nat (length (Double.Polygon.vertices this)) < 2 ^ 32)%Z ->
     (abs (cross_sum (Double.Polygon.vertices this)) <? Double.EPS)%float = true ->
     Double.Polygon.centroid this
     = Ok (arithmetic_mean (Double.Polygon.vertices this))) /\
  (forall this : Double.Polygon.t,
     (3 <= length (Double.Polygon.vertices this))%nat ->
     (abs (cross_sum (Double.Polygon.vertices this)) <? Double.EPS)%float = false ->
     Double.Polygon.centroid this
     = Ok (area_weighted_centroid (Double.Polygon.vertices this))).
Proof.
  split; [exact double_centroid_empty|]. split; [exact double_centroid_few|].
  split; [exact double_centroid_flat|exact double_centroid_weighted].
Qed.

(** The segment (0,0)-(2,4) has centroid (1,2); the triangle (0,0), (6,0),
    (0,6) has centroid (2,2). *)
Lemma centroid_spec_witness :
  Double.Polygon.centroid
    (Double.Polygon.mk [Double.Point.mk 0 0; Double.Point.mk 2 4])
  = Ok (arithmetic_mean [Double.Point.mk 0 0; Double.Point.mk 2 4]) /\
  Double.Polygon.centroid
    (Double.Polygon.mk [Double.Point.mk 0 0; Double.Point.mk 6 0;
                        Double.Point.mk 0 6])
  = Ok (area_weighted_centroid [Double.Point.mk 0 0; Double.Point.mk 6 0;
                                Double.Point.mk 0 6]).
Proof.
  split.
  - apply (proj1 (proj2 centroid_spec)
             (Double.Polygon.mk [Double.Point.mk 0 0; Double.Point.mk 2 4])).
    + discriminate.
    + simpl. lia.
  - apply (proj2 (proj2 (proj2 centroid_spec))
             (Double.Polygon.mk [Double.Point.mk 0 0; Double.Point.mk 6 0;
                                 Double.Point.mk 0 6])).
    + simpl. lia.
    + vm_compute. reflexivity.
Defined.

(** ** Polygon.convexHull on doubles *)

(** *** The sort *)

Section DoubleSort.
Context {A : Type}.
Variable compareFn : A -> A -> float.

Let before (a b : A) : Prop :=
  (compareFn a b <? 0)%float = true \/ (compareFn b a <? 0)%float = false.

Lemma double_insert_perm (a : A) (l : list A) :
  Permutation (a :: l) (Double.insert compareFn a l).
Proof.
  induction l as [|b l IH]; simpl; [reflexivity|].
  destruct (compareFn a b <? 0)%float; [reflexivity|].
  rewrite perm_swap. apply perm_skip. exact IH.
Qed.

Lemma double_sort_fold_perm (l : list A) :
  forall acc,
    Permutation (l ++ acc)
                (fold_left (fun acc a => Double.insert compareFn a acc) l acc).
Proof.
  induction l as [|a l IH]; intros acc; simpl; [reflexivity|].
  rewrite <- IH. rewrite <- double_insert_perm. apply Permutation_middle.
Qed.

Lemma double_sort_perm (l : list A) : Permutation l (Double.sort compareFn l).
Proof.
  unfold Double.sort. rewrite <- double_sort_fold_perm, app_nil_r. reflexivity.
Qed.

Lemma double_insert_hd (a : A) (l : list A) (c : A) :
  before c a -> HdRel before c l -> HdRel before c (Double.insert compareFn a l).
Proof.
  intros Hca Hl. destruct l as [|b l]; simpl.
  - constructor. exact Hca.
  - destruct (compareFn a b <? 0)%float; constructor.
    + exact Hca.
    + inversion Hl. assumption.
Qed.

Lemma double_insert_sorted (a : A) (l : list A) :
  Sorted before l -> Sorted before (Double.insert compareFn a l).
Proof.
  induction l as [|b l IH]; intros Hs; simpl.
  - repeat constructor.
  - inversion Hs as [|? ? Hs' Hh]; subst.
    destruct (compareFn a b <? 0)%float eqn:E.
    + constructor; [exact Hs|constructor; left; exact E].
    + constructor.
      * apply IH. exact Hs'.
      * apply double_insert_hd; [right; exact E|exact Hh].
Qed.

Lemma double_sort_sorted (l : list A) : Sorted before (Double.sort compareFn l).
Proof.
  unfold Double.sort.
  assert (H : forall acc, Sorted before acc ->
            Sorted before
              (fold_left (fun acc a => Double.insert compareFn a acc) l acc)).
  { induction l as [|a l' IH]; intros acc Hs; simpl; [exact Hs|].
    apply IH, double_insert_sorted, Hs. }
  apply H. constructor.
Qed.
End DoubleSort.

(** *** The loops of the source build the chains *)

Lemma double_at_rev_last (st : list Double.Point.t) (b : Double.Point.t) :
  Double.Polygon.at_ (rev (b :: st)) (length (rev (b :: st)) - 1) = b.
Proof.
  unfold Double.Polygon.at_. simpl rev. rewrite length_app. simpl length.
  rewrite app_nth2 by lia.
  replace (length (rev st) + 1 - 1 - length (rev st))%nat with 0%nat by lia.
  reflexivity.
Qed.

Lemma double_at_rev_before_last (st : list Double.Point.t)
      (a b : Double.Point.t) :
  Double.Polygon.at_ (rev (b :: a :: st)) (length (rev (b :: a :: st)) - 2) = a.
Proof.
  unfold Double.Polygon.at_. simpl rev. rewrite !length_app. simpl length.
  rewrite app_nth1 by (rewrite length_app; simpl; lia).
  rewrite app_nth2 by lia.
  replace (length (rev st) + 1 + 1 - 2 - length (rev st))%nat with 0%nat by lia.
  reflexivity.
Qed.

(** With fuel for as many iterations as the hull is long, the [while] loop
    runs to its exit and leaves the popped chain. *)
Lemma double_hull_while_chain_pop (p : Double.Point.t) (fuel : nat) :
  forall st : list Double.Point.t,
    (length st <= fuel)%nat ->
    Double.Polygon.hull_while fuel (rev st) p = rev (chain_pop st p).
Proof.
  induction fuel as [|fuel IH]; intros st Hlen.
  - destruct st; [reflexivity|simpl in Hlen; lia].
  - destruct st as [|b [|a st]]; [reflexivity|reflexivity|].
    cbn [Double.Polygon.hull_while chain_pop].
    rewrite double_at_rev_last, double_at_rev_before_last.
    replace (2 <=? length (rev (b :: a :: st)))%nat with true
      by (symmetry; apply Nat.leb_le; rewrite length_rev; simpl; lia).
    cbn [andb].
    destruct (Double.Polygon.crossProduct a b p <=? 0)%float; [|reflexivity].
    change (rev (b :: a :: st)) with (rev (a :: st) ++ [b]).
    rewrite removelast_last. apply IH. simpl in *. lia.
Qed.

Lemma double_hull_push_chain_step (st : list Double.Point.t)
      (p : Double.Point.t) :
  Double.Polygon.hull_push (rev st) p = rev (chain_step st p).
Proof.
  unfold Double.Polygon.hull_push, chain_step.
  rewrite double_hull_while_chain_pop by (rewrite length_rev; lia).
  reflexivity.
Qed.

Lemma double_hull_loop_chain (pts : list Double.Point.t) :
  forall st : list Double.Point.t,
    fold_left Double.Polygon.hull_push pts (rev st)
    = rev (fold_left chain_step pts st).
Proof.
  induction pts as [|p pts IH]; intros st; [reflexivity|].
  cbn [fold_left]. rewrite double_hull_push_chain_step. apply IH.
Qed.

Lemma double_convexHull_small (points : list Double.Point.t) :
  (length points < 3)%nat ->
  Double.Polygon.vertices (Double.Polygon.convexHull points) = points.
Proof.
  intros H. unfold Double.Polygon.convexHull, Double.Polygon.new_.
  apply Nat.ltb_lt in H. rewrite H. apply double_map_clone.
Qed.

Lemma double_convexHull_monotone_chain (points : list Double.Point.t) :
  (3 <= length points)%nat ->
  Double.Polygon.vertices (Double.Polygon.convexHull points)
  = monotone_chain points.
Proof.
  intros H.
  unfold Double.Polygon.convexHull, Double.Polygon.new_, monotone_chain, chain.
  replace (length points <? 3)%nat with false
    by (symmetry; apply Nat.ltb_ge; lia).
  cbn [Double.Polygon.vertices]. rewrite !double_map_clone.
  rewrite <- !double_hull_loop_chain. reflexivity.
Qed.

(** *** The points of a chain *)

Lemma chain_pop_cons (b a : Double.Point.t) (st : list Double.Point.t)
      (p : Double.Point.t) :
  chain_pop (b :: a :: st) p
  = if (Double.Polygon.crossProduct a b p <=? 0)%float
    then chain_pop (a :: st) p else b :: a :: st.
Proof. reflexivity. Qed.

Lemma chain_pop_incl (p : Double.Point.t) (st : list Double.Point.t) :
  incl (chain_pop st p) st.
Proof.
  induction st as [|b st IH]; [apply incl_refl|].
  destruct st as [|a st]; [apply incl_refl|].
  rewrite chain_pop_cons.
  destruct (Double.Polygon.crossProduct a b p <=? 0)%float;
    [apply incl_tl; exact IH|apply incl_refl].
Qed.

Lemma chain_fold_incl (pts : list Double.Point.t) :
  forall st, incl (fold_left chain_step pts st) (pts ++ st).
Proof.
  induction pts as [|p pts IH]; intros st; [apply incl_refl|].
  cbn [fold_left]. intros x Hx. apply IH in Hx.
  apply in_app_or in Hx. destruct Hx as [Hx|Hx].
  - right. apply in_or_app. left. exact Hx.
  - destruct Hx as [<-|Hx]; [left; reflexivity|].
    right. apply in_or_app. right. apply (chain_pop_incl p st). exact Hx.
Qed.

Lemma chain_incl (pts : list Double.Point.t) : incl (chain pts) pts.
Proof.
  unfold chain. intros x Hx. apply in_rev in Hx.
  apply chain_fold_incl in Hx. rewrite app_nil_r in Hx. exact Hx.
Qed.

Lemma double_removelast_incl (l : list Double.Point.t) : incl (removelast l) l.
Proof.
  destruct l as [|a l]; [apply incl_refl|].
  rewrite (app_removelast_last Double.Point.zero (l := a :: l)) at 2
    by discriminate.
  apply incl_appl, incl_refl.
Qed.

Lemma monotone_chain_incl (pts : list Double.Point.t) :
  incl (monotone_chain pts) pts.
Proof.
  unfold monotone_chain. intros x Hx.
  apply (Permutation_in x
           (Permutation_sym (double_sort_perm Double.Polygon.compareFn pts))).
  apply in_app_or in Hx.
  destruct Hx as [Hx|Hx]; apply double_removelast_incl in Hx;
    apply chain_incl in Hx; [exact Hx|].
  apply in_rev. exact Hx.
Qed.

(** *** Every chain turns left, as computed *)

(** The loop exits at a left turn. *)
Lemma chain_pop_exit (p : Double.Point.t) (st : list Double.Point.t) :
  match chain_pop st p with
  | b :: a :: _ => turns_left a b p
  | _ => True
  end.
Proof.
  induction st as [|b st IH]; [exact I|].
  destruct st as [|a st]; [exact I|].
  rewrite chain_pop_cons.
  destruct (Double.Polygon.crossProduct a b p <=? 0)%float eqn:E; [exact IH|].
  exact E.
Qed.

Lemma stack_turns_tail (b : Double.Point.t) (st : list Double.Point.t) :
  stack_turns (b :: st) -> stack_turns st.
Proof.
  unfold stack_turns. destruct st as [|a [|z st]]; simpl; tauto.
Qed.

Lemma chain_pop_turns (p : Double.Point.t) (st : list Double.Point.t) :
  stack_turns st -> stack_turns (chain_pop st p).
Proof.
  induction st as [|b st IH]; intros H; [exact H|].
  destruct st as [|a st]; [exact H|].
  rewrite chain_pop_cons.
  destruct (Double.Polygon.crossProduct a b p <=? 0)%float; [|exact H].
  apply IH. apply (stack_turns_tail b). exact H.
Qed.

Lemma chain_step_turns (p : Double.Point.t) (st : list Double.Point.t) :
  stack_turns st -> stack_turns (chain_step st p).
Proof.
  intros H. unfold chain_step.
  pose proof (chain_pop_exit p st) as E.
  pose proof (chain_pop_turns p st H) as T.
  unfold stack_turns in *.
  destruct (chain_pop st p) as [|b [|a r]]; simpl; try exact I.
  split; [exact E|exact T].
Qed.

Lemma chain_fold_turns (pts : list Double.Point.t) :
  forall st, stack_turns st -> stack_turns (fold_left chain_step pts st).
Proof.
  induction pts as [|p pts IH]; intros st H; [exact H|].
  cbn [fold_left]. apply IH, chain_step_turns, H.
Qed.

Lemma on_triples_snoc
      (P : Double.Point.t -> Double.Point.t -> Double.Point.t -> Prop)
      (a b c : Double.Point.t) (m : list Double.Point.t) :
  on_triples P (m ++ [a; b]) -> P a b c -> on_triples P (m ++ [a; b; c]).
Proof.
  intros H Hc. induction m as [|x m IH].
  - simpl. tauto.
  - destruct m as [|y [|z m]].
    + simpl in *. tauto.
    + simpl in *. tauto.
    + change (on_triples P (x :: y :: z :: (m ++ [a; b; c]))).
      change (on_triples P (x :: y :: z :: (m ++ [a; b]))) in H.
      cbn [on_triples] in H. destruct H as [H1 H2].
      cbn [on_triples]. split; [exact H1|].
      apply IH. exact H2.
Qed.

Lemma on_triples_rev
      (P : Double.Point.t -> Double.Point.t -> Double.Point.t -> Prop)
      (l : list Double.Point.t) :
  on_triples (fun c b a => P a b c) l -> on_triples P (rev l).
Proof.
  induction l as [|c l IH]; intros H; [exact I|].
  destruct l as [|b [|a r]].
  - exact I.
  - exact I.
  - cbn [on_triples] in H. destruct H as [H1 H2].
    specialize (IH H2).
    change (rev (c :: b :: a :: r)) with (((rev r ++ [a]) ++ [b]) ++ [c]).
    change (rev (b :: a :: r)) with ((rev r ++ [a]) ++ [b]) in IH.
    rewrite <- !app_assoc. rewrite <- !app_assoc in IH.
    apply on_triples_snoc; assumption.
Qed.

Lemma chain_turns_left (pts : list Double.Point.t) :
  on_triples turns_left (chain pts).
Proof.
  unfold chain. apply on_triples_rev.
  apply (chain_fold_turns pts []). exact I.
Qed.

(** *** The example and the counterexample *)

Lemma double_convexHull_five_points :
  Double.Polygon.vertices (Double.Polygon.convexHull five_points)
  = [Double.Point.mk 0 0; Double.Point.mk 1 0;
     Double.Point.mk 1 1; Double.Point.mk 0 1].
Proof. vm_compute. reflexivity. Qed.

Lemma corners_counter_clockwise :
  counter_clockwise [Double.Point.mk 0 0; Double.Point.mk 1 0;
                     Double.Point.mk 1 1; Double.Point.mk 0 1].
Proof.
  intros i Hi.
  do 4 (destruct i as [|i]; [vm_compute; reflexivity|]).
  simpl in Hi. lia.
Qed.




(** ** Polygon: vertex access by index, on doubles *)

Section DoubleVertexIndex.
Variable this : Double.Polygon.t.
Variable index : float.
Hypothesis out_of_range :
  (index <? 0)%float = true \/
  (Double.of_nat (Double.Polygon.vertexCount this) <=? index)%float = true.

Lemma double_getVertex_out_of_range :
  Double.Polygon.getVertex this index = Ok None.
Proof.
  unfold Double.Polygon.getVertex, Double.geb.
  unfold Double.Polygon.vertexCount in out_of_range.
  destruct out_of_range as [H|H]; rewrite H; [reflexivity|].
  rewrite orb_true_r. reflexivity.
Qed.

Lemma double_in_range_false :
  Double.geb index 0
  && (index <? Double.of_nat (length (Double.Polygon.vertices this)))%float
  = false.
Proof.
  unfold Double.geb. unfold Double.Polygon.vertexCount in out_of_range.
  destruct out_of_range as [H|H].
  - rewrite (ltb_leb_false _ _ H). reflexivity.
  - rewrite (leb_ltb_false _ _ H). apply andb_false_r.
Qed.

Lemma double_removeVertex_out_of_range :
  Double.Polygon.removeVertex this index = this.
Proof.
  unfold Double.Polygon.removeVertex. rewrite double_in_range_false.
  reflexivity.
Qed.

Lemma double_setVertex_out_of_range (p : Double.Point.t) :
  Double.Polygon.setVertex this index p = this.
Proof.
  unfold Double.Polygon.setVertex. rewrite double_in_range_false.
  reflexivity.
Qed.
End DoubleVertexIndex.

Lemma getVertex_nan (this : Double.Polygon.t) :
  Double.Polygon.getVertex this nan
  = Error "Cannot read properties of undefined (reading 'clone')".
Proof.
  unfold Double.Polygon.getVertex, Double.geb.
  rewrite leb_nan_r. reflexivity.
Qed.

Lemma removeVertex_nan (this : Double.Polygon.t) :
  Double.Polygon.removeVertex this nan = this.
Proof. reflexivity. Qed.

Lemma setVertex_nan (this : Double.Polygon.t) (p : Double.Point.t) :
  Double.Polygon.setVertex this nan p = this.
Proof. reflexivity. Qed.

(** C10.  For a number below 0, or not below the vertex count: [getVertex]
    returns null, and [removeVertex] and [setVertex] return the polygon as it
    was; none of them throws.  For NaN, which is in no range, [removeVertex]
    and [setVertex] do the same, their guard [index >= 0 && index < length]
    being false; but the guard [index < 0 || index >= length] of [getVertex]
    is false as well, and [getVertex] goes on to call [clone] on the
    [undefined] it finds at [vertices[NaN]], which throws. *)
Theorem vertex_index_out_of_range :
  (forall (this : Double.Polygon.t) (index : float),
     (index <? 0)%float = true \/
     (Double.of_nat (Double.Polygon.vertexCount this) <=? index)%float = true ->
     Double.Polygon.getVertex this index = Ok None /\
     Double.Polygon.removeVertex this index = this /\
     (forall p, Double.Polygon.setVertex this index p = this)) /\
  (forall this : Double.Polygon.t,
     Double.Polygon.getVertex this nan
     = Error "Cannot read properties of undefined (reading 'clone')" /\
     Double.Polygon.removeVertex this nan = this /\
     (forall p, Double.Polygon.setVertex this nan p = this)).
Proof.
  split.
  - intros this index H.
    split; [exact (double_getVertex_out_of_range this index H)|].
    split; [exact (double_removeVertex_out_of_range this index H)|].
    exact (double_setVertex_out_of_range this index H).
  - intros this. split; [apply getVertex_nan|].
    split; [apply removeVertex_nan|apply setVertex_nan].
Qed.

Lemma vertex_index_out_of_range_witness :
  Double.Polygon.getVertex
    (Double.Polygon.mk [Double.Point.mk 0 0; Double.Point.mk 1 0]) 2 = Ok None /\
  Double.Polygon.removeVertex
    (Double.Polygon.mk [Double.Point.mk 0 0; Double.Point.mk 1 0]) (-1)
  = Double.Polygon.mk [Double.Point.mk 0 0; Double.Point.mk 1 0].
Proof.
  split.
  - apply (proj1 vertex_index_out_of_range
             (Double.Polygon.mk [Double.Point.mk 0 0; Double.Point.mk 1 0])
             2%float).
    right. vm_compute. reflexivity.
  - apply (proj1 vertex_index_out_of_range
             (Double.Polygon.mk [Double.Point.mk 0 0; Double.Point.mk 1 0])
             (-1)%float).
    left. vm_compute. reflexivity.
Defined.

(** ** Polygon.intersects *)

Lemma truthy_true (r : option Point.t) : Polygon.truthy r = true <-> r <> None.
Proof. destruct r; simpl; split; intros; congruence. Qed.

Lemma edges_cross_existsb (p q : Polygon.t) :
  existsb
    (fun edge1 =>
       existsb (fun edge2 => Polygon.truthy (Line.intersects edge1 edge2))
               (Polygon.getEdges q))
    (Polygon.getEdges p) = true
  <-> edges_cross p q.
Proof.
  unfold edges_cross. rewrite existsb_exists. split.
  - intros [e1 [H1 H]]. apply existsb_exists in H. destruct H as [e2 [H2 H]].
    exists e1, e2. rewrite <- truthy_true. auto.
  - intros [e1 [e2 [H1 [H2 H]]]]. exists e1. split; [exact H1|].
    apply existsb_exists. exists e2. rewrite truthy_true. auto.
Qed.

Lemma tri_edges :
  Polygon.getEdges tri
  = [Line.mk (Point.mk 0 0) (Point.mk 1 0);
     Line.mk (Point.mk 1 0) (Point.mk 0 1);
     Line.mk (Point.mk 0 1) (Point.mk 0 0)].
Proof.
  unfold Polygon.getEdges, Polygon.isClosed, Point.equals, tri.
  cbn [Polygon.vertices length Nat.ltb Nat.leb Polygon.at_ nth Nat.sub
       Point.x Point.y andb].
  replace (Rltb (Rabs (0 - 1)) EPS) with false
    by (symmetry; apply Rltb_false; R_side).
  rewrite andb_false_r. reflexivity.
Qed.

Lemma sliver_edges :
  Polygon.getEdges sliver
  = [Line.mk (Point.mk (-1e-11) (1 / 2)) (Point.mk 1e-11 (1 / 2));
     Line.mk (Point.mk 1e-11 (1 / 2)) (Point.mk (-1e-11) (1 / 2))].
Proof. reflexivity. Qed.

Lemma tri_contains_second : Polygon.contains tri (Point.mk 1e-11 (1 / 2)) = true.
Proof.
  unfold Polygon.contains, tri.
  cbn [Polygon.vertices length Nat.ltb Nat.leb seq fold_left Polygon.at_ nth
       Nat.sub Point.x Point.y fst].
  eval_gt. cbn [Bool.eqb negb andb]. eval_lt. reflexivity.
Qed.

Lemma tri_contains_first :
  Polygon.contains tri (Point.mk (-1e-11) (1 / 2)) = false.
Proof.
  unfold Polygon.contains, tri.
  cbn [Polygon.vertices length Nat.ltb Nat.leb seq fold_left Polygon.at_ nth
       Nat.sub Point.x Point.y fst].
  eval_gt. cbn [Bool.eqb negb andb]. eval_lt. reflexivity.
Qed.

Lemma tri_sliver_no_cross : ~ edges_cross tri sliver.
Proof.
  intros [e1 [e2 [H1 [H2 H]]]]. apply H. apply intersects_small_determinant.
  rewrite tri_edges in H1. rewrite sliver_edges in H2.
  unfold Line.denominator. simpl in H1, H2.
  destruct H1 as [<-|[<-|[<-|[]]]]; destruct H2 as [<-|[<-|[]]];
    cbn [Line.start Line.end_ Point.x Point.y]; R_side.
Qed.

Lemma tri_sliver_disjoint : Polygon.intersects tri sliver = false.
Proof.
  unfold Polygon.intersects.
  assert (E : existsb
                (fun edge1 =>
                   existsb
                     (fun edge2 => Polygon.truthy (Line.intersects edge1 edge2))
                     (Polygon.getEdges sliver))
                (Polygon.getEdges tri) = false).
  { apply not_true_is_false. intros H. apply edges_cross_existsb in H.
    exact (tri_sliver_no_cross H). }
  rewrite E. cbn [tri sliver Polygon.vertices length Nat.eqb Nat.ltb Nat.leb orb
                  andb Polygon.at_ nth].
  rewrite tri_contains_first.
  change (Polygon.contains
            (Polygon.mk [Point.mk (-1e-11) (1 / 2); Point.mk 1e-11 (1 / 2)])
            (Point.mk 0 0)) with false.
  reflexivity.
Qed.

(** C4, as stated, fails.  The triangle (0,0),(1,0),(0,1) contains the second
    vertex (1e-11, 1/2) of the two-point polygon (-1e-11, 1/2),(1e-11, 1/2);
    but [intersects] only tests the first vertex, which lies outside, and every
    pair of edges has a determinant below 1e-10 in magnitude, so it answers
    false. *)
Lemma intersects_misses_contained_vertex : ~ intersects_iff_any_vertex.
Proof.
  intros H.
  assert (E : Polygon.intersects tri sliver = true).
  { apply H; [discriminate|discriminate|].
    right. left. exists (Point.mk 1e-11 (1 / 2)). split.
    - right. left. reflexivity.
    - exact tri_contains_second. }
  rewrite tri_sliver_disjoint in E. discriminate E.
Qed.

(** C4, amended.  For non-empty polygons [p] and [q], [p.intersects(q)] is
    true if and only if some edge of [p] intersects some edge of [q] (in the
    sense of [Line.intersects]), or [q] contains the first vertex of [p], or
    [p] contains the first vertex of [q] (in the sense of the even-odd
    containment test). *)
Theorem polygon_intersects_spec (p q : Polygon.t) :
  Polygon.vertices p <> [] -> Polygon.vertices q <> [] ->
  (Polygon.intersects p q = true <->
   edges_cross p q \/
   Polygon.contains q (first_vertex p) = true \/
   Polygon.contains p (first_vertex q) = true).
Proof.
  intros Hp Hq. unfold Polygon.intersects, first_vertex.
  assert (Lp : (0 < length (Polygon.vertices p))%nat)
    by (destruct (Polygon.vertices p); [contradiction|simpl; lia]).
  assert (Lq : (0 < length (Polygon.vertices q))%nat)
    by (destruct (Polygon.vertices q); [contradiction|simpl; lia]).
  replace (length (Polygon.vertices p) =? 0)%nat with false
    by (symmetry; apply Nat.eqb_neq; lia).
  replace (length (Polygon.vertices q) =? 0)%nat with false
    by (symmetry; apply Nat.eqb_neq; lia).
  apply Nat.ltb_lt in Lp, Lq. rewrite Lp, Lq. cbn [orb andb].
  rewrite <- edges_cross_existsb.
  destruct (existsb _ _); [tauto|].
  destruct (Polygon.contains q _); [tauto|].
  destruct (Polygon.contains p _); [tauto|].
  split; [discriminate|]. intros [H|[H|H]]; discriminate.
Qed.

(** The triangle contains the first vertex of the reversed two-point
    polygon, so the two intersect. *)
Lemma polygon_intersects_spec_witness :
  Polygon.intersects tri (Polygon.reverse sliver) = true.
Proof.
  apply (polygon_intersects_spec tri (Polygon.reverse sliver));
    [discriminate|discriminate|].
  right. right. exact tri_contains_second.
Defined.

(** ** Sharing between shapes and caller-held points *)

Module StoreFacts.
Import Store.

Lemma read_write_same (h : store) (r : ref) (q : Point.t) :
  valid h r -> read (write h r q) r = q.
Proof.
  unfold valid, read, write. intros H.
  replace (r <? length h)%nat with true by (symmetry; apply Nat.ltb_lt; exact H).
  rewrite app_nth2 by (rewrite length_firstn; lia).
  rewrite length_firstn. replace (r - Nat.min r (length h))%nat with 0%nat by lia.
  reflexivity.
Qed.

Lemma read_write_other (h : store) (r r' : ref) (q : Point.t) :
  r <> r' -> read (write h r q) r' = read h r'.
Proof.
  unfold read, write. intros Hne.
  destruct (r <? length h)%nat eqn:E; [|reflexivity].
  apply Nat.ltb_lt in E.
  rewrite <- (firstn_skipn r h) at 3.
  destruct (Nat.lt_ge_cases r' r) as [Hlt|Hge].
  - rewrite !app_nth1 by (rewrite length_firstn; lia). reflexivity.
  - rewrite !app_nth2 by (rewrite length_firstn; lia).
    rewrite length_firstn. replace (Nat.min r (length h)) with r by lia.
    destruct (r' - r)%nat as [|k] eqn:Ek; [lia|].
    destruct (skipn r h) as [|a l] eqn:Es.
    + pose proof (length_skipn r h) as Hs. rewrite Es in Hs.
      simpl in Hs. lia.
    + change (S r) with (1 + r)%nat. rewrite <- skipn_skipn, Es. reflexivity.
Qed.

Lemma length_write (h : store) (r : ref) (q : Point.t) :
  length (write h r q) = length h.
Proof.
  unfold write. destruct (r <? length h)%nat eqn:E; [|reflexivity].
  apply Nat.ltb_lt in E.
  rewrite length_app, length_firstn. cbn [length]. rewrite length_skipn. lia.
Qed.

Lemma read_alloc_old (h : store) (p : Point.t) (r : ref) :
  valid h r -> read (snd (alloc h p)) r = read h r.
Proof. unfold valid, read, alloc. simpl. intros H. apply app_nth1. exact H. Qed.

Lemma read_alloc_new (h : store) (p : Point.t) :
  read (snd (alloc h p)) (fst (alloc h p)) = p.
Proof.
  unfold read, alloc. simpl. rewrite app_nth2 by lia.
  rewrite Nat.sub_diag. reflexivity.
Qed.

Lemma clone_independent (h : store) (point : ref) :
  independent_copy h (snd (Point_clone h point)) point (fst (Point_clone h point)).
Proof.
  unfold independent_copy, Point_clone. repeat split.
  - unfold valid, alloc. simpl. lia.
  - unfold valid, alloc. simpl. rewrite length_app. simpl. lia.
  - rewrite read_alloc_new. destruct (read h point); reflexivity.
  - unfold valid, alloc in *. simpl. rewrite length_app. simpl. lia.
  - apply read_alloc_old. assumption.
Qed.

(** Mutating a caller-held object leaves an independent copy alone, and
    mutating the copy leaves the caller's objects alone. *)
Lemma independent_copy_frame (h h' : store) (point r' : ref) :
  independent_copy h h' point r' ->
  forall (r : ref) (q : Point.t),
    valid h r ->
    read (write h' r q) r' = read h point /\
    read (write h' r' q) r = read h r.
Proof.
  intros [Hfresh [Hv [Hval Hold]]] r q Hr.
  assert (Hne : r <> r') by (intros ->; contradiction).
  split.
  - rewrite read_write_other by exact Hne. exact Hval.
  - rewrite read_write_other by (intros E; apply Hne; symmetry; exact E).
    apply Hold. exact Hr.
Qed.

(** *** The Polygon constructor *)

Lemma clone_all_spec (vs : list ref) :
  forall h : store,
    Forall (valid h) vs ->
    clone_all h vs = (seq (length h) (length vs), h ++ map (read h) vs).
Proof.
  induction vs as [|v vs IH]; intros h Hv.
  - simpl. rewrite app_nil_r. reflexivity.
  - inversion Hv as [|? ? Hv1 Hv2]; subst.
    cbn [clone_all]. unfold Point_clone, alloc.
    assert (Hval : Forall (valid (h ++ [read h v])) vs).
    { eapply Forall_impl; [|exact Hv2]. unfold valid. intros r Hr.
      rewrite length_app. simpl. lia. }
    replace (Point.mk (Point.x (read h v)) (Point.y (read h v)))
      with (read h v) by (destruct (read h v); reflexivity).
    rewrite (IH _ Hval). rewrite length_app. cbn [length map].
    replace (length h + 1)%nat with (S (length h)) by lia.
    rewrite <- app_assoc. cbn [app seq]. f_equal. f_equal. f_equal.
    apply map_ext_in. intros r Hr.
    rewrite Forall_forall in Hv2. unfold read. apply app_nth1. apply Hv2, Hr.
Qed.

Lemma read_fresh_block (ps : list Point.t) :
  forall h : store, map (read (h ++ ps)) (seq (length h) (length ps)) = ps.
Proof.
  induction ps as [|p ps IH]; intros h; [reflexivity|].
  cbn [length seq map]. f_equal.
  - unfold read. rewrite app_nth2 by lia. rewrite Nat.sub_diag. reflexivity.
  - replace (h ++ p :: ps) with ((h ++ [p]) ++ ps)
      by (rewrite <- app_assoc; reflexivity).
    replace (S (length h)) with (length (h ++ [p]))
      by (rewrite length_app; simpl; lia).
    apply IH.
Qed.

Section PolygonConstructor.
Variables (h h' : store) (vs : list ref) (poly : Polygon).
Hypothesis caller_points : Forall (valid h) vs.
Hypothesis constructed : Polygon_new h vs = (poly, h').

Lemma constructed_parts :
  vertices poly = seq (length h) (length vs) /\ h' = h ++ map (read h) vs.
Proof.
  unfold Polygon_new in constructed.
  rewrite (clone_all_spec vs h caller_points) in constructed.
  inversion constructed. split; reflexivity.
Qed.

Lemma constructed_values : vertex_values h' poly = map (read h) vs.
Proof.
  destruct constructed_parts as [Hp Hh]. unfold vertex_values.
  rewrite Hp, Hh. rewrite <- (length_map (read h) vs). apply read_fresh_block.
Qed.

Lemma constructed_fresh (r' : ref) : In r' (vertices poly) -> ~ valid h r'.
Proof.
  destruct constructed_parts as [Hp _]. rewrite Hp. intros Hin.
  apply in_seq in Hin. unfold valid. lia.
Qed.

Lemma constructed_old (r : ref) : valid h r -> read h' r = read h r.
Proof.
  destruct constructed_parts as [_ Hh]. rewrite Hh. unfold valid, read.
  intros H. apply app_nth1. exact H.
Qed.

Lemma caller_mutation_invisible (r : ref) (q : Point.t) :
  valid h r -> vertex_values (write h' r q) poly = vertex_values h' poly.
Proof.
  intros Hr. unfold vertex_values. apply map_ext_in. intros r' Hin.
  apply read_write_other. intros ->. exact (constructed_fresh r' Hin Hr).
Qed.

Lemma polygon_mutation_invisible (r' r : ref) (q : Point.t) :
  In r' (vertices poly) -> valid h r -> read (write h' r' q) r = read h r.
Proof.
  intros Hin Hr. rewrite read_write_other.
  - apply constructed_old. exact Hr.
  - intros ->. exact (constructed_fresh r Hin Hr).
Qed.
End PolygonConstructor.

(** *** The vertex-level mutators *)

Lemma addVertex_copies (h : store) (this : Polygon) (point : ref) :
  exists r',
    vertices (fst (addVertex h this point)) = vertices this ++ [r'] /\
    independent_copy h (snd (addVertex h this point)) point r'.
Proof.
  unfold addVertex.
  pose proof (clone_independent h point) as H.
  destruct (Point_clone h point) as [r' h'] eqn:E. simpl in *.
  exists r'. split; [reflexivity|exact H].
Qed.

Lemma insertVertex_copies (h : store) (this : Polygon) (index : R) (point : ref) :
  exists r' i,
    vertices (fst (insertVertex h this index point))
    = firstn i (vertices this) ++ r' :: skipn i (vertices this) /\
    independent_copy h (snd (insertVertex h this index point)) point r'.
Proof.
  unfold insertVertex.
  pose proof (clone_independent h point) as H.
  destruct (Point_clone h point) as [r' h'] eqn:E. simpl in *.
  exists r', (splice_start (length (vertices this)) index).
  split; [reflexivity|exact H].
Qed.

Lemma setVertex_copies (h : store) (this : Polygon) (index : R) (point : ref) :
  0 <= index < INR (length (vertices this)) -> is_whole index = true ->
  exists r',
    vertices (fst (setVertex h this index point))
    = firstn (Z.to_nat (floor index)) (vertices this)
      ++ r' :: skipn (S (Z.to_nat (floor index))) (vertices this) /\
    independent_copy h (snd (setVertex h this index point)) point r'.
Proof.
  intros Hi Hw. unfold setVertex.
  replace (Rgeb index 0 && Rltb index (INR (length (vertices this))))
    with true
    by (symmetry; apply andb_true_iff; rewrite Rgeb_true, Rltb_true; lra).
  pose proof (clone_independent h point) as H.
  destruct (Point_clone h point) as [r' h'] eqn:E. rewrite Hw. simpl in *.
  exists r'. split; [reflexivity|exact H].
Qed.

(** *** Circle and Line keep the caller's objects *)

Lemma Circle_new_shares (h : store) (p : ref) (radius : R) (q : Point.t) :
  valid h p ->
  center (fst (Circle_new h p radius)) = p /\
  snd (Circle_new h p radius) = h /\
  read (write h p q) (center (fst (Circle_new h p radius))) = q.
Proof.
  intros Hp. simpl. repeat split. apply read_write_same. exact Hp.
Qed.

Lemma Line_new_shares (h : store) (p1 p2 : ref) (q : Point.t) :
  valid h p1 -> valid h p2 ->
  start (fst (Line_new h p1 p2)) = p1 /\
  end_ (fst (Line_new h p1 p2)) = p2 /\
  snd (Line_new h p1 p2) = h /\
  read (write h p1 q) (start (fst (Line_new h p1 p2))) = q /\
  read (write h p2 q) (end_ (fst (Line_new h p1 p2))) = q.
Proof.
  intros H1 H2. simpl. repeat split; apply read_write_same; assumption.
Qed.

(** *** Copies: [clone] and the static builders of [Line] *)

Lemma valid_app (h l : store) (r : ref) : valid h r -> valid (h ++ l) r.
Proof. unfold valid. rewrite length_app. lia. Qed.

Lemma read_app_old (h l : store) (r : ref) :
  valid h r -> read (h ++ l) r = read h r.
Proof. unfold valid, read. intros H. apply app_nth1. exact H. Qed.

Lemma read_app_new (h l : store) (p : Point.t) :
  read (h ++ p :: l) (length h) = p.
Proof.
  unfold read. rewrite app_nth2 by lia. rewrite Nat.sub_diag. reflexivity.
Qed.

Lemma point_eta (p : Point.t) : Point.mk (Point.x p) (Point.y p) = p.
Proof. destruct p; reflexivity. Qed.

Lemma Circle_clone_copies (h : store) (this : Circle) :
  independent_copy h (snd (Circle_clone h this)) (center this)
                   (center (fst (Circle_clone h this))) /\
  radius (fst (Circle_clone h this)) = radius this.
Proof.
  unfold Circle_clone.
  pose proof (clone_independent h (center this)) as H.
  destruct (Point_clone h (center this)) as [c h1]. split; [exact H|reflexivity].
Qed.

Lemma Line_clone_copies (h : store) (this : Line) :
  valid h (start this) -> valid h (end_ this) ->
  independent_copy h (snd (Line_clone h this)) (start this)
                   (start (fst (Line_clone h this))) /\
  independent_copy h (snd (Line_clone h this)) (end_ this)
                   (end_ (fst (Line_clone h this))) /\
  start (fst (Line_clone h this)) <> end_ (fst (Line_clone h this)).
Proof.
  intros Hs He. unfold Line_clone, Point_clone, alloc, Line_new.
  cbn [fst snd start end_]. rewrite !point_eta.
  rewrite (read_app_old h _ (end_ this) He).
  unfold independent_copy. rewrite <- app_assoc. cbn [app].
  repeat split.
  - unfold valid. lia.
  - unfold valid. rewrite length_app. cbn [length]. lia.
  - apply read_app_new.
  - apply valid_app. assumption.
  - apply read_app_old. assumption.
  - unfold valid. rewrite length_app. cbn [length]. lia.
  - unfold valid. rewrite !length_app. cbn [length]. lia.
  - change (h ++ [read h (start this); read h (end_ this)])
      with (h ++ [read h (start this)] ++ [read h (end_ this)]).
    rewrite app_assoc. apply read_app_new.
  - apply valid_app. assumption.
  - apply read_app_old. assumption.
  - rewrite length_app. cbn [length]. lia.
Qed.

Lemma Line_fromAngle_copies (h : store) (start_ : ref) (angle length_ : R) :
  valid h start_ ->
  independent_copy h (snd (Line_fromAngle h start_ angle length_)) start_
                   (start (fst (Line_fromAngle h start_ angle length_))) /\
  fresh_object h (snd (Line_fromAngle h start_ angle length_))
               (end_ (fst (Line_fromAngle h start_ angle length_))).
Proof.
  intros Hs. unfold Line_fromAngle, Point_clone, alloc, Line_new.
  cbn [fst snd start end_]. rewrite point_eta.
  rewrite (read_app_old h _ start_ Hs).
  unfold independent_copy, fresh_object. rewrite <- app_assoc. cbn [app].
  repeat split.
  - unfold valid. rewrite length_app. cbn [length]. lia.
  - unfold valid. rewrite !length_app. cbn [length]. lia.
  - match goal with |- read (h ++ [?e; ?c]) _ = _ =>
      change (h ++ [e; c]) with (h ++ [e] ++ [c]) end.
    rewrite app_assoc. apply read_app_new.
  - apply valid_app. assumption.
  - apply read_app_old. assumption.
  - unfold valid. lia.
  - unfold valid. rewrite length_app. cbn [length]. lia.
  - apply valid_app. assumption.
  - apply read_app_old. assumption.
Qed.

Lemma Line_fromPointAndDirection_copies (h h' : store) (point direction : ref)
      (length_ : R) (l : Line) :
  valid h point -> valid h direction ->
  Line_fromPointAndDirection h point direction length_ = Ok (l, h') ->
  independent_copy h h' point (start l) /\
  fresh_object h h' (end_ l) /\
  read h' direction = read h direction.
Proof.
  intros Hp Hd. unfold Line_fromPointAndDirection, Point_clone, Point_normalize.
  unfold alloc at 1. cbn [fst snd]. rewrite point_eta.
  rewrite read_app_new.
  destruct (Point.normalize (read h direction)) as [[|msg] v]; [|discriminate].
  unfold alloc, Line_new. cbn [fst snd]. rewrite point_eta.
  set (h2 := write (h ++ [read h direction]) (length h) v).
  set (a := Point.multiply_static _ _).
  set (b := Point.add_static _ _).
  intros [= <- <-]. cbn [start end_].
  assert (L2 : length h2 = S (length h)).
  { unfold h2. rewrite length_write, length_app. cbn [length]. lia. }
  assert (O2 : forall r, valid h r -> read h2 r = read h r).
  { intros r Hr. unfold h2. rewrite read_write_other by (unfold valid in Hr; lia).
    apply read_app_old. exact Hr. }
  assert (V3 : forall r, valid h r -> valid ((h2 ++ [a]) ++ [b]) r).
  { intros r Hr. unfold valid in *. rewrite !length_app, L2. cbn [length]. lia. }
  assert (R3 : forall r, valid h r -> read ((h2 ++ [a]) ++ [b]) r = read h r).
  { intros r Hr. rewrite !read_app_old; [apply O2; exact Hr| |];
      unfold valid in *; rewrite ?length_app, ?L2; cbn [length]; lia. }
  assert (V4 : forall r c, valid h r -> valid (((h2 ++ [a]) ++ [b]) ++ [c]) r).
  { intros r c Hr. apply valid_app, V3, Hr. }
  assert (R4 : forall r c, valid h r ->
                 read (((h2 ++ [a]) ++ [b]) ++ [c]) r = read h r).
  { intros r c Hr. rewrite read_app_old by (apply V3; exact Hr).
    apply R3. exact Hr. }
  rewrite (R3 point Hp).
  replace (length (h2 ++ [a])) with (S (length h) + 1)%nat
    by (rewrite length_app, L2; reflexivity).
  replace (length ((h2 ++ [a]) ++ [b])) with (S (length h) + 1 + 1)%nat
    by (rewrite !length_app, L2; reflexivity).
  unfold independent_copy, fresh_object.
  split; [|split].
  - split; [unfold valid; lia|].
    split; [unfold valid; rewrite !length_app, L2; cbn [length]; lia|].
    split.
    + replace (S (length h) + 1 + 1)%nat with (length ((h2 ++ [a]) ++ [b]))
        by (rewrite !length_app, L2; reflexivity).
      apply read_app_new.
    + intros r Hr. split; [apply V4; exact Hr|apply R4; exact Hr].
  - split; [unfold valid; lia|].
    split; [unfold valid; rewrite !length_app, L2; cbn [length]; lia|].
    intros r Hr. split; [apply V4; exact Hr|apply R4; exact Hr].
  - apply R4. exact Hd.
Qed.

(** *** The point accessors of Rectangle *)

Lemma alloc_fresh_object (h : store) (p : Point.t) :
  fresh_object h (snd (alloc h p)) (fst (alloc h p)).
Proof.
  unfold fresh_object, alloc. cbn [fst snd]. repeat split.
  - unfold valid. lia.
  - unfold valid. rewrite length_app. cbn [length]. lia.
  - apply valid_app. assumption.
  - apply read_app_old. assumption.
Qed.

Lemma Rectangle_accessors_fresh (h : store) (this : Rectangle.t)
      (accessor : store -> Rectangle.t -> ref * store) :
  In accessor Rectangle_accessors ->
  fresh_object h (snd (accessor h this)) (fst (accessor h this)).
Proof.
  unfold Rectangle_accessors. cbn [In].
  intros [<-|[<-|[<-|[<-|[<-|[]]]]]]; apply alloc_fresh_object.
Qed.

Lemma Rectangle_accessors_values (h : store) (this : Rectangle.t) :
  read (snd (Rectangle_topLeft h this)) (fst (Rectangle_topLeft h this))
  = Point.mk (Rectangle.x this) (Rectangle.y this) /\
  read (snd (Rectangle_topRight h this)) (fst (Rectangle_topRight h this))
  = Point.mk (Rectangle.x this + Rectangle.width this) (Rectangle.y this) /\
  read (snd (Rectangle_bottomLeft h this)) (fst (Rectangle_bottomLeft h this))
  = Point.mk (Rectangle.x this) (Rectangle.y this + Rectangle.height this) /\
  read (snd (Rectangle_bottomRight h this)) (fst (Rectangle_bottomRight h this))
  = Point.mk (Rectangle.x this + Rectangle.width this)
             (Rectangle.y this + Rectangle.height this) /\
  read (snd (Rectangle_center h this)) (fst (Rectangle_center h this))
  = Point.mk (Rectangle.x this + Rectangle.width this / 2)
             (Rectangle.y this + Rectangle.height this / 2).
Proof. repeat split; apply read_alloc_new. Qed.

End StoreFacts.

(** C9, as stated, fails for [Circle] (and likewise for [Line]): the
    constructor stores the reference it is given, so a later mutation of the
    caller's point is a mutation of the circle's centre.  Store with one
    point (0,0), a circle built on it, and the point then set to (1,1). *)
Lemma circle_shares_callers_point : ~ Store.Circle_unaliased.
Proof.
  intros H.
  specialize (H [Point.mk 0 0] 0%nat 1 (Point.mk 1 1)).
  cbv in H. assert (V : (1 <= 1)%nat) by lia. specialize (H V).
  apply (f_equal Point.x) in H. simpl in H. lra.
Qed.

(** C9, amended.  The Polygon constructor and the vertex-level mutators
    [addVertex], [insertVertex] and [setVertex] store a new object for each
    incoming point: mutating a point that was passed in never changes the
    polygon's stored vertex, and mutating a stored vertex never changes a
    point of the caller.  A Rectangle holds numbers only, and each of its
    five point accessors ([topLeft], [topRight], [bottomLeft],
    [bottomRight], [center]) returns a new object.  The Circle and Line
    constructors store the very objects they are given, so these are shared
    with the caller; their fields are public and read by reference.  Copies
    are made by [clone()], which builds a Circle or a Line on new objects
    carrying the coordinates of the embedded points, and by the static
    builders [Line.fromAngle] and [Line.fromPointAndDirection], whose
    segment starts at a copy of the point handed in and ends at a new
    object. *)
Theorem ownership_spec :
  (forall (h h' : Store.store) (vs : list Store.ref) (poly : Store.Polygon),
     Forall (Store.valid h) vs ->
     Store.Polygon_new h vs = (poly, h') ->
     Store.vertex_values h' poly = map (Store.read h) vs /\
     (forall r q, Store.valid h r ->
        Store.vertex_values (Store.write h' r q) poly
        = Store.vertex_values h' poly) /\
     (forall r' r q, In r' (Store.vertices poly) -> Store.valid h r ->
        Store.read (Store.write h' r' q) r = Store.read h r)) /\
  (forall (h : Store.store) (this : Store.Polygon) (point : Store.ref),
     exists r',
       Store.vertices (fst (Store.addVertex h this point))
       = Store.vertices this ++ [r'] /\
       Store.independent_copy h (snd (Store.addVertex h this point))
                                   point r') /\
  (forall (h : Store.store) (this : Store.Polygon) (index : R)
          (point : Store.ref),
     exists r' i,
       Store.vertices (fst (Store.insertVertex h this index point))
       = firstn i (Store.vertices this) ++ r' :: skipn i (Store.vertices this) /\
       Store.independent_copy
         h (snd (Store.insertVertex h this index point)) point r') /\
  (forall (h : Store.store) (this : Store.Polygon) (index : R)
          (point : Store.ref),
     0 <= index < INR (length (Store.vertices this)) ->
     is_whole index = true ->
     exists r',
       Store.vertices (fst (Store.setVertex h this index point))
       = firstn (Z.to_nat (floor index)) (Store.vertices this)
         ++ r' :: skipn (S (Z.to_nat (floor index))) (Store.vertices this) /\
       Store.independent_copy
         h (snd (Store.setVertex h this index point)) point r') /\
  (forall (h h' : Store.store) (point r' : Store.ref),
     Store.independent_copy h h' point r' ->
     forall (r : Store.ref) (q : Point.t),
       Store.valid h r ->
       Store.read (Store.write h' r q) r' = Store.read h point /\
       Store.read (Store.write h' r' q) r = Store.read h r) /\
  (forall (h : Store.store) (this : Rectangle.t),
     (forall accessor, In accessor Store.Rectangle_accessors ->
        Store.fresh_object h (snd (accessor h this)) (fst (accessor h this))) /\
     Store.read (snd (Store.Rectangle_topLeft h this))
                (fst (Store.Rectangle_topLeft h this))
     = Point.mk (Rectangle.x this) (Rectangle.y this) /\
     Store.read (snd (Store.Rectangle_topRight h this))
                (fst (Store.Rectangle_topRight h this))
     = Point.mk (Rectangle.x this + Rectangle.width this) (Rectangle.y this) /\
     Store.read (snd (Store.Rectangle_bottomLeft h this))
                (fst (Store.Rectangle_bottomLeft h this))
     = Point.mk (Rectangle.x this) (Rectangle.y this + Rectangle.height this) /\
     Store.read (snd (Store.Rectangle_bottomRight h this))
                (fst (Store.Rectangle_bottomRight h this))
     = Point.mk (Rectangle.x this + Rectangle.width this)
                (Rectangle.y this + Rectangle.height this) /\
     Store.read (snd (Store.Rectangle_center h this))
                (fst (Store.Rectangle_center h this))
     = Point.mk (Rectangle.x this + Rectangle.width this / 2)
                (Rectangle.y this + Rectangle.height this / 2)) /\
  (forall (h : Store.store) (p : Store.ref) (radius : R) (q : Point.t),
     Store.valid h p ->
     Store.center (fst (Store.Circle_new h p radius)) = p /\
     snd (Store.Circle_new h p radius) = h /\
     Store.read (Store.write h p q)
                (Store.center (fst (Store.Circle_new h p radius))) = q) /\
  (forall (h : Store.store) (p1 p2 : Store.ref) (q : Point.t),
     Store.valid h p1 -> Store.valid h p2 ->
     Store.start (fst (Store.Line_new h p1 p2)) = p1 /\
     Store.end_ (fst (Store.Line_new h p1 p2)) = p2 /\
     snd (Store.Line_new h p1 p2) = h /\
     Store.read (Store.write h p1 q) (Store.start (fst (Store.Line_new h p1 p2)))
     = q /\
     Store.read (Store.write h p2 q) (Store.end_ (fst (Store.Line_new h p1 p2)))
     = q) /\
  (forall (h : Store.store) (this : Store.Circle),
     Store.independent_copy h (snd (Store.Circle_clone h this))
                            (Store.center this)
                            (Store.center (fst (Store.Circle_clone h this))) /\
     Store.radius (fst (Store.Circle_clone h this)) = Store.radius this) /\
  (forall (h : Store.store) (this : Store.Line),
     Store.valid h (Store.start this) -> Store.valid h (Store.end_ this) ->
     Store.independent_copy h (snd (Store.Line_clone h this))
                            (Store.start this)
                            (Store.start (fst (Store.Line_clone h this))) /\
     Store.independent_copy h (snd (Store.Line_clone h this))
                            (Store.end_ this)
                            (Store.end_ (fst (Store.Line_clone h this))) /\
     Store.start (fst (Store.Line_clone h this))
     <> Store.end_ (fst (Store.Line_clone h this))) /\
  (forall (h : Store.store) (start : Store.ref) (angle length : R),
     Store.valid h start ->
     Store.independent_copy
       h (snd (Store.Line_fromAngle h start angle length)) start
       (Store.start (fst (Store.Line_fromAngle h start angle length))) /\
     Store.fresh_object
       h (snd (Store.Line_fromAngle h start angle length))
       (Store.end_ (fst (Store.Line_fromAngle h start angle length)))) /\
  (forall (h h' : Store.store) (point direction : Store.ref) (length : R)
          (l : Store.Line),
     Store.valid h point -> Store.valid h direction ->
     Store.Line_fromPointAndDirection h point direction length = Ok (l, h') ->
     Store.independent_copy h h' point (Store.start l) /\
     Store.fresh_object h h' (Store.end_ l) /\
     Store.read h' direction = Store.read h direction).
Proof.
  split.
  { intros h h' vs poly Hv Hc. split; [|split].
    - exact (StoreFacts.constructed_values h h' vs poly Hv Hc).
    - intros r q. exact (StoreFacts.caller_mutation_invisible h h' vs poly Hv Hc r q).
    - intros r' r q.
      exact (StoreFacts.polygon_mutation_invisible h h' vs poly Hv Hc r' r q). }
  split; [exact StoreFacts.addVertex_copies|].
  split; [exact StoreFacts.insertVertex_copies|].
  split; [exact StoreFacts.setVertex_copies|].
  split; [exact StoreFacts.independent_copy_frame|].
  split.
  { intros h this.
    split; [exact (StoreFacts.Rectangle_accessors_fresh h this)|].
    exact (StoreFacts.Rectangle_accessors_values h this). }
  split; [exact StoreFacts.Circle_new_shares|].
  split; [exact StoreFacts.Line_new_shares|].
  split; [exact StoreFacts.Circle_clone_copies|].
  split; [exact StoreFacts.Line_clone_copies|].
  split; [exact StoreFacts.Line_fromAngle_copies|].
  exact StoreFacts.Line_fromPointAndDirection_copies.
Qed.

(** A polygon built from the point (0,0) still has the vertex (0,0) after
    the caller's point is set to (5,5). *)
Lemma ownership_spec_witness :
  Store.vertex_values
    (Store.write (snd (Store.Polygon_new [Point.mk 0 0] [0%nat])) 0%nat
                 (Point.mk 5 5))
    (fst (Store.Polygon_new [Point.mk 0 0] [0%nat]))
  = [Point.mk 0 0].
Proof.
  refine (eq_trans
            (proj1 (proj2 (proj1 ownership_spec
               [Point.mk 0 0] (snd (Store.Polygon_new [Point.mk 0 0] [0%nat]))
               [0%nat] (fst (Store.Polygon_new [Point.mk 0 0] [0%nat])) _ _))
               0%nat (Point.mk 5 5) _) _).
  - repeat constructor.
  - reflexivity.
  - unfold Store.valid. simpl. lia.
  - reflexivity.
Defined.

(** ** Lists without their last element *)

Lemma removelast_hd (l : list Point.t) :
  (2 <= length l)%nat -> hd Point.zero (removelast l) = hd Point.zero l.
Proof.
  destruct l as [|a [|b l]]; simpl; intros H; try lia. reflexivity.
Qed.

(** * Further properties of the code *)

(** ** Numeric helpers *)

(** X1.  For bounds in order, [clamp] returns a value within the bounds: the
    value itself when it is within them, the bound it crosses otherwise; so
    clamping twice is clamping once. *)
Theorem clamp_within_bounds (value min max : R) :
  min <= max ->
  min <= Utils.clamp value min max <= max /\
  (min <= value <= max -> Utils.clamp value min max = value) /\
  (value < min -> Utils.clamp value min max = min) /\
  (max < value -> Utils.clamp value min max = max) /\
  Utils.clamp (Utils.clamp value min max) min max = Utils.clamp value min max.
Proof.
  intros H.
  assert (C : (value < min /\ Utils.clamp value min max = min) \/
              (min <= value <= max /\ Utils.clamp value min max = value) \/
              (max < value /\ Utils.clamp value min max = max)).
  { unfold Utils.clamp.
    destruct (Rlt_dec value min); [left|right; destruct (Rle_dec value max); [left|right]].
    - split; [lra|]. rewrite Rmax_right, Rmin_left; lra.
    - split; [lra|]. rewrite Rmax_left, Rmin_left; lra.
    - split; [lra|]. rewrite Rmax_left, Rmin_right; lra. }
  assert (I : forall v, min <= v <= max -> Utils.clamp v min max = v).
  { intros v Hv. unfold Utils.clamp. rewrite Rmax_left, Rmin_left; lra. }
  destruct C as [[C1 C2]|[[C1 C2]|[C1 C2]]]; rewrite !C2;
    (split; [lra|]); (split; [intros; lra|]); (split; [intros; lra|]);
    (split; [intros; lra|]); first [reflexivity | apply I; lra].
Qed.

Lemma clamp_within_bounds_witness :
  0 <= Utils.clamp 12 0 10 <= 10 /\
  (0 <= 12 <= 10 -> Utils.clamp 12 0 10 = 12) /\
  (12 < 0 -> Utils.clamp 12 0 10 = 0) /\
  (10 < 12 -> Utils.clamp 12 0 10 = 10) /\
  Utils.clamp (Utils.clamp 12 0 10) 0 10 = Utils.clamp 12 0 10.
Proof. apply (clamp_within_bounds 12 0 10). lra. Defined.

(** ** Distances between points *)

Lemma sum_sq_nonneg (a b : R) : 0 <= a * a + b * b.
Proof. nra. Qed.

Lemma distance_nonneg (p q : Point.t) : 0 <= Point.distance p q.
Proof. unfold Point.distance. apply sqrt_pos. Qed.

Lemma distance_sq (p q : Point.t) :
  Point.distance p q * Point.distance p q =
  (Point.x q - Point.x p) * (Point.x q - Point.x p) +
  (Point.y q - Point.y p) * (Point.y q - Point.y p).
Proof. unfold Point.distance. cbv zeta. apply sqrt_sqrt, sum_sq_nonneg. Qed.

(** Comparing a distance with a bound is comparing the squares. *)
Lemma distance_le_iff (p q : Point.t) (r : R) :
  0 <= r ->
  (Point.distance p q <= r <->
   (Point.x q - Point.x p) * (Point.x q - Point.x p) +
   (Point.y q - Point.y p) * (Point.y q - Point.y p) <= r * r).
Proof.
  intros Hr. rewrite <- distance_sq.
  pose proof (distance_nonneg p q) as N. split; intros H.
  - apply Rmult_le_compat; lra.
  - apply Rnot_lt_le; intros C.
    assert (r * r < Point.distance p q * Point.distance p q)
      by (apply Rmult_le_0_lt_compat; lra).
    lra.
Qed.

Lemma distance_le_distance (p q p' q' : Point.t) :
  (Point.x q - Point.x p) * (Point.x q - Point.x p) +
  (Point.y q - Point.y p) * (Point.y q - Point.y p) <=
  (Point.x q' - Point.x p') * (Point.x q' - Point.x p') +
  (Point.y q' - Point.y p') * (Point.y q' - Point.y p') ->
  Point.distance p q <= Point.distance p' q'.
Proof.
  intros H. apply distance_le_iff; [apply distance_nonneg|].
  rewrite distance_sq. exact H.
Qed.

(** ** Rectangles *)

Lemma rect_contains_point (r : Rectangle.t) (p : Point.t) :
  Rectangle.contains r (inl p) = true <->
  Rectangle.x r <= Point.x p <= Rectangle.right r /\
  Rectangle.y r <= Point.y p <= Rectangle.bottom r.
Proof.
  unfold Rectangle.contains, Rgeb.
  rewrite !andb_true_iff, !Rleb_true. tauto.
Qed.

Lemma rect_contains_rect (r a : Rectangle.t) :
  Rectangle.contains r (inr a) = true <->
  Rectangle.x r <= Rectangle.x a /\ Rectangle.right a <= Rectangle.right r /\
  Rectangle.y r <= Rectangle.y a /\ Rectangle.bottom a <= Rectangle.bottom r.
Proof.
  unfold Rectangle.contains, Rgeb.
  rewrite !andb_true_iff, !Rleb_true. tauto.
Qed.

Lemma Rmax_cases (a b : R) :
  (a <= b /\ Rmax a b = b) \/ (b <= a /\ Rmax a b = a).
Proof.
  destruct (Rle_dec a b); [left|right]; split; try lra;
    [apply Rmax_right|apply Rmax_left]; lra.
Qed.

Lemma Rmin_cases (a b : R) :
  (a <= b /\ Rmin a b = a) \/ (b <= a /\ Rmin a b = b).
Proof.
  destruct (Rle_dec a b); [left|right]; split; try lra;
    [apply Rmin_left|apply Rmin_right]; lra.
Qed.

(** Case analysis on every [Rmax] and [Rmin] of the goal. *)
Ltac minmax_at a b lem :=
  let H := fresh "H" in
  let E := fresh "E" in
  destruct (lem a b) as [[H E]|[H E]]; rewrite !E in *; clear E.

Ltac minmax :=
  repeat match goal with
         | |- context [Rmax ?a ?b] => minmax_at a b Rmax_cases
         | |- context [Rmin ?a ?b] => minmax_at a b Rmin_cases
         | _ : context [Rmax ?a ?b] |- _ => minmax_at a b Rmax_cases
         | _ : context [Rmin ?a ?b] |- _ => minmax_at a b Rmin_cases
         end.

(** X10.  For a rectangle [a] of non-negative width and height, [r] contains
    [a] exactly when [r] contains every point that [a] contains. *)
Theorem contains_rectangle_iff_points (r a : Rectangle.t) :
  Rectangle.normalized a ->
  (Rectangle.contains r (inr a) = true <->
   forall p, Rectangle.contains a (inl p) = true ->
             Rectangle.contains r (inl p) = true).
Proof.
  intros [Hw Hh]. rewrite rect_contains_rect. split.
  - intros H p. rewrite !rect_contains_point. lra.
  - intros H.
    pose proof (H (Rectangle.topLeft a)) as H1.
    pose proof (H (Rectangle.bottomRight a)) as H2.
    rewrite !rect_contains_point in H1, H2.
    unfold Rectangle.topLeft, Rectangle.bottomRight in H1, H2.
    cbn [Point.x Point.y] in H1, H2.
    unfold Rectangle.right, Rectangle.bottom in *.
    assert (A1 : Rectangle.x a <= Rectangle.x a <= Rectangle.x a + Rectangle.width a /\
                 Rectangle.y a <= Rectangle.y a <= Rectangle.y a + Rectangle.height a)
      by lra.
    assert (A2 : Rectangle.x a <= Rectangle.x a + Rectangle.width a
                 <= Rectangle.x a + Rectangle.width a /\
                 Rectangle.y a <= Rectangle.y a + Rectangle.height a
                 <= Rectangle.y a + Rectangle.height a)
      by lra.
    specialize (H1 A1). specialize (H2 A2). lra.
Qed.

Lemma contains_rectangle_iff_points_witness :
  Rectangle.contains (Rectangle.mk 0 0 10 10) (inr (Rectangle.mk 1 1 2 2)) = true <->
  forall p, Rectangle.contains (Rectangle.mk 1 1 2 2) (inl p) = true ->
            Rectangle.contains (Rectangle.mk 0 0 10 10) (inl p) = true.
Proof.
  apply (contains_rectangle_iff_points (Rectangle.mk 0 0 10 10) (Rectangle.mk 1 1 2 2)).
  unfold Rectangle.normalized. cbn [Rectangle.width Rectangle.height]. lra.
Defined.

(** ** Circles *)

Lemma circle_contains_iff (c : Circle.t) (p : Point.t) :
  Circle.contains c p = true <-> Point.distance (Circle.center c) p <= Circle.radius c.
Proof. unfold Circle.contains, Point.distanceTo. apply Rleb_true. Qed.

(** The point of [lo, hi] closest to [c] is at least as close as any other. *)
Lemma clamp_closest (lo hi c p : R) :
  lo <= p <= hi ->
  (Rmax lo (Rmin c hi) - c) * (Rmax lo (Rmin c hi) - c) <= (p - c) * (p - c).
Proof.
  intros H. pose proof (Rle_0_sqr (p - c)) as S. unfold Rsqr in S.
  minmax; nra.
Qed.

(** X13.  A circle intersects a rectangle of non-negative width and height
    exactly when some point lies in both. *)
Theorem circle_intersects_rectangle_iff (c : Circle.t) (rect : Rectangle.t) :
  Rectangle.normalized rect ->
  (Circle.intersects c (inr rect) = true <->
   exists p, Rectangle.contains rect (inl p) = true /\
             Circle.contains c p = true).
Proof.
  intros [Hw Hh]. unfold Circle.intersects. cbv zeta.
  unfold Point.distanceTo. rewrite Rleb_true.
  set (closest :=
         Point.mk (Rmax (Rectangle.x rect)
                        (Rmin (Point.x (Circle.center c)) (Rectangle.right rect)))
                  (Rmax (Rectangle.y rect)
                        (Rmin (Point.y (Circle.center c)) (Rectangle.bottom rect)))).
  split.
  - intros H. exists closest. split.
    + apply rect_contains_point. unfold closest, Rectangle.right, Rectangle.bottom.
      cbn [Point.x Point.y]. minmax; lra.
    + apply circle_contains_iff. exact H.
  - intros [p [Hp Hc]].
    apply rect_contains_point in Hp. apply circle_contains_iff in Hc.
    apply Rle_trans with (2 := Hc). apply distance_le_distance.
    unfold closest. cbn [Point.x Point.y].
    apply Rplus_le_compat; apply clamp_closest; lra.
Qed.

Lemma circle_intersects_rectangle_iff_witness :
  Circle.intersects (Circle.mk (Point.mk 0 0) 1) (inr (Rectangle.mk 0 0 2 2)) = true <->
  exists p, Rectangle.contains (Rectangle.mk 0 0 2 2) (inl p) = true /\
            Circle.contains (Circle.mk (Point.mk 0 0) 1) p = true.
Proof.
  apply (circle_intersects_rectangle_iff (Circle.mk (Point.mk 0 0) 1)
                                         (Rectangle.mk 0 0 2 2)).
  unfold Rectangle.normalized. cbn [Rectangle.width Rectangle.height]. lra.
Defined.

(** ** Segments *)

Lemma line_intersects_both (a b : Line.t) :
  Line.intersects a b = Line.intersects b a /\
  (forall p, Line.intersects a b = Some p ->
             exists s t, 0 <= s <= 1 /\ 0 <= t <= 1 /\
                         p = Line.pointAt a t /\ p = Line.pointAt b s).
Proof.
  destruct a as [[x0 y0] [x1 y1]], b as [[x2 y2] [x3 y3]].
  unfold Line.intersects, Line.pointAt, Point.lerp.
  cbn [Line.start Line.end_ Point.x Point.y].
  set (den := - (x3 - x2) * (y1 - y0) + (x1 - x0) * (y3 - y2)).
  replace (- (x1 - x0) * (y3 - y2) + (x3 - x2) * (y1 - y0)) with (- den)
    by (unfold den; ring).
  rewrite Rabs_Ropp.
  destruct (Rltb (Rabs den) EPS) eqn:E.
  { split; [reflexivity|]. intros p C. discriminate. }
  apply Rltb_false in E.
  assert (D : den <> 0).
  { intros C. apply E. rewrite C, Rabs_R0. apply EPS_pos. }
  assert (D' : - den <> 0) by lra.
  set (s := (- (y1 - y0) * (x0 - x2) + (x1 - x0) * (y0 - y2)) / den).
  set (t := ((x3 - x2) * (y0 - y2) - (y3 - y2) * (x0 - x2)) / den).
  replace ((- (y3 - y2) * (x2 - x0) + (x3 - x2) * (y2 - y0)) / - den) with t
    by (unfold t; field; lra).
  replace (((x1 - x0) * (y2 - y0) - (y1 - y0) * (x2 - x0)) / - den) with s
    by (unfold s; field; lra).
  assert (Px : x0 + t * (x1 - x0) = x2 + s * (x3 - x2))
    by (unfold s, t, den; field; exact D).
  assert (Py : y0 + t * (y1 - y0) = y2 + s * (y3 - y2))
    by (unfold s, t, den; field; exact D).
  unfold Rgeb.
  destruct (Rleb 0 s) eqn:S0; destruct (Rleb s 1) eqn:S1;
    destruct (Rleb 0 t) eqn:T0; destruct (Rleb t 1) eqn:T1;
    cbn [andb]; (split; [try reflexivity|try (intros p C; discriminate)]).
  - rewrite Px, Py. reflexivity.
  - intros p C. injection C as <-.
    apply Rleb_true in S0, S1, T0, T1.
    exists s, t. split; [lra|]. split; [lra|]. split.
    + f_equal; ring.
    + rewrite Px, Py. f_equal; ring.
Qed.

Lemma line_intersects_comm (a b : Line.t) :
  Line.intersects a b = Line.intersects b a.
Proof. apply line_intersects_both. Qed.

(** ** Polygons *)

Lemma at_app_lt (vs l : list Point.t) (i : nat) :
  (i < length vs)%nat -> Polygon.at_ (vs ++ l) i = Polygon.at_ vs i.
Proof. intros H. unfold Polygon.at_. apply app_nth1. exact H. Qed.

Lemma at_app_last (vs : list Point.t) (a : Point.t) :
  Polygon.at_ (vs ++ [a]) (length vs) = a.
Proof. unfold Polygon.at_. apply nth_middle. Qed.

Lemma at_in (vs : list Point.t) (i : nat) :
  (i < length vs)%nat -> In (Polygon.at_ vs i) vs.
Proof. intros H. unfold Polygon.at_. apply nth_In. exact H. Qed.

Lemma equals_refl (p : Point.t) (tolerance : R) :
  0 < tolerance -> Point.equals p p tolerance = true.
Proof.
  intros H. unfold Point.equals.
  replace (Point.x p - Point.x p) with 0 by ring.
  replace (Point.y p - Point.y p) with 0 by ring.
  rewrite Rabs_R0. apply andb_true_iff. split; apply Rltb_true; exact H.
Qed.

Lemma close_cases (p : Polygon.t) :
  (Polygon.close p = p /\
   ((length (Polygon.vertices p) < 3)%nat \/ Polygon.isClosed p = true)) \/
  (Polygon.close p
   = Polygon.mk (Polygon.vertices p ++ [Polygon.at_ (Polygon.vertices p) 0]) /\
   (3 <= length (Polygon.vertices p))%nat /\ Polygon.isClosed p = false).
Proof.
  unfold Polygon.close. cbv zeta.
  destruct (2 <? length (Polygon.vertices p))%nat eqn:E; cbn [andb].
  - apply Nat.ltb_lt in E.
    destruct (Polygon.isClosed p) eqn:C; cbn [negb].
    + left. split; [reflexivity|]. right. reflexivity.
    + right. rewrite clone_eq. split; [reflexivity|]. split; [lia|reflexivity].
  - apply Nat.ltb_ge in E. left. split; [reflexivity|]. left. lia.
Qed.

Lemma close_closed (p : Polygon.t) :
  (3 <= length (Polygon.vertices p))%nat ->
  Polygon.isClosed (Polygon.close p) = true.
Proof.
  intros H. destruct (close_cases p) as [[E [C|C]]|[E [_ C]]]; rewrite E.
  - lia.
  - exact C.
  - unfold Polygon.isClosed. cbn [Polygon.vertices].
    rewrite length_app. cbn [length].
    replace (2 <? length (Polygon.vertices p) + 1)%nat with true
      by (symmetry; apply Nat.ltb_lt; lia).
    replace (length (Polygon.vertices p) + 1 - 1)%nat
      with (length (Polygon.vertices p)) by lia.
    rewrite at_app_last, at_app_lt by lia.
    apply equals_refl, EPS_pos.
Qed.

Lemma close_fixed (p : Polygon.t) :
  (length (Polygon.vertices p) < 3)%nat \/ Polygon.isClosed p = true ->
  Polygon.close p = p.
Proof.
  intros H. destruct (close_cases p) as [[E _]|[_ [L C]]]; [exact E|].
  destruct H as [H|H]; [lia|congruence].
Qed.


Lemma ceil_ge (r : R) : r <= IZR (ceil r).
Proof.
  unfold ceil, floor. rewrite opp_IZR.
  destruct (base_Int_part (- r)) as [H _]. lra.
Qed.

Lemma ceil_ge_3 (r : R) : 3 <= r -> (3 <= Z.to_nat (ceil r))%nat.
Proof.
  intros H. pose proof (ceil_ge r) as C.
  assert (Z : (3 <= ceil r)%Z) by (apply le_IZR; lra). lia.
Qed.



(** A loop over the indices of an array is a fold over the array. *)
Lemma fold_seq_at {B : Type} (f : B -> Point.t -> B) (vs : list Point.t) :
  forall acc,
    fold_left (fun a i => f a (Polygon.at_ vs i)) (seq 0 (length vs)) acc
    = fold_left f vs acc.
Proof.
  induction vs as [|v vs IH]; intros acc; [reflexivity|].
  cbn [length seq fold_left]. rewrite <- seq_shift, fold_left_shift.
  unfold Polygon.at_ at 1. cbn [nth]. apply IH.
Qed.

Lemma bounds_fold (tl : list Point.t) :
  forall a b c d,
    exists a' b' c' d',
      fold_left bounds_step tl (a, b, c, d) = (a', b', c', d') /\
      a' <= a /\ b <= b' /\ c' <= c /\ d <= d' /\
      (forall v, In v tl ->
                 a' <= Point.x v <= b' /\ c' <= Point.y v <= d') /\
      (forall lo, lo <= a -> (forall v, In v tl -> lo <= Point.x v) -> lo <= a') /\
      (forall hi, b <= hi -> (forall v, In v tl -> Point.x v <= hi) -> b' <= hi) /\
      (forall lo, lo <= c -> (forall v, In v tl -> lo <= Point.y v) -> lo <= c') /\
      (forall hi, d <= hi -> (forall v, In v tl -> Point.y v <= hi) -> d' <= hi).
Proof.
  induction tl as [|v tl IH]; intros a b c d.
  - exists a, b, c, d. cbn [fold_left In].
    repeat split; try lra; intros; try tauto; lra.
  - cbn [fold_left]. unfold bounds_step at 2.
    destruct (IH (Rmin a (Point.x v)) (Rmax b (Point.x v))
                 (Rmin c (Point.y v)) (Rmax d (Point.y v)))
      as (a' & b' & c' & d' & E & Ha & Hb & Hc & Hd & Hin & La & Lb & Lc & Ld).
    exists a', b', c', d'. split; [exact E|].
    pose proof (Rmin_l a (Point.x v)) as M1.
    pose proof (Rmin_r a (Point.x v)) as M2.
    pose proof (Rmax_l b (Point.x v)) as M3.
    pose proof (Rmax_r b (Point.x v)) as M4.
    pose proof (Rmin_l c (Point.y v)) as M5.
    pose proof (Rmin_r c (Point.y v)) as M6.
    pose proof (Rmax_l d (Point.y v)) as M7.
    pose proof (Rmax_r d (Point.y v)) as M8.
    split; [lra|]. split; [lra|]. split; [lra|]. split; [lra|].
    split.
    { intros u [<-|Hu]; [lra|apply Hin; exact Hu]. }
    split; [|split; [|split]].
    + intros lo H1 H2. apply La.
      * apply Rmin_glb; [exact H1|apply H2; left; reflexivity].
      * intros u Hu. apply H2. right. exact Hu.
    + intros hi H1 H2. apply Lb.
      * apply Rmax_lub; [exact H1|apply H2; left; reflexivity].
      * intros u Hu. apply H2. right. exact Hu.
    + intros lo H1 H2. apply Lc.
      * apply Rmin_glb; [exact H1|apply H2; left; reflexivity].
      * intros u Hu. apply H2. right. exact Hu.
    + intros hi H1 H2. apply Ld.
      * apply Rmax_lub; [exact H1|apply H2; left; reflexivity].
      * intros u Hu. apply H2. right. exact Hu.
Qed.

Lemma boundingBox_cons (v0 : Point.t) (tl : list Point.t) :
  Polygon.boundingBox (Polygon.mk (v0 :: tl)) =
  let '(minX, maxX, minY, maxY) :=
    fold_left bounds_step tl
              (Point.x v0, Point.x v0, Point.y v0, Point.y v0) in
  Rectangle.mk minX minY (maxX - minX) (maxY - minY).
Proof.
  unfold Polygon.boundingBox. cbn [Polygon.vertices length Nat.eqb].
  replace (S (length tl) - 1)%nat with (length tl) by lia.
  rewrite <- seq_shift, fold_left_shift.
  rewrite <- (fold_seq_at bounds_step tl).
  change (Polygon.at_ (v0 :: tl) 0) with v0.
  rewrite (fold_left_ext_in _ (fun a i => bounds_step a (Polygon.at_ tl i)));
    [reflexivity|].
  intros i [[[a b] c] d] _. reflexivity.
Qed.

(** The running bounds are coordinates of vertices met so far. *)
Lemma bounds_fold_attained (tl : list Point.t) :
  forall a b c d,
    let '(a', b', c', d') := fold_left bounds_step tl (a, b, c, d) in
    (a' = a \/ exists v, In v tl /\ Point.x v = a') /\
    (b' = b \/ exists v, In v tl /\ Point.x v = b') /\
    (c' = c \/ exists v, In v tl /\ Point.y v = c') /\
    (d' = d \/ exists v, In v tl /\ Point.y v = d').
Proof.
  induction tl as [|v tl IH]; intros a b c d.
  - cbn [fold_left]. repeat split; left; reflexivity.
  - cbn [fold_left]. unfold bounds_step at 2.
    specialize (IH (Rmin a (Point.x v)) (Rmax b (Point.x v))
                   (Rmin c (Point.y v)) (Rmax d (Point.y v))).
    destruct (fold_left bounds_step tl _) as [[[a' b'] c'] d'].
    destruct IH as (Ia & Ib & Ic & Id).
    assert (T : forall (P : Point.t -> Prop),
               (exists u, In u tl /\ P u) -> exists u, In u (v :: tl) /\ P u).
    { intros P [u [Hu Pu]]. exists u. split; [right; exact Hu|exact Pu]. }
    repeat split.
    + destruct Ia as [->|Ia]; [|right; apply T; exact Ia].
      destruct (Rmin_cases a (Point.x v)) as [[_ ->]|[_ ->]];
        [left; reflexivity|right; exists v; split; [left|]; reflexivity].
    + destruct Ib as [->|Ib]; [|right; apply T; exact Ib].
      destruct (Rmax_cases b (Point.x v)) as [[_ ->]|[_ ->]];
        [right; exists v; split; [left|]; reflexivity|left; reflexivity].
    + destruct Ic as [->|Ic]; [|right; apply T; exact Ic].
      destruct (Rmin_cases c (Point.y v)) as [[_ ->]|[_ ->]];
        [left; reflexivity|right; exists v; split; [left|]; reflexivity].
    + destruct Id as [->|Id]; [|right; apply T; exact Id].
      destruct (Rmax_cases d (Point.y v)) as [[_ ->]|[_ ->]];
        [right; exists v; split; [left|]; reflexivity|left; reflexivity].
Qed.

(** X21.  Without vertices the bounding box is the rectangle at the origin
    with no width and no height.  With vertices it is the rectangle
    [(minX, minY, maxX - minX, maxY - minY)], where every vertex has its x
    between [minX] and [maxX] and its y between [minY] and [maxY], and each
    of the four bounds is the coordinate of some vertex; its width and
    height are not negative. *)
Theorem polygon_boundingBox_spec (p : Polygon.t) :
  (Polygon.vertices p = [] -> Polygon.boundingBox p = Rectangle.mk 0 0 0 0) /\
  (Polygon.vertices p <> [] ->
   exists minX maxX minY maxY,
     Polygon.boundingBox p
     = Rectangle.mk minX minY (maxX - minX) (maxY - minY) /\
     (forall v, In v (Polygon.vertices p) ->
                minX <= Point.x v <= maxX /\ minY <= Point.y v <= maxY) /\
     (exists v, In v (Polygon.vertices p) /\ Point.x v = minX) /\
     (exists v, In v (Polygon.vertices p) /\ Point.x v = maxX) /\
     (exists v, In v (Polygon.vertices p) /\ Point.y v = minY) /\
     (exists v, In v (Polygon.vertices p) /\ Point.y v = maxY) /\
     Rectangle.normalized (Polygon.boundingBox p)).
Proof.
  destruct p as [[|v0 tl]].
  - split; [reflexivity|]. intros C. contradiction C. reflexivity.
  - split; [intros C; discriminate|]. intros _.
    rewrite boundingBox_cons. cbn [Polygon.vertices].
    pose proof (bounds_fold_attained tl (Point.x v0) (Point.x v0)
                                     (Point.y v0) (Point.y v0)) as A.
    destruct (bounds_fold tl (Point.x v0) (Point.x v0) (Point.y v0) (Point.y v0))
      as (a' & b' & c' & d' & E & Ha & Hb & Hc & Hd & Hin & _).
    rewrite E in *. destruct A as (Aa & Ab & Ac & Ad).
    exists a', b', c', d'.
    assert (T : forall (P : Point.t -> Prop) (z w : R),
               (z = w \/ exists v, In v tl /\ P v) ->
               (z = w -> P v0) -> exists v, In v (v0 :: tl) /\ P v).
    { intros P z w [Hz|[u [Hu Pu]]] H0.
      - exists v0. split; [left; reflexivity|apply H0; exact Hz].
      - exists u. split; [right; exact Hu|exact Pu]. }
    split; [reflexivity|]. split.
    { intros v [<-|Hv]; [lra|apply Hin; exact Hv]. }
    split; [apply (T _ _ _ Aa); intros ->; reflexivity|].
    split; [apply (T _ _ _ Ab); intros ->; reflexivity|].
    split; [apply (T _ _ _ Ac); intros ->; reflexivity|].
    split; [apply (T _ _ _ Ad); intros ->; reflexivity|].
    unfold Rectangle.normalized. cbn [Rectangle.width Rectangle.height]. lra.
Qed.

(** *** Symmetry of the polygon intersection test *)

Lemma existsb_orb {A : Type} (f g : A -> bool) (l : list A) :
  existsb (fun a => f a || g a) l = existsb f l || existsb g l.
Proof.
  induction l as [|a l IH]; [reflexivity|].
  cbn [existsb]. rewrite IH.
  destruct (f a), (g a), (existsb f l), (existsb g l); reflexivity.
Qed.

Lemma existsb_false {A : Type} (l : list A) : existsb (fun _ => false) l = false.
Proof. induction l as [|a l IH]; [reflexivity|]. cbn [existsb]. exact IH. Qed.

Lemma existsb_pointwise {A : Type} (f g : A -> bool) (l : list A) :
  (forall a, f a = g a) -> existsb f l = existsb g l.
Proof.
  intros H. induction l as [|a l IH]; [reflexivity|].
  cbn [existsb]. rewrite H, IH. reflexivity.
Qed.

Lemma existsb_swap {A B : Type} (f : A -> B -> bool) (la : list A) (lb : list B) :
  existsb (fun a => existsb (fun b => f a b) lb) la
  = existsb (fun b => existsb (fun a => f a b) la) lb.
Proof.
  induction la as [|a la IH].
  - cbn [existsb]. symmetry. apply existsb_false.
  - cbn [existsb]. rewrite IH. symmetry. apply existsb_orb.
Qed.

(** X23.  [Polygon.intersects] does not depend on which of the two polygons
    is asked. *)
Theorem polygon_intersects_symmetric (p q : Polygon.t) :
  Polygon.intersects p q = Polygon.intersects q p.
Proof.
  unfold Polygon.intersects. cbv zeta.
  rewrite (orb_comm (length (Polygon.vertices q) =? 0)%nat).
  destruct (length (Polygon.vertices p) =? 0)%nat eqn:Ep;
    destruct (length (Polygon.vertices q) =? 0)%nat eqn:Eq;
    cbn [orb]; try reflexivity.
  rewrite (existsb_swap (fun e1 e2 => Polygon.truthy (Line.intersects e1 e2))
                        (Polygon.getEdges p) (Polygon.getEdges q)).
  rewrite (existsb_pointwise
             (fun b => existsb (fun a => Polygon.truthy (Line.intersects a b))
                               (Polygon.getEdges p))
             (fun b => existsb (fun a => Polygon.truthy (Line.intersects b a))
                               (Polygon.getEdges p))).
  2:{ intros b. apply existsb_pointwise. intros a. rewrite line_intersects_comm.
      reflexivity. }
  destruct (existsb _ (Polygon.getEdges q)); [reflexivity|].
  destruct ((0 <? length (Polygon.vertices p))%nat &&
            Polygon.contains q (Polygon.at_ (Polygon.vertices p) 0));
    destruct ((0 <? length (Polygon.vertices q))%nat &&
              Polygon.contains p (Polygon.at_ (Polygon.vertices q) 0));
    reflexivity.
Qed.

(** *** Vertex access at an index in range *)

Lemma floor_INR (k : nat) : floor (INR k) = Z.of_nat k.
Proof. unfold floor. apply Int_part_INR. Qed.

Lemma is_whole_INR (k : nat) : is_whole (INR k) = true.
Proof.
  unfold is_whole. rewrite floor_INR, <- INR_IZR_INZ.
  apply Reqb_true. reflexivity.
Qed.

Lemma trunc_nonneg (r : R) : 0 <= r -> trunc r = floor r.
Proof.
  intros H. unfold trunc.
  replace (Rltb r 0) with false by (symmetry; apply Rltb_false; lra).
  reflexivity.
Qed.

Lemma in_range_INR (k : nat) (vs : list Point.t) :
  Polygon.in_range (INR k) vs = (k <? length vs)%nat.
Proof.
  unfold Polygon.in_range, Rgeb.
  replace (Rleb 0 (INR k)) with true
    by (symmetry; apply Rleb_true; apply pos_INR).
  cbn [andb]. apply eq_true_iff_eq. rewrite Rltb_true, Nat.ltb_lt.
  split; [apply INR_lt|apply lt_INR].
Qed.

Lemma element_INR (vs : list Point.t) (k : nat) :
  Polygon.element vs (INR k) = nth_error vs k.
Proof.
  unfold Polygon.element, Rgeb. rewrite is_whole_INR.
  replace (Rleb 0 (INR k)) with true
    by (symmetry; apply Rleb_true; apply pos_INR).
  cbn [andb]. rewrite floor_INR, Nat2Z.id. reflexivity.
Qed.

Lemma getVertex_INR (p : Polygon.t) (k : nat) :
  Polygon.getVertex p (INR k) =
  match nth_error (Polygon.vertices p) k with
  | Some v => Ok (Some v)
  | None => Ok None
  end.
Proof.
  unfold Polygon.getVertex. rewrite element_INR.
  replace (Rltb (INR k) 0) with false
    by (symmetry; apply Rltb_false; pose proof (pos_INR k); lra).
  cbn [orb]. unfold Rgeb.
  destruct (nth_error (Polygon.vertices p) k) as [v|] eqn:E.
  - assert (H : (k < length (Polygon.vertices p))%nat)
      by (apply nth_error_Some; congruence).
    replace (Rleb (INR (length (Polygon.vertices p))) (INR k)) with false
      by (symmetry; apply Rleb_false; apply lt_INR in H; lra).
    rewrite clone_eq. reflexivity.
  - apply nth_error_None in E.
    replace (Rleb (INR (length (Polygon.vertices p))) (INR k)) with true
      by (symmetry; apply Rleb_true; apply le_INR; exact E).
    reflexivity.
Qed.

Lemma assign_length (vs : list Point.t) (k : nat) (q : Point.t) :
  (k < length vs)%nat -> length (Polygon.assign vs k q) = length vs.
Proof.
  intros H. unfold Polygon.assign.
  rewrite length_app. cbn [length]. rewrite length_firstn, length_skipn. lia.
Qed.

Lemma assign_nth_error (vs : list Point.t) (k j : nat) (q : Point.t) :
  (k < length vs)%nat ->
  nth_error (Polygon.assign vs k q) j
  = if (j =? k)%nat then Some q else nth_error vs j.
Proof.
  intros H. unfold Polygon.assign.
  assert (L : length (firstn k vs) = k) by (rewrite length_firstn; lia).
  destruct (j =? k)%nat eqn:E.
  - apply Nat.eqb_eq in E. subst j.
    rewrite nth_error_app2 by lia. rewrite L, Nat.sub_diag. reflexivity.
  - apply Nat.eqb_neq in E.
    destruct (lt_dec j k) as [Hj|Hj].
    + rewrite nth_error_app1 by lia. rewrite nth_error_firstn.
      replace (j <? k)%nat with true by (symmetry; apply Nat.ltb_lt; exact Hj).
      reflexivity.
    + rewrite nth_error_app2 by lia. rewrite L.
      destruct (j - k)%nat as [|m] eqn:M; [lia|].
      cbn [nth_error]. rewrite nth_error_skipn. f_equal. lia.
Qed.

(** X25.  At a whole index in range, [getVertex] returns the vertex stored
    there; [setVertex] replaces that vertex and no other, so that
    [getVertex] reads back the point that was set; and [removeVertex] takes
    out that vertex, the vertices before and after it keeping their order. *)
Theorem vertex_whole_index (p : Polygon.t) (k : nat) (q : Point.t) :
  (k < length (Polygon.vertices p))%nat ->
  Polygon.getVertex p (INR k)
  = Ok (Some (Polygon.at_ (Polygon.vertices p) k)) /\
  Polygon.getVertex (Polygon.setVertex p (INR k) q) (INR k) = Ok (Some q) /\
  (forall j, j <> k ->
             Polygon.getVertex (Polygon.setVertex p (INR k) q) (INR j)
             = Polygon.getVertex p (INR j)) /\
  Polygon.vertexCount (Polygon.setVertex p (INR k) q) = Polygon.vertexCount p /\
  Polygon.vertices (Polygon.removeVertex p (INR k))
  = firstn k (Polygon.vertices p) ++ skipn (S k) (Polygon.vertices p) /\
  S (Polygon.vertexCount (Polygon.removeVertex p (INR k)))
  = Polygon.vertexCount p.
Proof.
  intros H.
  assert (S : Polygon.setVertex p (INR k) q
              = Polygon.mk (Polygon.assign (Polygon.vertices p) k q)).
  { unfold Polygon.setVertex. rewrite in_range_INR, is_whole_INR, floor_INR,
      Nat2Z.id, clone_eq.
    replace (k <? length (Polygon.vertices p))%nat with true
      by (symmetry; apply Nat.ltb_lt; exact H).
    reflexivity. }
  assert (Rm : Polygon.removeVertex p (INR k)
               = Polygon.mk (Polygon.splice1 (Polygon.vertices p) k)).
  { unfold Polygon.removeVertex.
    rewrite in_range_INR, trunc_nonneg by apply pos_INR.
    rewrite floor_INR, Nat2Z.id.
    replace (k <? length (Polygon.vertices p))%nat with true
      by (symmetry; apply Nat.ltb_lt; exact H).
    reflexivity. }
  split.
  { rewrite getVertex_INR. unfold Polygon.at_.
    rewrite (nth_error_nth' _ Point.zero H). reflexivity. }
  rewrite S, Rm. split.
  { rewrite getVertex_INR. cbn [Polygon.vertices].
    rewrite assign_nth_error, Nat.eqb_refl by exact H. reflexivity. }
  split.
  { intros j Hj. rewrite !getVertex_INR. cbn [Polygon.vertices].
    rewrite assign_nth_error by exact H.
    replace (j =? k)%nat with false by (symmetry; apply Nat.eqb_neq; exact Hj).
    reflexivity. }
  split; [unfold Polygon.vertexCount; cbn [Polygon.vertices];
          apply assign_length; exact H|].
  split; [reflexivity|].
  unfold Polygon.vertexCount, Polygon.splice1. cbn [Polygon.vertices].
  rewrite length_app, length_firstn, length_skipn. lia.
Qed.

Lemma vertex_whole_index_witness :
  Polygon.getVertex (Polygon.mk [Point.mk 0 0; Point.mk 1 0]) (INR 1)
  = Ok (Some (Polygon.at_ [Point.mk 0 0; Point.mk 1 0] 1)) /\
  Polygon.getVertex
    (Polygon.setVertex (Polygon.mk [Point.mk 0 0; Point.mk 1 0]) (INR 1)
                       (Point.mk 5 5)) (INR 1)
  = Ok (Some (Point.mk 5 5)) /\
  (forall j, j <> 1%nat ->
             Polygon.getVertex
               (Polygon.setVertex (Polygon.mk [Point.mk 0 0; Point.mk 1 0])
                                  (INR 1) (Point.mk 5 5)) (INR j)
             = Polygon.getVertex (Polygon.mk [Point.mk 0 0; Point.mk 1 0]) (INR j)) /\
  Polygon.vertexCount
    (Polygon.setVertex (Polygon.mk [Point.mk 0 0; Point.mk 1 0]) (INR 1)
                       (Point.mk 5 5))
  = Polygon.vertexCount (Polygon.mk [Point.mk 0 0; Point.mk 1 0]) /\
  Polygon.vertices
    (Polygon.removeVertex (Polygon.mk [Point.mk 0 0; Point.mk 1 0]) (INR 1))
  = firstn 1 [Point.mk 0 0; Point.mk 1 0] ++ skipn 2 [Point.mk 0 0; Point.mk 1 0] /\
  S (Polygon.vertexCount
       (Polygon.removeVertex (Polygon.mk [Point.mk 0 0; Point.mk 1 0]) (INR 1)))
  = Polygon.vertexCount (Polygon.mk [Point.mk 0 0; Point.mk 1 0]).
Proof.
  apply (vertex_whole_index (Polygon.mk [Point.mk 0 0; Point.mk 1 0]) 1
                            (Point.mk 5 5)).
  cbn [Polygon.vertices length]. lia.
Defined.

Lemma floor_bounds (r : R) : IZR (floor r) <= r < IZR (floor r) + 1.
Proof. unfold floor. destruct (base_Int_part r). lra. Qed.

(** X26.  At an index in range that is not a whole number, the three methods
    differ: [getVertex] throws, [setVertex] leaves the polygon as it is, and
    [removeVertex] removes the vertex at the whole part of the index. *)
Theorem vertex_fractional_index (p : Polygon.t) (index : R) (q : Point.t) :
  0 <= index < INR (length (Polygon.vertices p)) ->
  is_whole index = false ->
  Polygon.getVertex p index
  = Error "Cannot read properties of undefined (reading 'clone')" /\
  Polygon.setVertex p index q = p /\
  Polygon.removeVertex p index = Polygon.removeVertex p (IZR (floor index)) /\
  S (Polygon.vertexCount (Polygon.removeVertex p index)) = Polygon.vertexCount p.
Proof.
  intros [H0 H1] W.
  assert (I : Polygon.in_range index (Polygon.vertices p) = true).
  { unfold Polygon.in_range, Rgeb. apply andb_true_iff.
    rewrite Rleb_true, Rltb_true. lra. }
  pose proof (floor_bounds index) as [F1 F2].
  assert (Z0 : (0 <= floor index)%Z).
  { apply le_IZR. apply Rnot_lt_le. intros C.
    assert (floor index <= -1)%Z by (apply lt_IZR in C; lia).
    apply IZR_le in H. lra. }
  assert (K : (Z.to_nat (floor index) < length (Polygon.vertices p))%nat).
  { apply INR_lt. rewrite INR_IZR_INZ, Z2Nat.id by exact Z0. lra. }
  assert (I' : Polygon.in_range (IZR (floor index)) (Polygon.vertices p) = true).
  { unfold Polygon.in_range, Rgeb. apply andb_true_iff.
    rewrite Rleb_true, Rltb_true. split; [apply IZR_le in Z0; lra|lra]. }
  split.
  { unfold Polygon.getVertex, Polygon.element, Rgeb. rewrite W. cbn [andb].
    replace (Rltb index 0) with false by (symmetry; apply Rltb_false; lra).
    replace (Rleb (INR (length (Polygon.vertices p))) index) with false
      by (symmetry; apply Rleb_false; lra).
    reflexivity. }
  split; [unfold Polygon.setVertex; rewrite I, W; reflexivity|].
  assert (Rm : Polygon.removeVertex p index
               = Polygon.mk (Polygon.splice1 (Polygon.vertices p)
                                             (Z.to_nat (floor index)))).
  { unfold Polygon.removeVertex. rewrite I, trunc_nonneg by exact H0.
    reflexivity. }
  split.
  { rewrite Rm. unfold Polygon.removeVertex.
    rewrite I', trunc_nonneg by (apply IZR_le in Z0; lra).
    rewrite floor_IZR. reflexivity. }
  rewrite Rm. unfold Polygon.vertexCount, Polygon.splice1.
  cbn [Polygon.vertices].
  rewrite length_app, length_firstn, length_skipn. lia.
Qed.

Lemma vertex_fractional_index_witness :
  Polygon.getVertex (Polygon.mk [Point.mk 0 0; Point.mk 1 0]) (1 / 2)
  = Error "Cannot read properties of undefined (reading 'clone')" /\
  Polygon.setVertex (Polygon.mk [Point.mk 0 0; Point.mk 1 0]) (1 / 2) (Point.mk 5 5)
  = Polygon.mk [Point.mk 0 0; Point.mk 1 0] /\
  Polygon.removeVertex (Polygon.mk [Point.mk 0 0; Point.mk 1 0]) (1 / 2)
  = Polygon.removeVertex (Polygon.mk [Point.mk 0 0; Point.mk 1 0])
                         (IZR (floor (1 / 2))) /\
  S (Polygon.vertexCount
       (Polygon.removeVertex (Polygon.mk [Point.mk 0 0; Point.mk 1 0]) (1 / 2)))
  = Polygon.vertexCount (Polygon.mk [Point.mk 0 0; Point.mk 1 0]).
Proof.
  assert (F : floor (1 / 2) = 0%Z).
  { symmetry. unfold floor. apply Int_part_spec. lra. }
  apply (vertex_fractional_index (Polygon.mk [Point.mk 0 0; Point.mk 1 0])
                                 (1 / 2) (Point.mk 5 5)).
  - cbn [Polygon.vertices length INR]. lra.
  - unfold is_whole. rewrite F. apply Reqb_false. lra.
Defined.

(** *** Simplification *)

Lemma simplify_step_inv (eff : list Point.t) (tolerance : R)
      (acc : list Point.t) (i : nat) :
  (i < length eff)%nat -> acc <> [] ->
  (forall v, In v acc -> In v eff) ->
  let a := simplify_step eff tolerance acc i in
  a <> [] /\ hd Point.zero a = hd Point.zero acc /\
  (forall v, In v a -> In v eff) /\
  (length acc <= length a <= length acc + 1)%nat.
Proof.
  intros Hi Hne Hin. unfold simplify_step. cbv zeta.
  destruct (Rgtb _ tolerance).
  - split; [intros C; apply app_eq_nil in C; destruct C as [_ C]; discriminate|].
    split; [destruct acc; [contradiction|reflexivity]|].
    split.
    + intros v Hv. apply in_app_iff in Hv. destruct Hv as [Hv|[<-|[]]].
      * apply Hin, Hv.
      * rewrite clone_eq. apply at_in, Hi.
    + rewrite length_app. cbn [length]. lia.
  - split; [exact Hne|]. split; [reflexivity|]. split; [exact Hin|lia].
Qed.

Lemma simplify_loop (eff : list Point.t) (tolerance : R) (l : list nat) :
  forall acc,
    (forall i, In i l -> (i < length eff)%nat) ->
    acc <> [] ->
    (forall v, In v acc -> In v eff) ->
    let r := fold_left (simplify_step eff tolerance) l acc in
    hd Point.zero r = hd Point.zero acc /\
    (forall v, In v r -> In v eff) /\
    (length acc <= length r <= length acc + length l)%nat.
Proof.
  induction l as [|i l IH]; intros acc Hl Hne Hin; cbv zeta.
  - cbn [fold_left length]. split; [reflexivity|]. split; [exact Hin|lia].
  - cbn [fold_left].
    assert (Hi : (i < length eff)%nat) by (apply Hl; left; reflexivity).
    assert (Hl' : forall j, In j l -> (j < length eff)%nat)
      by (intros j Hj; apply Hl; right; exact Hj).
    destruct (simplify_step_inv eff tolerance acc i Hi Hne Hin)
      as (A1 & A2 & A3 & A4).
    destruct (IH (simplify_step eff tolerance acc i) Hl' A1 A3)
      as (H1 & H2 & H3).
    split; [rewrite H1; exact A2|]. split; [exact H2|].
    cbn [length]. lia.
Qed.

Lemma removelast_in (l : list Point.t) (v : Point.t) :
  In v (removelast l) -> In v l.
Proof.
  destruct l as [|a l] using rev_ind; [auto|].
  rewrite removelast_last. intros H. apply in_or_app. left. exact H.
Qed.

Lemma removelast_length (l : list Point.t) :
  length (removelast l) = (length l - 1)%nat.
Proof.
  destruct l as [|a l] using rev_ind; [reflexivity|].
  rewrite removelast_last, length_app. cbn [length]. lia.
Qed.

Lemma at_last (l : list Point.t) :
  Polygon.at_ l (length l - 1) = last l Point.zero.
Proof.
  destruct l as [|a l] using rev_ind; [reflexivity|].
  rewrite length_app, last_last. cbn [length].
  replace (length l + 1 - 1)%nat with (length l) by lia. apply at_app_last.
Qed.

Lemma at_hd (l : list Point.t) : Polygon.at_ l 0 = hd Point.zero l.
Proof. destruct l; reflexivity. Qed.

Lemma hd_app (l l' : list Point.t) :
  l <> [] -> hd Point.zero (l ++ l') = hd Point.zero l.
Proof. destruct l; [contradiction|reflexivity]. Qed.

Lemma hd_in (l : list Point.t) : l <> [] -> In (hd Point.zero l) l.
Proof. destruct l; [contradiction|left; reflexivity]. Qed.

(** X27.  [simplify] leaves a polygon of at most 2 vertices as it is.  Of a
    larger polygon it keeps the first vertex, keeps nothing that was not a
    vertex, never returns fewer than 2 or more vertices than there were,
    and, when the polygon is not closed, keeps the last vertex. *)
Theorem simplify_spec (p : Polygon.t) (tolerance : R) :
  ((length (Polygon.vertices p) <= 2)%nat -> Polygon.simplify p tolerance = p) /\
  ((3 <= length (Polygon.vertices p))%nat ->
   let r := Polygon.vertices (Polygon.simplify p tolerance) in
   hd Point.zero r = hd Point.zero (Polygon.vertices p) /\
   (forall v, In v r -> In v (Polygon.vertices p)) /\
   (2 <= length r <= length (Polygon.vertices p))%nat /\
   (Polygon.isClosed p = false ->
    last r Point.zero = last (Polygon.vertices p) Point.zero)).
Proof.
  unfold Polygon.simplify. cbv zeta. split.
  - intros H. apply Nat.leb_le in H. rewrite H. reflexivity.
  - intros H.
    replace (length (Polygon.vertices p) <=? 2)%nat with false
      by (symmetry; apply Nat.leb_gt; lia).
    set (vs := Polygon.vertices p) in *.
    assert (Hne : vs <> []) by (intros C; rewrite C in H; cbn in H; lia).
    set (cw := Polygon.isClosed p && (1 <? length vs)%nat).
    set (eff := if cw then removelast vs else vs).
    assert (E : (if cw then (removelast vs, true) else (vs, false))
                = (eff, cw)) by (unfold eff; destruct cw; reflexivity).
    rewrite E. clear E.
    assert (Le : (2 <= length eff)%nat /\
                 (length eff + (if cw then 1 else 0) = length vs)%nat).
    { unfold eff. destruct cw; [rewrite removelast_length|]; lia. }
    destruct Le as [Le1 Le2].
    assert (Ie : forall v, In v eff -> In v vs).
    { unfold eff. destruct cw; [apply removelast_in|auto]. }
    assert (He : hd Point.zero eff = hd Point.zero vs).
    { unfold eff. destruct cw; [apply removelast_hd; lia|reflexivity]. }
    change (fun (simplified : list Point.t) (i : nat) =>
              if Rgtb (Line.distanceToPoint
                         (Line.mk (Polygon.at_ simplified (length simplified - 1))
                                  (Polygon.at_ eff (i + 1)))
                         (Polygon.at_ eff i)) tolerance
              then simplified ++ [Point.clone (Polygon.at_ eff i)]
              else simplified)
      with (simplify_step eff tolerance).
    destruct (simplify_loop eff tolerance (seq 1 (length eff - 1 - 1))
                            [Point.clone (Polygon.at_ vs 0)])
      as (H1 & H2 & H3).
    { intros i Hi. apply in_seq in Hi. lia. }
    { discriminate. }
    { intros v [<-|[]]. rewrite clone_eq, at_hd, <- He. apply hd_in.
      intros C. rewrite C in Le1. cbn in Le1. lia. }
    set (r1 := fold_left (simplify_step eff tolerance)
                         (seq 1 (length eff - 1 - 1))
                         [Point.clone (Polygon.at_ vs 0)]) in *.
    cbn [hd length] in H1, H3. rewrite length_seq in H3.
    rewrite clone_eq, at_hd in H1.
    replace (1 <? length eff)%nat with true by (symmetry; apply Nat.ltb_lt; lia).
    set (r2 := r1 ++ [Point.clone (Polygon.at_ eff (length eff - 1))]).
    assert (N1 : r1 <> []) by (intros C; rewrite C in H3; cbn in H3; lia).
    assert (G1 : hd Point.zero r2 = hd Point.zero vs)
      by (unfold r2; rewrite hd_app by exact N1; exact H1).
    assert (G2 : forall v, In v r2 -> In v vs).
    { intros v Hv. unfold r2 in Hv. apply in_app_iff in Hv.
      destruct Hv as [Hv|[<-|[]]]; [apply Ie, H2, Hv|].
      rewrite clone_eq. apply Ie, at_in. lia. }
    assert (G3 : (2 <= length r2 <= length eff)%nat).
    { unfold r2. rewrite length_app. cbn [length]. lia. }
    assert (G4 : last r2 Point.zero = last eff Point.zero).
    { unfold r2. rewrite last_last, clone_eq. apply at_last. }
    assert (N2 : r2 <> []) by (intros C; rewrite C in G3; cbn in G3; lia).
    destruct (cw && (1 <? length r2)%nat &&
              negb (Point.equals (Polygon.at_ r2 0)
                                 (Polygon.at_ r2 (length r2 - 1)) EPS)) eqn:K;
      cbn [Polygon.vertices].
    + assert (Cw : cw = true).
      { apply andb_true_iff in K. destruct K as [K _].
        apply andb_true_iff in K. destruct K as [K _]. exact K. }
      rewrite Cw in Le2.
      split; [rewrite hd_app by exact N2; exact G1|].
      split.
      { intros v Hv. apply in_app_iff in Hv.
        destruct Hv as [Hv|[<-|[]]]; [apply G2, Hv|].
        rewrite clone_eq, at_hd. apply G2, hd_in, N2. }
      split; [rewrite length_app; cbn [length]; lia|].
      intros C. unfold cw in Cw. rewrite C in Cw. discriminate.
    + split; [exact G1|]. split; [exact G2|]. split; [lia|].
      intros C. rewrite G4. unfold eff, cw. rewrite C. reflexivity.
Qed.

(** ** Point.normalize on doubles *)

(** X6.  [normalize] never throws: it returns the point as it is when the
    computed length is 0, and otherwise divides by the computed length,
    which is not 0, so that the guard of [divide] lets the division
    through. *)
Theorem point_normalize_spec (p : Double.Point.t) :
  fst (Double.Point.normalize p) = ReturnsThis /\
  ((Double.Point.length p =? 0)%float = true ->
   snd (Double.Point.normalize p) = p) /\
  ((Double.Point.length p =? 0)%float = false ->
   snd (Double.Point.normalize p)
   = Double.Point.mk (Double.Point.x p / Double.Point.length p)%float
                     (Double.Point.y p / Double.Point.length p)%float).
Proof.
  unfold Double.Point.normalize, Double.Point.divide. cbv zeta.
  destruct (Double.Point.length p =? 0)%float eqn:E.
  - split; [reflexivity|]. split; [reflexivity|discriminate].
  - split; [reflexivity|]. split; [discriminate|reflexivity].
Qed.

(** ** Rectangle.normalize on doubles *)

Lemma opp_not_negative (w : float) :
  (w <? 0)%float = true -> (- w <? 0)%float = false.
Proof.
  rewrite !FloatAxioms.ltb_spec, FloatAxioms.opp_spec.
  change (Prim2SF 0) with (S754_zero false).
  destruct (Prim2SF w) as [s|s| |s m e]; try destruct s;
    unfold SFltb; cbn; congruence.
Qed.

Lemma normalize_fixed (r : Double.Rectangle.t) :
  (Double.Rectangle.width r <? 0)%float = false ->
  (Double.Rectangle.height r <? 0)%float = false ->
  Double.Rectangle.normalize r = r.
Proof.
  intros W H. unfold Double.Rectangle.normalize. rewrite W, H. reflexivity.
Qed.

Lemma normalize_not_negative (r : Double.Rectangle.t) :
  (Double.Rectangle.width (Double.Rectangle.normalize r) <? 0)%float = false /\
  (Double.Rectangle.height (Double.Rectangle.normalize r) <? 0)%float = false.
Proof.
  unfold Double.Rectangle.normalize. destruct r as [x y w h].
  cbn [Double.Rectangle.width Double.Rectangle.height Double.Rectangle.x
       Double.Rectangle.y].
  destruct (w <? 0)%float eqn:W;
    cbn [Double.Rectangle.set_x Double.Rectangle.set_width
         Double.Rectangle.width Double.Rectangle.height Double.Rectangle.x
         Double.Rectangle.y];
    (destruct (h <? 0)%float eqn:H;
     cbn [Double.Rectangle.set_y Double.Rectangle.set_height
          Double.Rectangle.width Double.Rectangle.height Double.Rectangle.x
          Double.Rectangle.y]);
    split; try assumption; apply opp_not_negative; assumption.
Qed.

(** X9.  After [normalize] neither the width nor the height is negative.  A
    negative width is replaced by its opposite and [x] by [x + width], and
    likewise a negative height and [y]; what is not negative is left alone,
    so that a rectangle without a negative side is returned as it is, and
    normalizing twice is normalizing once. *)
Theorem rectangle_normalize_spec (r : Double.Rectangle.t) :
  (Double.Rectangle.width (Double.Rectangle.normalize r) <? 0)%float = false /\
  (Double.Rectangle.height (Double.Rectangle.normalize r) <? 0)%float = false /\
  ((Double.Rectangle.width r <? 0)%float = true ->
   Double.Rectangle.x (Double.Rectangle.normalize r)
   = (Double.Rectangle.x r + Double.Rectangle.width r)%float /\
   Double.Rectangle.width (Double.Rectangle.normalize r)
   = (- Double.Rectangle.width r)%float) /\
  ((Double.Rectangle.width r <? 0)%float = false ->
   Double.Rectangle.x (Double.Rectangle.normalize r) = Double.Rectangle.x r /\
   Double.Rectangle.width (Double.Rectangle.normalize r)
   = Double.Rectangle.width r) /\
  ((Double.Rectangle.height r <? 0)%float = true ->
   Double.Rectangle.y (Double.Rectangle.normalize r)
   = (Double.Rectangle.y r + Double.Rectangle.height r)%float /\
   Double.Rectangle.height (Double.Rectangle.normalize r)
   = (- Double.Rectangle.height r)%float) /\
  ((Double.Rectangle.height r <? 0)%float = false ->
   Double.Rectangle.y (Double.Rectangle.normalize r) = Double.Rectangle.y r /\
   Double.Rectangle.height (Double.Rectangle.normalize r)
   = Double.Rectangle.height r) /\
  ((Double.Rectangle.width r <? 0)%float = false ->
   (Double.Rectangle.height r <? 0)%float = false ->
   Double.Rectangle.normalize r = r) /\
  Double.Rectangle.normalize (Double.Rectangle.normalize r)
  = Double.Rectangle.normalize r.
Proof.
  destruct (normalize_not_negative r) as [NW NH].
  split; [exact NW|]. split; [exact NH|]. clear NW NH.
  split; [|split; [|split; [|split; [|split]]]];
    try (apply normalize_fixed; apply normalize_not_negative);
    try (apply normalize_fixed).
  all: destruct r as [x y w h]; unfold Double.Rectangle.normalize;
    cbn [Double.Rectangle.width Double.Rectangle.height
         Double.Rectangle.x Double.Rectangle.y];
    intros E.
  - rewrite E.
    destruct (Double.Rectangle.height _ <? 0)%float; split; reflexivity.
  - rewrite E.
    destruct (Double.Rectangle.height _ <? 0)%float; split; reflexivity.
  - destruct (w <? 0)%float;
      cbn [Double.Rectangle.set_x Double.Rectangle.set_width
           Double.Rectangle.width Double.Rectangle.height
           Double.Rectangle.x Double.Rectangle.y];
      rewrite E; split; reflexivity.
  - destruct (w <? 0)%float;
      cbn [Double.Rectangle.set_x Double.Rectangle.set_width
           Double.Rectangle.width Double.Rectangle.height
           Double.Rectangle.x Double.Rectangle.y];
      rewrite E; split; reflexivity.
Qed.

(** ** Segments whose end points are shared objects *)

Lemma valid_write (h : Store.store) (r r' : Store.ref) (q : Point.t) :
  Store.valid h r' -> Store.valid (Store.write h r q) r'.
Proof. unfold Store.valid. rewrite StoreFacts.length_write. auto. Qed.

Lemma valid_alloc (h : Store.store) (p : Point.t) (r : Store.ref) :
  Store.valid h r -> Store.valid (snd (Store.alloc h p)) r.
Proof.
  unfold Store.valid, Store.alloc. cbn [snd]. rewrite length_app. cbn [length]. lia.
Qed.

(** Reading through a sequence of writes. *)
Ltac store_read :=
  repeat first
    [ rewrite StoreFacts.read_write_same
        by (repeat apply valid_write; repeat apply valid_alloc; assumption)
    | rewrite StoreFacts.read_write_other by (assumption || (apply not_eq_sym; assumption)) ].

(** X28.  [scale] about an origin that is an object of its own maps each end
    point [p] to [origin + factor * (p - origin)] and leaves the origin as
    it is.  When the origin handed in is the start point of the segment
    itself, the start point ends at (0,0) and the end point is multiplied
    by the factor, whatever the start point was. *)
Theorem Line_scale_spec (h : Store.store) (l : Store.Line) (factor : R)
        (origin : Store.ref) :
  Store.valid h (Store.start l) -> Store.valid h (Store.end_ l) ->
  Store.valid h origin -> Store.start l <> Store.end_ l ->
  (origin <> Store.start l -> origin <> Store.end_ l ->
   Store.read (Store.Line_scale h l factor origin) (Store.start l)
   = Point.add (Point.multiply (Point.subtract (Store.read h (Store.start l))
                                               (Store.read h origin)) factor)
               (Store.read h origin) /\
   Store.read (Store.Line_scale h l factor origin) (Store.end_ l)
   = Point.add (Point.multiply (Point.subtract (Store.read h (Store.end_ l))
                                               (Store.read h origin)) factor)
               (Store.read h origin) /\
   Store.read (Store.Line_scale h l factor origin) origin = Store.read h origin) /\
  (origin = Store.start l ->
   Store.read (Store.Line_scale h l factor origin) (Store.start l) = Point.mk 0 0 /\
   Store.read (Store.Line_scale h l factor origin) (Store.end_ l)
   = Point.multiply_static (Store.read h (Store.end_ l)) factor).
Proof.
  intros Hs He Ho Hne.
  unfold Store.Line_scale, Store.Point_subtract, Store.Point_multiply,
    Store.Point_add.
  split.
  - intros H1 H2.
    assert (H1' : Store.start l <> origin) by (apply not_eq_sym; exact H1).
    assert (H2' : Store.end_ l <> origin) by (apply not_eq_sym; exact H2).
    assert (Hne' : Store.end_ l <> Store.start l) by (apply not_eq_sym; exact Hne).
    store_read. repeat split; reflexivity.
  - intros E. subst origin.
    assert (Hne' : Store.end_ l <> Store.start l) by (apply not_eq_sym; exact Hne).
    store_read.
    destruct (Store.read h (Store.start l)) as [sx sy].
    destruct (Store.read h (Store.end_ l)) as [ex ey].
    unfold Point.add, Point.multiply, Point.subtract, Point.multiply_static,
      Point.set_x, Point.set_y.
    cbn [Point.x Point.y]. split; f_equal; ring.
Qed.

Lemma Line_scale_spec_witness :
  (2%nat <> Store.start (Store.mkLine 0%nat 1%nat) -> 2%nat <> Store.end_ (Store.mkLine 0%nat 1%nat) ->
   Store.read (Store.Line_scale [Point.mk 1 1; Point.mk 3 1; Point.mk 0 1] (Store.mkLine 0%nat 1%nat) 2 2%nat)
              (Store.start (Store.mkLine 0%nat 1%nat))
   = Point.add
       (Point.multiply
          (Point.subtract (Store.read [Point.mk 1 1; Point.mk 3 1; Point.mk 0 1] (Store.start (Store.mkLine 0%nat 1%nat)))
                          (Store.read [Point.mk 1 1; Point.mk 3 1; Point.mk 0 1] 2%nat)) 2)
       (Store.read [Point.mk 1 1; Point.mk 3 1; Point.mk 0 1] 2%nat) /\
   Store.read (Store.Line_scale [Point.mk 1 1; Point.mk 3 1; Point.mk 0 1] (Store.mkLine 0%nat 1%nat) 2 2%nat)
              (Store.end_ (Store.mkLine 0%nat 1%nat))
   = Point.add
       (Point.multiply
          (Point.subtract (Store.read [Point.mk 1 1; Point.mk 3 1; Point.mk 0 1] (Store.end_ (Store.mkLine 0%nat 1%nat)))
                          (Store.read [Point.mk 1 1; Point.mk 3 1; Point.mk 0 1] 2%nat)) 2)
       (Store.read [Point.mk 1 1; Point.mk 3 1; Point.mk 0 1] 2%nat) /\
   Store.read (Store.Line_scale [Point.mk 1 1; Point.mk 3 1; Point.mk 0 1] (Store.mkLine 0%nat 1%nat) 2 2%nat) 2%nat
   = Store.read [Point.mk 1 1; Point.mk 3 1; Point.mk 0 1] 2%nat) /\
  (2%nat = Store.start (Store.mkLine 0%nat 1%nat) ->
   Store.read (Store.Line_scale [Point.mk 1 1; Point.mk 3 1; Point.mk 0 1] (Store.mkLine 0%nat 1%nat) 2 2%nat)
              (Store.start (Store.mkLine 0%nat 1%nat)) = Point.mk 0 0 /\
   Store.read (Store.Line_scale [Point.mk 1 1; Point.mk 3 1; Point.mk 0 1] (Store.mkLine 0%nat 1%nat) 2 2%nat)
              (Store.end_ (Store.mkLine 0%nat 1%nat))
   = Point.multiply_static (Store.read [Point.mk 1 1; Point.mk 3 1; Point.mk 0 1] (Store.end_ (Store.mkLine 0%nat 1%nat))) 2).
Proof.
  apply (Line_scale_spec [Point.mk 1 1; Point.mk 3 1; Point.mk 0 1] (Store.mkLine 0%nat 1%nat) 2 2%nat);
    unfold Store.valid; cbn [Store.start Store.end_ length]; lia.
Defined.

(** ** The undo/redo store *)

Lemma applied_length {World : Type} (s : History.State World) :
  History.consistent s ->
  Z.of_nat (length (History.applied s)) = (History.historyIndex s + 1)%Z.
Proof.
  intros [H _]. unfold History.applied. rewrite length_firstn. lia.
Qed.

Lemma newHistory_applied {World : Type} (s : History.State World) :
  History.consistent s ->
  (if (History.historyIndex s <? Z.of_nat (length (History.history s)) - 1)%Z
   then History.slice0 World (History.history s) (History.historyIndex s + 1)
   else History.history s)
  = History.applied s.
Proof.
  intros [H _]. unfold History.applied.
  destruct (History.historyIndex s <? Z.of_nat (length (History.history s)) - 1)%Z
    eqn:E.
  - apply Z.ltb_lt in E. unfold History.slice0. cbv zeta.
    replace (History.historyIndex s + 1 <? 0)%Z with false
      by (symmetry; apply Z.ltb_ge; lia).
    rewrite Z.min_l by lia. reflexivity.
  - apply Z.ltb_ge in E. symmetry. apply firstn_all2. lia.
Qed.

Lemma item_in_range {World : Type} (l : list (History.Command World)) (i : Z) :
  (0 <= i < Z.of_nat (length l))%Z ->
  exists c, History.item World l i = Some c /\ nth_error l (Z.to_nat i) = Some c.
Proof.
  intros H. unfold History.item.
  replace (i <? 0)%Z with false by (symmetry; apply Z.ltb_ge; lia).
  destruct (nth_error l (Z.to_nat i)) as [c|] eqn:E.
  - exists c. split; reflexivity.
  - apply nth_error_None in E. lia.
Qed.

Lemma firstn_snoc {A : Type} (l : list A) (k : nat) (c : A) :
  nth_error l k = Some c -> firstn (S k) l = firstn k l ++ [c].
Proof.
  revert k. induction l as [|a l IH]; intros k H.
  - destruct k; discriminate.
  - destruct k as [|k].
    + cbn in H. injection H as ->. reflexivity.
    + cbn [nth_error] in H. rewrite !firstn_cons, (IH k H). reflexivity.
Qed.

Lemma in_firstn {A : Type} (l : list A) (k : nat) (x : A) :
  In x (firstn k l) -> In x l.
Proof.
  intros H. rewrite <- (firstn_skipn k l). apply in_or_app. left. exact H.
Qed.

Lemma replay_snoc {World : Type} (w0 : World)
      (cs : list (History.Command World)) (c : History.Command World) :
  History.replay w0 (cs ++ [c]) = History.execute c (History.replay w0 cs).
Proof. unfold History.replay. rewrite fold_left_app. reflexivity. Qed.

(** What [executeCommand] does to a consistent state. *)
Lemma executeCommand_state {World : Type} (s : History.State World) (w : World)
      (c : History.Command World) :
  History.consistent s ->
  History.executeCommand s w c
  = (History.mkState (History.applied s ++ [c]) (History.historyIndex s + 1)
                     true false,
     History.execute c w).
Proof.
  intros H. unfold History.executeCommand. cbv zeta.
  rewrite (newHistory_applied s H).
  pose proof (applied_length s H) as L.
  rewrite length_app. cbn [length].
  f_equal. f_equal.
  - lia.
  - apply Z.ltb_ge. lia.
Qed.

Lemma undo_state {World : Type} (s : History.State World) (w : World) :
  History.consistent s -> (0 <= History.historyIndex s)%Z ->
  exists c,
    nth_error (History.history s) (Z.to_nat (History.historyIndex s)) = Some c /\
    History.undo s w
    = Ok (History.mkState (History.history s) (History.historyIndex s - 1)
                          (History.historyIndex s >? 0)%Z true,
          History.undo_effect c w).
Proof.
  intros [H _] H0.
  destruct (item_in_range (History.history s) (History.historyIndex s))
    as [c [I N]]; [lia|].
  exists c. split; [exact N|].
  unfold History.undo. cbv zeta.
  replace (History.historyIndex s >=? 0)%Z with true
    by (symmetry; apply Z.geb_le; lia).
  rewrite I. reflexivity.
Qed.

Lemma redo_state {World : Type} (s : History.State World) (w : World) :
  History.consistent s ->
  (History.historyIndex s + 1 < Z.of_nat (length (History.history s)))%Z ->
  exists c,
    nth_error (History.history s) (Z.to_nat (History.historyIndex s + 1)) = Some c /\
    History.redo s w
    = Ok (History.mkState (History.history s) (History.historyIndex s + 1) true
                          (History.historyIndex s
                           <? Z.of_nat (length (History.history s)) - 2)%Z,
          History.execute c w).
Proof.
  intros [H _] H0.
  destruct (item_in_range (History.history s) (History.historyIndex s + 1))
    as [c [I N]]; [lia|].
  exists c. split; [exact N|].
  unfold History.redo. cbv zeta.
  replace (History.historyIndex s + 1 <? Z.of_nat (length (History.history s)))%Z
    with true by (symmetry; apply Z.ltb_lt; lia).
  rewrite I. reflexivity.
Qed.

Lemma undo_nothing {World : Type} (s : History.State World) (w : World) :
  (History.historyIndex s < 0)%Z -> History.undo s w = Ok (s, w).
Proof.
  intros H. unfold History.undo. cbv zeta.
  replace (History.historyIndex s >=? 0)%Z with false; [reflexivity|].
  symmetry. rewrite Z.geb_leb. apply Z.leb_gt. lia.
Qed.

Lemma redo_nothing {World : Type} (s : History.State World) (w : World) :
  (Z.of_nat (length (History.history s)) <= History.historyIndex s + 1)%Z ->
  History.redo s w = Ok (s, w).
Proof.
  intros H. unfold History.redo. cbv zeta.
  replace (History.historyIndex s + 1 <? Z.of_nat (length (History.history s)))%Z
    with false; [reflexivity|].
  symmetry. apply Z.ltb_ge. lia.
Qed.

(** The invariant of a run: the state is consistent, every command kept is
    reversible, and the world is the replay of the commands in effect. *)
Lemma step_invariant {World : Type} (w0 : World) (s : History.State World)
      (w : World) (a : History.action World) :
  History.consistent s ->
  exists s' w',
    History.step (s, w) a = Ok (s', w') /\
    History.consistent s' /\
    (reversible_action a ->
     Forall History.reversible (History.history s) ->
     w = History.replay w0 (History.applied s) ->
     Forall History.reversible (History.history s') /\
     w' = History.replay w0 (History.applied s')).
Proof.
  intros C. pose proof C as [B [CU CR]].
  destruct a as [c| |]; cbn [History.step fst snd].
  - rewrite (executeCommand_state s w c C).
    pose proof (applied_length s C) as L.
    eexists. eexists. split; [reflexivity|]. split.
    + unfold History.consistent.
      cbn [History.history History.historyIndex History.canUndo History.canRedo].
      rewrite length_app. cbn [length].
      split; [lia|]. split; symmetry; [apply Z.leb_le|apply Z.ltb_ge]; lia.
    + intros Rc Rh Ew.
      cbn [History.history]. split.
      * apply Forall_app. split; [|constructor; [exact Rc|constructor]].
        unfold History.applied. apply Forall_forall. intros x Hx.
        apply (proj1 (Forall_forall _ _) Rh). eapply in_firstn. exact Hx.
      * assert (A : History.applied
                      (History.mkState (History.applied s ++ [c])
                                       (History.historyIndex s + 1) true false)
                    = History.applied s ++ [c]).
        { unfold History.applied at 1.
          cbn [History.history History.historyIndex].
          apply firstn_all2. rewrite length_app. cbn [length]. lia. }
        rewrite A, replay_snoc, <- Ew. reflexivity.
  - destruct (Z_lt_le_dec (History.historyIndex s) 0) as [N|P].
    + rewrite (undo_nothing s w N). exists s, w.
      split; [reflexivity|]. split; [exact C|]. intros _ Rh Ew. split; assumption.
    + destruct (undo_state s w C P) as [c [N U]]. rewrite U.
      eexists. eexists. split; [reflexivity|]. split.
      * unfold History.consistent.
        cbn [History.history History.historyIndex History.canUndo History.canRedo].
        split; [lia|]. split.
        -- apply eq_true_iff_eq. rewrite Z.gtb_ltb, Z.ltb_lt, Z.leb_le. lia.
        -- symmetry. apply Z.ltb_lt. lia.
      * intros _ Rh Ew. cbn [History.history]. split; [exact Rh|].
        unfold History.applied in *.
        cbn [History.history History.historyIndex].
        replace (Z.to_nat (History.historyIndex s + 1))
          with (S (Z.to_nat (History.historyIndex s))) in Ew by lia.
        rewrite (firstn_snoc _ _ _ N), replay_snoc in Ew.
        replace (Z.to_nat (History.historyIndex s - 1 + 1))
          with (Z.to_nat (History.historyIndex s)) by lia.
        rewrite Ew.
        apply (proj1 (Forall_forall _ _) Rh c).
        apply nth_error_In with (1 := N).
  - destruct (Z_lt_le_dec (History.historyIndex s + 1)
                          (Z.of_nat (length (History.history s)))) as [P|N].
    + destruct (redo_state s w C P) as [c [N R]]. rewrite R.
      eexists. eexists. split; [reflexivity|]. split.
      * unfold History.consistent.
        cbn [History.history History.historyIndex History.canUndo History.canRedo].
        split; [lia|]. split.
        -- symmetry. apply Z.leb_le. lia.
        -- apply eq_true_iff_eq. rewrite !Z.ltb_lt. lia.
      * intros _ Rh Ew. cbn [History.history]. split; [exact Rh|].
        unfold History.applied in *.
        cbn [History.history History.historyIndex].
        replace (Z.to_nat (History.historyIndex s + 1 + 1))
          with (S (Z.to_nat (History.historyIndex s + 1))) by lia.
        rewrite (firstn_snoc _ _ _ N), replay_snoc, <- Ew. reflexivity.
    + rewrite (redo_nothing s w N). exists s, w.
      split; [reflexivity|]. split; [exact C|]. intros _ Rh Ew. split; assumption.
Qed.

Lemma initial_consistent {World : Type} :
  History.consistent (@History.initial World).
Proof.
  unfold History.consistent, History.initial.
  cbn [History.history History.historyIndex History.canUndo History.canRedo length].
  split; [lia|]. split; reflexivity.
Qed.

Lemma run_invariant {World : Type} (w0 : World)
      (actions : list (History.action World)) :
  forall s w,
    History.consistent s ->
    exists s' w',
      History.run (s, w) actions = Ok (s', w') /\
      History.consistent s' /\
      (Forall reversible_action actions ->
       Forall History.reversible (History.history s) ->
       w = History.replay w0 (History.applied s) ->
       w' = History.replay w0 (History.applied s')).
Proof.
  induction actions as [|a actions IH]; intros s w C.
  - exists s, w. split; [reflexivity|]. split; [exact C|]. intros _ _ E. exact E.
  - destruct (step_invariant w0 s w a C) as (s1 & w1 & E1 & C1 & I1).
    destruct (IH s1 w1 C1) as (s2 & w2 & E2 & C2 & I2).
    exists s2, w2. cbn [History.run]. rewrite E1.
    split; [exact E2|]. split; [exact C2|].
    intros Ra Rh Ew. apply Forall_cons_iff in Ra. destruct Ra as [Ra1 Ra2].
    destruct (I1 Ra1 Rh Ew) as [Rh1 Ew1].
    apply I2; assumption.
Qed.

(** X29.  Whatever a client does with the store, starting from its initial
    state: [undo] and [redo] never read outside the history (no call
    throws), the index stays within [-1, history.length), and [canUndo] and
    [canRedo] tell exactly whether there is a command to undo and a command
    to redo. *)
Theorem history_consistent {World : Type} (w0 : World)
        (actions : list (History.action World)) :
  exists s w,
    History.run (History.initial, w0) actions = Ok (s, w) /\
    (-1 <= History.historyIndex s < Z.of_nat (length (History.history s)))%Z /\
    (History.canUndo s = true <-> (0 <= History.historyIndex s)%Z) /\
    (History.canRedo s = true <->
     (History.historyIndex s + 1 < Z.of_nat (length (History.history s)))%Z).
Proof.
  destruct (run_invariant w0 actions History.initial w0 initial_consistent)
    as (s & w & E & [B [CU CR]] & _).
  exists s, w. split; [exact E|]. split; [exact B|].
  rewrite CU, CR, Z.leb_le, Z.ltb_lt. split; reflexivity.
Qed.

(** X30.  When every command executed is reversible (its [undo] reverts its
    [execute]), then after any sequence of [executeCommand], [undo] and
    [redo] the application is in the state obtained by executing, in
    order, the commands of the history up to the index, from the state the
    application started in. *)
Theorem world_is_replay {World : Type} (w0 : World)
        (actions : list (History.action World))
        (s : History.State World) (w : World) :
  Forall reversible_action actions ->
  History.run (History.initial, w0) actions = Ok (s, w) ->
  w = History.replay w0 (History.applied s).
Proof.
  intros Ra E.
  destruct (run_invariant w0 actions History.initial w0 initial_consistent)
    as (s' & w' & E' & _ & I).
  rewrite E in E'. injection E' as <- <-.
  apply I; [exact Ra|constructor|reflexivity].
Qed.

Lemma world_is_replay_witness :
  2%nat
  = History.replay 1%nat
      (History.applied
         (History.mkState [increment; increment] 0 true true)).
Proof.
  apply (world_is_replay 1%nat
           [History.ExecuteCommand increment; History.ExecuteCommand increment;
            History.Undo]
           (History.mkState [increment; increment] 0 true true) 2%nat).
  - repeat constructor; intros w; reflexivity.
  - reflexivity.
Defined.

(** X31.  [executeCommand] on a consistent state runs the command, drops the
    commands that had been undone, and appends the new one: the history
    becomes the commands in effect followed by the new command, all of them
    in effect; [canRedo] is false, and a [redo] right after changes
    nothing. *)
Theorem executeCommand_spec {World : Type} (s : History.State World) (w : World)
        (c : History.Command World) :
  History.consistent s ->
  let s' := fst (History.executeCommand s w c) in
  let w' := snd (History.executeCommand s w c) in
  w' = History.execute c w /\
  History.history s' = History.applied s ++ [c] /\
  History.applied s' = History.history s' /\
  History.canUndo s' = true /\
  History.canRedo s' = false /\
  History.redo s' w' = Ok (s', w').
Proof.
  intros C. cbv zeta. rewrite (executeCommand_state s w c C). cbn [fst snd].
  pose proof (applied_length s C) as L.
  split; [reflexivity|]. split; [reflexivity|].
  split.
  { unfold History.applied at 1. cbn [History.history History.historyIndex].
    apply firstn_all2. rewrite length_app. cbn [length]. lia. }
  split; [reflexivity|]. split; [reflexivity|].
  apply redo_nothing. cbn [History.history History.historyIndex].
  rewrite length_app. cbn [length]. lia.
Qed.

Lemma executeCommand_spec_witness :
  snd (History.executeCommand (@History.initial nat) 0%nat increment)
  = History.execute increment 0%nat /\
  History.history (fst (History.executeCommand (@History.initial nat) 0%nat increment))
  = History.applied (@History.initial nat) ++ [increment] /\
  History.applied (fst (History.executeCommand (@History.initial nat) 0%nat increment))
  = History.history (fst (History.executeCommand (@History.initial nat) 0%nat increment)) /\
  History.canUndo (fst (History.executeCommand (@History.initial nat) 0%nat increment))
  = true /\
  History.canRedo (fst (History.executeCommand (@History.initial nat) 0%nat increment))
  = false /\
  History.redo (fst (History.executeCommand (@History.initial nat) 0%nat increment))
               (snd (History.executeCommand (@History.initial nat) 0%nat increment))
  = Ok (fst (History.executeCommand (@History.initial nat) 0%nat increment),
        snd (History.executeCommand (@History.initial nat) 0%nat increment)).
Proof.
  apply (executeCommand_spec (@History.initial nat) 0%nat increment).
  apply initial_consistent.
Defined.


